(** * Servalcat: resolution-shell binning and sigma-A weighted map coefficients

    A shallow embedding of

    - [servalcat/utils/hkl.py]: [HklData.setup_relion_binning],
      [df_from_asu_data], [HklData.merge_asu_data];
    - [servalcat/spa/fofc.py]: [mask_and_fft_maps], [calc_noise_var],
      [calc_D_and_S], [calc_maps], and the steps of [main] that call them.

    Conventions of the embedding.

    - A pandas column or a numpy array is a [list]; a boolean mask is a
      [list bool]; [a[sel]] is [select], [a[sel] = v] is [scatter].
    - A pandas [Index] of row labels is a [gset nat] ([Index.union] is set
      union, [len] is [size]).
    - A Python [dict] is an insertion-ordered association list without
      repeated keys ([dict_get], [dict_set]).
    - [numpy.float64] and [numpy.complex128] are the carriers [R] and [C] of
      a [Numeric] structure whose fields are the operators and numpy
      functions the source calls. Every theorem about the pipeline holds for
      every such structure; [Float64] instantiates it with binary64
      arithmetic so that the functions run on concrete tables, and [Exact]
      with exact rational arithmetic where a property needs the laws of a
      field.
    - [while True] is a loop with fuel; the log is a list of events. *)

From Stdlib Require Import Floats QArith Qcanon.
From Stdlib Require Uint63.
From stdpp Require Import gmap strings list sorting numbers relations.

Local Open Scope Z_scope.
Local Open Scope nat_scope.

(** ** Python dictionaries with integer keys *)

Section dict.
Context {V : Type}.

(** [d[k]]; [None] where Python raises [KeyError]. *)
Fixpoint dict_get (k : Z) (d : list (Z * V)) : option V :=
  match d with
  | [] => None
  | (k', v) :: d' => if decide (k = k') then Some v else dict_get k d'
  end.

(** [k in d] *)
Definition dict_in (k : Z) (d : list (Z * V)) : bool :=
  bool_decide (is_Some (dict_get k d)).

(** [d[k] = v]: an existing key keeps its place, a new key goes last. *)
Fixpoint dict_set (k : Z) (v : V) (d : list (Z * V)) : list (Z * V) :=
  match d with
  | [] => [(k, v)]
  | (k', v') :: d' =>
      if decide (k = k') then (k', v) :: d' else (k', v') :: dict_set k v d'
  end.

(** The keys, in iteration order. *)
Definition dict_keys (d : list (Z * V)) : list Z := d.*1.
End dict.

(** ** [HklData.setup_relion_binning]: the part over shell ids

    [bin_counts] is the list of [[i_bin, g.index]] pairs, [modify_table] the
    dictionary of forward pointers. *)

Abbreviation shell := (Z * gset nat)%type.

(** Row labels of the records whose bin is [b] (after [reset_index] the
    labels are the positions). *)
Definition group_index (b : Z) (bins : list Z) : gset nat :=
  list_to_set ((filter (λ p : nat * Z, p.2 = b) (imap pair bins)).*1).

(** [self.df.groupby("bin", sort=True)]: one group per distinct bin value, in
    ascending order. *)
Definition groupby_bin (bins : list Z) : list shell :=
  (λ b, (b, group_index b bins)) <$> merge_sort Z.le (remove_dups bins).

(** Lines 312-315: the groups except the DC component. *)
Definition initial_bin_counts (bins : list Z) : list shell :=
  filter (λ g : shell, g.1 ≠ 0%Z) (groupby_bin bins).

(** Lines 317-323. [n] counts the iterations left of [for i in range(len)];
    the guard [i < len(bin_counts)-1] keeps [i+1] in range. *)
Fixpoint forward_loop (n i : nat) (bin_counts : list shell)
    (modify_table : list (Z * Z)) : list shell * list (Z * Z) :=
  match n with
  | O => (bin_counts, modify_table)
  | S n' =>
      let cur := bin_counts !!! i in
      if bool_decide (size cur.2 < 10)
         && bool_decide (i < length bin_counts - 1)
      then
        let nxt := bin_counts !!! S i in
        forward_loop n' (S i)
          (<[S i := (nxt.1, nxt.2 ∪ cur.2)]> bin_counts)
          (dict_set cur.1 nxt.1 modify_table)
      else (bin_counts, modify_table)
  end.

Definition forward_pass (bin_counts : list shell)
    (modify_table : list (Z * Z)) : list shell * list (Z * Z) :=
  forward_loop (length bin_counts) 0 bin_counts modify_table.

(** Lines 325-331. [for i in reversed(range(len))]: the iteration with [n]
    left looks at [i = n - 1]. The test
    [len(bin_counts[i][1])/len(bin_counts[i-1][1]) < 0.5] is a true division
    of two counts, the lower one positive (a group is never empty); it holds
    exactly when twice the upper count is below the lower count. *)
Fixpoint backward_loop (n : nat) (bin_counts : list shell)
    (modify_table : list (Z * Z)) : list shell * list (Z * Z) :=
  match n with
  | O => (bin_counts, modify_table)
  | S i =>
      let cur := bin_counts !!! i in
      let prv := bin_counts !!! (i - 1) in
      if bool_decide (0 < i) && bool_decide (2 * size cur.2 < size prv.2)
      then
        backward_loop i
          (<[i - 1 := (prv.1, prv.2 ∪ cur.2)]> bin_counts)
          (dict_set cur.1 prv.1 modify_table)
      else (bin_counts, modify_table)
  end.

Definition backward_pass (bin_counts : list shell)
    (modify_table : list (Z * Z)) : list shell * list (Z * Z) :=
  backward_loop (length bin_counts) bin_counts modify_table.

(** Lines 335-338: one run of [for i_bin in modify_table] over the keys, the
    values changing under the iteration. *)
Fixpoint sweep (keys : list Z) (modify_table : list (Z * Z)) (flag : bool)
    : list (Z * Z) * bool :=
  match keys with
  | [] => (modify_table, flag)
  | i_bin :: keys' =>
      match dict_get i_bin modify_table with
      | Some target =>
          match dict_get target modify_table with
          | Some target' =>
              sweep keys' (dict_set i_bin target' modify_table) false
          | None => sweep keys' modify_table flag
          end
      | None => sweep keys' modify_table flag
      end
  end.

(** Lines 333-339: [while True: ... if flag: break]. [None] when the fuel
    runs out before a sweep leaves the table unchanged. *)
Fixpoint resolve (fuel : nat) (modify_table : list (Z * Z))
    : option (list (Z * Z)) :=
  match fuel with
  | O => None
  | S fuel' =>
      let '(modify_table', flag) :=
        sweep (dict_keys modify_table) modify_table true in
      if flag then Some modify_table' else resolve fuel' modify_table'
  end.

(** Lines 341-343: [numpy.where(bin == i_bin, new_bin, bin)] for every entry
    of the table, in order. *)
Definition rewrite_bin (i_bin new_bin : Z) (bins : list Z) : list Z :=
  (λ b, if decide (b = i_bin) then new_bin else b) <$> bins.

Definition apply_table (modify_table : list (Z * Z)) (bins : list Z)
    : list Z :=
  foldl (λ bs e, rewrite_bin e.1 e.2 bs) bins modify_table.

(** Lines 351-358: the shells that were not merged away. *)
Definition surviving (modify_table : list (Z * Z)) (bin_counts : list shell)
    : list shell :=
  filter (λ g : shell, dict_in g.1 modify_table = false) bin_counts.

(** ** Properties of a merge table *)

(** One step along the table: [k] is a key and [v = modify_table[k]]. *)
Definition points_to (modify_table : list (Z * Z)) (k v : Z) : Prop :=
  dict_get k modify_table = Some v.

(** No key reaches itself by following the table. *)
Definition acyclic (modify_table : list (Z * Z)) : Prop :=
  ∀ k, ¬ tc (points_to modify_table) k k.

(** No target of an entry is itself a key. *)
Definition fully_resolved (modify_table : list (Z * Z)) : Prop :=
  ∀ k v, (k, v) ∈ modify_table → v ∉ dict_keys modify_table.

(** A rank that every entry decreases, and the sum of the ranks of the
    targets: the measure of the [while] loop. *)
Definition ranked (ρ : Z → nat) (modify_table : list (Z * Z)) : Prop :=
  ∀ k v, dict_get k modify_table = Some v → ρ v < ρ k.

Definition potential (ρ : Z → nat) (modify_table : list (Z * Z)) : nat :=
  sum_list (ρ <$> modify_table.*2).

(** ** Closed forms of the two merge passes *)

(** [d[k] = v] for a list of entries, in order. *)
Definition dict_update {V} (d : list (Z * V)) (es : list (Z * V))
    : list (Z * V) :=
  foldl (λ m e, dict_set e.1 e.2 m) d es.

(** The pointers of a forward pass that ran from position [i] and stopped at
    [f], and of a backward pass that ran from position [n - 1] down and
    stopped at [b], in the order they are written. *)
Definition forward_entries (ids : list Z) (i f : nat) : list (Z * Z) :=
  (λ j, (ids !!! j, ids !!! S j)) <$> seq i (f - i).

Definition backward_entries (ids : list Z) (b n : nat) : list (Z * Z) :=
  (λ j, (ids !!! j, ids !!! (j - 1))) <$> reverse (seq (S b) (n - S b)).

(** Position of [x] in [l] ([length l] when it is absent). *)
Fixpoint index_of (x : Z) (l : list Z) : nat :=
  match l with
  | [] => 0
  | y :: l' => if decide (x = y) then 0 else S (index_of x l')
  end.

(** The number of positions between a shell and the shell its pointers end
    in, when the forward pass stopped at [f] and the backward pass at [b]. *)
Definition pass_rank (ids : list Z) (f b : nat) (x : Z) : nat :=
  let p := index_of x ids in
  if decide (p < f) then f - p else if decide (b < p) then p - b else 0.

(** The two passes from an empty table (lines 311-331). *)
Definition merge_passes (bin_counts : list shell)
    : list shell * list (Z * Z) :=
  let '(bin_counts, modify_table) := forward_pass bin_counts [] in
  backward_pass bin_counts modify_table.

(** What the forward pass did when it stopped at position [f]: every shell
    below [f] had fewer than 10 members when it was looked at, was not the
    last one, gave its members to the next shell and points to it; the shell
    at [f] is the last one or has at least 10 members; nothing else
    changed. *)
Definition forward_outcome (bc bc1 : list shell) (mt1 : list (Z * Z))
    (f : nat) : Prop :=
  f < length bc ∧ bc1.*1 = bc.*1 ∧
  (∀ j, j < f →
     size (bc1 !!! j).2 < 10 ∧ j < length bc - 1 ∧
     (bc1 !!! S j).2 = (bc !!! S j).2 ∪ (bc1 !!! j).2 ∧
     dict_get (bc !!! j).1 mt1 = Some (bc !!! S j).1) ∧
  (f = length bc - 1 ∨ 10 ≤ size (bc1 !!! f).2) ∧
  (∀ j, j = 0 ∨ f < j → bc1 !!! j = bc !!! j) ∧
  dict_keys mt1 = take f bc.*1.

(** What the backward pass did when it stopped at position [b]: every shell
    above [b] had, when it was looked at, fewer than half the members of the
    shell below it, gave its members to that shell and points to it; the
    shell at [b] is the lowest one or fails the ratio test; nothing else
    changed and the pointers of the forward pass are kept. *)
Definition backward_outcome (bc1 bc2 : list shell) (mt1 mt2 : list (Z * Z))
    (b : nat) : Prop :=
  b < length bc1 ∧ bc2.*1 = bc1.*1 ∧
  (∀ j, b < j < length bc1 →
     2 * size (bc2 !!! j).2 < size (bc1 !!! (j - 1)).2 ∧
     (bc2 !!! (j - 1)).2 = (bc1 !!! (j - 1)).2 ∪ (bc2 !!! j).2 ∧
     dict_get (bc1 !!! j).1 mt2 = Some (bc1 !!! (j - 1)).1) ∧
  (b = 0 ∨ ¬ 2 * size (bc2 !!! b).2 < size (bc1 !!! (b - 1)).2) ∧
  (∀ j, j < b ∨ length bc1 ≤ S j → bc2 !!! j = bc1 !!! j) ∧
  (∀ k v, dict_get k mt1 = Some v → dict_get k mt2 = Some v) ∧
  dict_keys mt2 = dict_keys mt1 ++ reverse (drop (S b) bc1.*1).

(** ** Arithmetic

    The operators and numpy functions of the source, over [numpy.float64]
    ([R]) and [numpy.complex128] ([C]). A mixed operation is one field
    ([rmulc] for [float * complex], [cdivr] for [complex / float]): numpy
    promotes the real operand and runs its complex loop. *)

Record Numeric : Type := {
  R : Type;
  C : Type;
  r_lit : Q → R;              (* a literal: [0], [1], [2], [4.], [0.5], [1e-10] *)
  radd : R → R → R;
  rsub : R → R → R;
  rmul : R → R → R;
  rdiv : R → R → R;
  rneg : R → R;
  rltb : R → R → bool;        (* [x < y] *)
  rneb : R → R → bool;        (* [x != y] *)
  np_sqrt : R → R;
  np_exp : R → R;
  astype_int : R → Z;         (* [.astype(int)]: the C cast, toward zero *)
  np_sum : list R → R;
  np_average : list R → R;
  np_max : list R → R;
  np_min : list R → R;
  czero : C;                  (* an element of [numpy.zeros(n, complex128)] *)
  cadd : C → C → C;
  csub : C → C → C;
  cmul : C → C → C;
  rmulc : R → C → C;          (* [float * complex] *)
  cmulr : C → R → C;          (* [complex * float] *)
  cdivr : C → R → C;          (* [complex / float] *)
  np_conj : C → C;
  np_real : C → R;
  np_abs : C → R;
  np_var : list C → R;
  np_std : list C → R;
  np_corrcoef_10 : list C → list C → C  (* [numpy.corrcoef(a, b)[1,0]] *)
}.

(** ** Masks *)

Section masks.
Context {A : Type}.

(** [a[sel]] *)
Fixpoint select (sel : list bool) (a : list A) : list A :=
  match sel, a with
  | true :: sel', x :: a' => x :: select sel' a'
  | false :: sel', _ :: a' => select sel' a'
  | _, _ => []
  end.

(** [a[sel] = v], [v] an array with one value per selected position. *)
Fixpoint scatter (sel : list bool) (v a : list A) : list A :=
  match sel, a with
  | true :: sel', x :: a' =>
      match v with
      | y :: v' => y :: scatter sel' v' a'
      | [] => x :: a'
      end
  | false :: sel', x :: a' => x :: scatter sel' v a'
  | _, _ => a
  end.
End masks.

(** [i_bin == hkldata.df.bin] *)
Definition bin_mask (i_bin : Z) (bins : list Z) : list bool :=
  (λ b, bool_decide (b = i_bin)) <$> bins.

(** ** The reflection table *)

Section pipeline.
Context (N : Numeric).
Abbreviation R := (R N).
Abbreviation C := (C N).

(** A row of [binned_df]: the index value and the columns that the stages
    add. A column that no stage has written yet reads as whatever the row
    holds; in [main] every column is written before it is read. *)
Record bin_row : Type := BinRow {
  row_bin : Z;
  row_d_max : R;
  row_d_min : R;
  row_var_noise : R;
  row_FSCfull : R;
  row_D : R;
  row_S : R
}.

(** [HklData]: [cell] holds the edges [self.cell.parameters[:3]], [df] the
    complex columns of [self.df] by label, [df_d] the column ["d"] that
    [d_spacings()] returns (it comes from the unit cell through gemmi),
    [df_bin] the column ["bin"]. *)
Record HklData : Type := mkHklData {
  cell : R * R * R;
  df_hkl : list (Z * Z * Z);
  df : gmap string (list C);
  df_d : list R;
  df_bin : list Z;
  binned_df : list bin_row;
  bin_and_indices : list shell
}.

Inductive log_event : Type :=
  | LogText (s : string)
  | LogNoise (i_bin : Z) (n : nat) (d_max d_min fsc varn scale : R)
  | WarnBinSize (i_bin : Z) (n : nat)
  | WarnBinNorm (i_bin : Z) (sig_fo FSCfull : R)
  | LogBlur (i_bin : Z) (n_fo sig_fo fsc_l k fwt delfwt : R).

(** A row of the [Fstats] report of [calc_D_and_S]. *)
Record fstats_row : Type := FstatsRow {
  fs_bin : Z;
  fs_n : nat;
  fs_d_max : R;
  fs_d_min : R;
  fs_Fo : R;
  fs_Fc : R;
  fs_FSC_model : R;
  fs_FSC_full : R;
  fs_D : R;
  fs_S : R;
  fs_N : R
}.

Definition zero : R := r_lit N 0.

(** Python's [max(a, b)] and [min(a, b)]: the first argument unless the
    second is greater (smaller). *)
Definition py_max (a b : R) : R := if rltb N a b then b else a.
Definition py_min (a b : R) : R := if rltb N b a then b else a.

(** ** [HklData.setup_relion_binning] (with [sort=False]) *)

(** Line 302: [max(self.cell.parameters[:3])] *)
Definition max_cell_edge (abc : R * R * R) : R :=
  py_max (py_max abc.1.1 abc.1.2) abc.2.

(** Line 307: [(max_edge/self.d_spacings()+0.5).astype(int)] *)
Definition relion_bin (max_edge d : R) : Z :=
  astype_int N (radd N (rdiv N max_edge d) (r_lit N 0.5)).

(** Line 315: [(numpy.max(g.d), numpy.min(g.d))] for every group. *)
Definition initial_bin_ranges (bins : list Z) (ds : list R)
    (bin_counts : list shell) : list (Z * (R * R)) :=
  (λ g : shell,
     let gd := select (bin_mask g.1 bins) ds in
     (g.1, (np_max N gd, np_min N gd))) <$> bin_counts.

(** Lines 344-345 for one entry of the table. *)
Definition merge_range (bin_ranges : list (Z * (R * R))) (e : Z * Z)
    : list (Z * (R * R)) :=
  match dict_get e.1 bin_ranges, dict_get e.2 bin_ranges with
  | Some r, Some r' =>
      dict_set e.2 (py_max r.1 r'.1, py_min r.2 r'.2) bin_ranges
  | _, _ => bin_ranges
  end.

(** Lines 351-361: a row of [binned_df] for a surviving shell. *)
Definition new_bin_row (bin_ranges : list (Z * (R * R))) (g : shell)
    : bin_row :=
  let r := default (zero, zero) (dict_get g.1 bin_ranges) in
  BinRow g.1 r.1 r.2 zero zero zero zero.

Definition setup_relion_binning (fuel : nat) (h : HklData)
    : option HklData :=
  let max_edge := max_cell_edge (cell h) in
  let bins := relion_bin max_edge <$> df_d h in
  let bin_counts := initial_bin_counts bins in
  let bin_ranges := initial_bin_ranges bins (df_d h) bin_counts in
  let '(bin_counts, modify_table) := merge_passes bin_counts in
  modify_table ← resolve fuel modify_table;
  let bin_ranges := foldl merge_range bin_ranges modify_table in
  let shells := surviving modify_table bin_counts in
  Some {| cell := cell h; df_hkl := df_hkl h; df := df h; df_d := df_d h;
          df_bin := apply_table modify_table bins;
          binned_df := new_bin_row bin_ranges <$> shells;
          bin_and_indices := shells |}.

(** ** [df_from_asu_data], [HklData.merge_asu_data], [mask_and_fft_maps] *)

(** A gemmi [ComplexAsuData]: [miller_array] and [value_array], row by
    row. *)
Abbreviation asu_data := (list (Z * Z * Z * C)).

(** [df_from_asu_data(asu_data, label)] for complex values (the
    value-and-sigma layout does not occur for map coefficients). *)
Definition df_from_asu_data (asu : asu_data) (label : string)
    : list (Z * Z * Z) * gmap string (list C) :=
  (asu.*1, {[ label := asu.*2 ]}).

(** The row pairs of [left.merge(right)], pandas' inner join on the shared
    columns [H, K, L]: the left rows in order, each with its matches. *)
Definition merge_pairs (left right : list (Z * Z * Z)) : list (nat * nat) :=
  ip ← imap pair left;
  (λ kq : nat * (Z * Z * Z), (ip.1, kq.1))
    <$> filter (λ kq : nat * (Z * Z * Z), kq.2 = ip.2) (imap pair right).

(** [take] along the row pairs: column [a] read at the positions [idx]
    (all of them in range; [dflt] stands where Python would raise). *)
Definition gather {A} (dflt : A) (idx : list nat) (a : list A) : list A :=
  (λ i, default dflt (a !! i)) <$> idx.

(** [HklData.merge_asu_data(asu_data, label)] with [common_only=True], on a
    table that has a frame; [None] is the exception "Duplicated label". *)
Definition merge_asu_data (h : HklData) (asu : asu_data) (label : string)
    : option HklData :=
  if bool_decide (is_Some (df h !! label)) then None
  else
    let pairs := merge_pairs (df_hkl h) asu.*1 in
    Some {| cell := cell h;
            df_hkl := gather (0, 0, 0)%Z pairs.*1 (df_hkl h);
            df := <[label := gather (czero N) pairs.*2 asu.*2]>
                    (gather (czero N) pairs.*1 <$> df h);
            df_d := df_d h; df_bin := df_bin h;
            binned_df := binned_df h;
            bin_and_indices := bin_and_indices h |}.

Definition hkldata_of_frame (unit_cell : R * R * R)
    (f : list (Z * Z * Z) * gmap string (list C)) : HklData :=
  {| cell := unit_cell; df_hkl := f.1; df := f.2; df_d := []; df_bin := [];
     binned_df := []; bin_and_indices := [] |}.

(** [mask_and_fft_maps] from line 58 on: [asus] are the Fourier
    coefficients of the (masked) maps, which gemmi computes, and [unit_cell]
    is [asus[0].unit_cell]. [None] when the
    list is empty ([asus[0]] fails) or longer than two (the assertion), or a
    column is missing. *)
Definition mask_and_fft_maps (unit_cell : R * R * R)
    (asus : list asu_data) : option HklData :=
  match asus with
  | [asu0; asu1] =>
      let hkldata := hkldata_of_frame unit_cell (df_from_asu_data asu0 "F_map1") in
      hkldata ← merge_asu_data hkldata asu1 "F_map2";
      F_map1 ← df hkldata !! "F_map1";
      F_map2 ← df hkldata !! "F_map2";
      Some {| cell := cell hkldata; df_hkl := df_hkl hkldata;
              df := <["FP" :=
                       zip_with (λ a b, cdivr N (cadd N a b) (r_lit N 2))
                         F_map1 F_map2]> (df hkldata);
              df_d := df_d hkldata; df_bin := df_bin hkldata;
              binned_df := binned_df hkldata;
              bin_and_indices := bin_and_indices hkldata |}
  | [asu0] => Some (hkldata_of_frame unit_cell (df_from_asu_data asu0 "FP"))
  | _ => None
  end.

(** ** [calc_noise_var] *)

(** Lines 86-106 for one row of [binned_df]. *)
Definition calc_noise_var_bin (F_map1 F_map2 : list C) (bins : list Z)
    (row : bin_row) : bin_row * list log_event :=
  let sel := bin_mask (row_bin row) bins in
  let scale := r_lit N 1 in
  let sel1 := select sel F_map1 in
  let sel2 := select sel F_map2 in
  if bool_decide (length sel1 < 3) then
    (row, [WarnBinSize (row_bin row) (length sel1)])
  else
    let fsc := np_real N (np_corrcoef_10 N sel1 sel2) in
    let varn := rdiv N (np_var N (zip_with (csub N) sel1 sel2)) (r_lit N 4) in
    (BinRow (row_bin row) (row_d_max row) (row_d_min row)
       varn
       (rdiv N (rmul N (r_lit N 2) fsc) (radd N (r_lit N 1) fsc))
       (row_D row) (row_S row),
     [LogNoise (row_bin row) (length sel1) (row_d_max row) (row_d_min row)
        fsc varn scale]).

(** Lines 80-81: the two columns start at zero. *)
Definition init_noise (row : bin_row) : bin_row :=
  BinRow (row_bin row) (row_d_max row) (row_d_min row) zero zero
    (row_D row) (row_S row).

Definition calc_noise_var (h : HklData) : option (HklData * list log_event) :=
  F_map1 ← df h !! "F_map1";
  F_map2 ← df h !! "F_map2";
  let res := calc_noise_var_bin F_map1 F_map2 (df_bin h)
               <$> (init_noise <$> binned_df h) in
  Some ({| cell := cell h; df_hkl := df_hkl h; df := df h; df_d := df_d h;
           df_bin := df_bin h; binned_df := res.*1;
           bin_and_indices := bin_and_indices h |},
        LogText "Bin Ncoeffs d_max   d_min   FSChalf var.noise   scale"
          :: concat res.*2).

(** ** [calc_D_and_S] *)

(** Lines 118-133 for one row of [binned_df]. *)
Definition calc_D_and_S_bin (has_halfmaps : bool) (FP FC : list C)
    (bins : list Z) (row : bin_row) : bin_row * fstats_row :=
  let sel := bin_mask (row_bin row) bins in
  let Fo := select sel FP in
  let Fc := select sel FC in
  let fsc := np_real N (np_corrcoef_10 N Fo Fc) in
  let D :=
    rdiv N
      (np_sum N (zip_with (λ fo fc, np_real N (cmul N fo (np_conj N fc))) Fo Fc))
      (np_sum N ((λ fc, rmul N (np_abs N fc) (np_abs N fc)) <$> Fc)) in
  let resid :=
    np_average N
      (zip_with
         (λ fo fc,
            let a := np_abs N (csub N fo (rmulc N D fc)) in rmul N a a)
         Fo Fc) in
  let S :=
    if has_halfmaps then
      let x := rsub N resid (row_var_noise row) in
      if rltb N zero x then x else zero
    else row_S row in
  let varn := if has_halfmaps then row_var_noise row else zero in
  let fsc_full := if has_halfmaps then row_FSCfull row else zero in
  (BinRow (row_bin row) (row_d_max row) (row_d_min row)
     (row_var_noise row) (row_FSCfull row) D S,
   FstatsRow (row_bin row) (length Fo) (row_d_max row) (row_d_min row)
     (np_average N (np_abs N <$> Fo)) (np_average N (np_abs N <$> Fc))
     fsc fsc_full D S varn).

(** Lines 111-112: the two columns start at zero. *)
Definition init_D_and_S (row : bin_row) : bin_row :=
  BinRow (row_bin row) (row_d_max row) (row_d_min row)
    (row_var_noise row) (row_FSCfull row) zero zero.

Definition calc_D_and_S (h : HklData) (has_halfmaps : bool)
    : option (HklData * list fstats_row) :=
  FP ← df h !! "FP";
  FC ← df h !! "FC";
  let res := calc_D_and_S_bin has_halfmaps FP FC (df_bin h)
               <$> (init_D_and_S <$> binned_df h) in
  Some ({| cell := cell h; df_hkl := df_hkl h; df := df h; df_d := df_d h;
           df_bin := df_bin h; binned_df := res.*1;
           bin_and_indices := bin_and_indices h |},
        res.*2).

(** ** [calc_maps] *)

(** [tmp[label][sel] = v] *)
Definition set_sel (label : string) (sel : list bool) (v : list C)
    (tmp : gmap string (list C)) : gmap string (list C) :=
  alter (scatter sel v) label tmp.

(** Lines 142-146 *)
Definition map_labels (B : option R) (has_halfmaps : bool) : list string :=
  if has_halfmaps then
    ["DELFWT"; "FWT"; "DELFWT_noscale"; "FWT_noscale"]
      ++ match B with Some _ => ["DELFWT_b0"; "FWT_b0"] | None => [] end
  else ["DELFWT"].

(** Lines 189-207, the branch [B is not None], one numpy operation per
    definition. *)
Definition blur_k (B : R) (quarter : bool) (s2 : list R) : list R :=
  (λ x, np_exp N (rdiv N (rmul N (rneg N B) x)
                      (r_lit N (if quarter then 4 else 2)))) <$> s2.

Definition blur_fsc_l (FSCfull : R) (k2 : list R) : list R :=
  (λ x, rdiv N (rmul N x FSCfull)
          (radd N (r_lit N 1) (rmul N (rsub N x (r_lit N 1)) FSCfull))) <$> k2.

Definition blur_delfwt (D S varn n_fo : R) (Fo Fc : list C) (k S_l : list R)
    : list C :=
  let a := zip_with (λ fo fc, cmulr N (csub N fo (rmulc N D fc)) S) Fo Fc in
  let a := zip_with (cmulr N) a k in
  let a := zip_with (cdivr N) a ((λ x, radd N x varn) <$> S_l) in
  (λ z, cdivr N z n_fo) <$> a.

Definition blur_fwt (D varn n_fo : R) (Fo Fc : list C) (k S_l : list R)
    : list C :=
  let a := zip_with (cmulr N) Fo S_l in
  let a := zip_with (cadd N) a (rmulc N (rmul N varn D) <$> Fc) in
  let a := zip_with (cdivr N) a ((λ x, radd N x varn) <$> S_l) in
  let a := (λ z, cdivr N z n_fo) <$> a in
  zip_with (cdivr N) a k.

(** Lines 158-207 for one row of [binned_df]. *)
Definition calc_maps_bin (B : option R) (has_halfmaps : bool)
    (FP FC : list C) (ds : list R) (bins : list Z)
    (st : gmap string (list C) * list log_event) (row : bin_row)
    : gmap string (list C) * list log_event :=
  let '(tmp, log) := st in
  let i_bin := row_bin row in
  let sel := bin_mask i_bin bins in
  let Fo := select sel FP in
  let Fc := select sel FC in
  let D := row_D row in
  if negb has_halfmaps then
    let delfwt := zip_with (λ fo fc, csub N fo (rmulc N D fc)) Fo Fc in
    (set_sel "DELFWT" sel delfwt tmp, log)
  else
    let S := row_S row in
    let FSCfull := row_FSCfull row in
    let varn := row_var_noise row in
    let delfwt :=
      zip_with
        (λ fo fc, cdivr N (cmulr N (csub N fo (rmulc N D fc)) S) (radd N S varn))
        Fo Fc in
    let fwt :=
      zip_with
        (λ fo fc,
           cdivr N (cadd N (cmulr N fo S) (rmulc N (rmul N varn D) fc))
             (radd N S varn))
        Fo Fc in
    let tmp := set_sel "DELFWT_noscale" sel delfwt tmp in
    let tmp := set_sel "FWT_noscale" sel fwt tmp in
    let sig_fo := np_std N Fo in
    let n_fo := rmul N sig_fo (np_sqrt N FSCfull) in
    if rltb N n_fo (r_lit N (1 # 10000000000)) || rneb N n_fo n_fo then
      (tmp, log ++ [WarnBinNorm i_bin sig_fo FSCfull])
    else
      let lab_suf := match B with Some _ => "_b0" | None => "" end in
      let tmp :=
        set_sel ("DELFWT" +:+ lab_suf) sel ((λ z, cdivr N z n_fo) <$> delfwt)
          tmp in
      let tmp :=
        set_sel ("FWT" +:+ lab_suf) sel ((λ z, cdivr N z n_fo) <$> fwt) tmp in
      match B with
      | None => (tmp, log)
      | Some B =>
          let s2 :=
            (λ d, rdiv N (r_lit N 1) (rmul N d d)) <$> select sel ds in
          let k := blur_k B true s2 in
          let k2 := blur_k B false s2 in
          let fsc_l := blur_fsc_l FSCfull k2 in
          let S_l := rmul N S <$> k2 in
          let delfwt := blur_delfwt D S varn n_fo Fo Fc k S_l in
          let fwt := blur_fwt D varn n_fo Fo Fc k S_l in
          (set_sel "FWT" sel fwt (set_sel "DELFWT" sel delfwt tmp),
           log ++ [LogBlur i_bin n_fo sig_fo (np_average N fsc_l)
                     (np_average N k) (np_average N (np_abs N <$> fwt))
                     (np_average N (np_abs N <$> delfwt))])
      end.

(** [calc_maps(hkldata, B, has_halfmaps)]: the table with the new columns,
    the labels, and the log (without the timing line). *)
Definition calc_maps (h : HklData) (B : option R) (has_halfmaps : bool)
    : option (HklData * list string * list log_event) :=
  let labs := map_labels B has_halfmaps in
  let tmp : gmap string (list C) :=
    list_to_map ((λ l, (l, replicate (length (df_hkl h)) (czero N))) <$> labs) in
  FP ← df h !! "FP";
  FC ← df h !! "FC";
  let '(tmp, log) :=
    foldl (calc_maps_bin B has_halfmaps FP FC (df_d h) (df_bin h))
      (tmp, [LogText "Calculating maps.."]) (binned_df h) in
  Some ({| cell := cell h; df_hkl := df_hkl h;
           df := foldl (λ m l, <[l := default [] (tmp !! l)]> m) (df h) labs;
           df_d := df_d h; df_bin := df_bin h; binned_df := binned_df h;
           bin_and_indices := bin_and_indices h |},
        labs, log).

(** ** [main] with half maps

    The steps of [main] between line 294 and line 318 when [--halfmaps] is
    given and no second model is asked for. *)

(** [HklData.calc_d] and [HklData.d_spacings]: [calculate_d] is gemmi's
    [UnitCell.calculate_d_array], one record at a time. An empty column
    stands for a missing one. *)
Definition calc_d (calculate_d : Z * Z * Z → R) (h : HklData) : HklData :=
  {| cell := cell h; df_hkl := df_hkl h; df := df h;
     df_d := calculate_d <$> df_hkl h; df_bin := df_bin h;
     binned_df := binned_df h; bin_and_indices := bin_and_indices h |}.

Definition d_spacings (calculate_d : Z * Z * Z → R) (h : HklData) : HklData :=
  match df_d h with [] => calc_d calculate_d h | _ => h end.

(** [maps] are the Fourier coefficients of the two half maps, [fc_asu]
    those of the model. Lines 294-296; the call of [d_spacings], line 307
    of [setup_relion_binning], is made here. *)
Definition main_binned (fuel : nat) (unit_cell : R * R * R)
    (calculate_d : Z * Z * Z → R) (maps : list asu_data) (fc_asu : asu_data)
    : option HklData :=
  hkldata ← mask_and_fft_maps unit_cell maps;
  hkldata ← merge_asu_data hkldata fc_asu "FC";
  setup_relion_binning fuel (d_spacings calculate_d hkldata).

(** Lines 298-318; [B] is the relative B value. *)
Definition main_halfmaps (fuel : nat) (unit_cell : R * R * R)
    (calculate_d : Z * Z * Z → R) (maps : list asu_data) (fc_asu : asu_data)
    (B : option R) : option (HklData * list string * list log_event) :=
  hkldata ← main_binned fuel unit_cell calculate_d maps fc_asu;
  r ← calc_noise_var hkldata;
  r ← calc_D_and_S r.1 true;
  calc_maps r.1 B true.

End pipeline.

(** ** [calc_maps] record by record

    The per-record reading of the vectorised assignments of [calc_maps]:
    the values that one row of [binned_df] writes for one of its records,
    label by label and in the order of the source. The formulas keep the
    order of operations of the source. *)

Section record_view.
Context (N : Numeric).

(** The number of selected positions before [j]: the place of record [j] in
    [a[sel]]. *)
Definition mask_rank (sel : list bool) (j : nat) : nat :=
  length (filter (λ b : bool, b = true) (take j sel)).

(** Entry [j] of the column [label]. *)
Definition slot (tmp : gmap string (list (C N))) (label : string) (j : nat)
    : option (C N) :=
  tmp !! label ≫= (.!! j).

(** The value of [label] after the writes [ws], starting from [c0]. *)
Definition apply_writes (ws : list (string * C N)) (label : string)
    (c0 : C N) : C N :=
  foldl (λ acc w, if decide (w.1 = label) then w.2 else acc) c0 ws.

(** Line 164: [Fo-D*Fc] *)
Definition delfwt_plain (D : R N) (fo fc : C N) : C N :=
  csub N fo (rmulc N D fc).

(** Line 172: [(Fo-D*Fc)*S/(S+varn)] *)
Definition delfwt_raw (D S varn : R N) (fo fc : C N) : C N :=
  cdivr N (cmulr N (csub N fo (rmulc N D fc)) S) (radd N S varn).

(** Line 173: [(Fo*S+varn*D*Fc)/(S+varn)] *)
Definition fwt_raw (D S varn : R N) (fo fc : C N) : C N :=
  cdivr N (cadd N (cmulr N fo S) (rmulc N (rmul N varn D) fc)) (radd N S varn).

(** Lines 178-180: the normalization factor of a shell and its test. *)
Definition norm_factor (FSCfull : R N) (Fo : list (C N)) : R N :=
  rmul N (np_std N Fo) (np_sqrt N FSCfull).

Definition norm_skipped (n_fo : R N) : bool :=
  rltb N n_fo (r_lit N (1 # 10000000000)) || rneb N n_fo n_fo.

(** Lines 190-192: [s2 = 1./d**2], [k = exp(-B*s2/4.)],
    [k2 = exp(-B*s2/2.)]. *)
Definition blur_s2 (d : R N) : R N := rdiv N (r_lit N 1) (rmul N d d).

Definition blur_factor (B : R N) (quarter : bool) (d : R N) : R N :=
  np_exp N (rdiv N (rmul N (rneg N B) (blur_s2 d))
              (r_lit N (if quarter then 4 else 2))).

(** Line 193: [k2*FSCfull/(1+(k2-1)*FSCfull)] *)
Definition fsc_l_of (FSCfull k2 : R N) : R N :=
  rdiv N (rmul N k2 FSCfull)
    (radd N (r_lit N 1) (rmul N (rsub N k2 (r_lit N 1)) FSCfull)).

(** Line 197: [(Fo-D*Fc)*S*k/(S_l+varn)/n_fo] *)
Definition delfwt_blur (B D S varn n_fo : R N) (fo fc : C N) (d : R N)
    : C N :=
  let k := blur_factor B true d in
  let S_l := rmul N S (blur_factor B false d) in
  cdivr N
    (cdivr N (cmulr N (cmulr N (csub N fo (rmulc N D fc)) S) k)
       (radd N S_l varn))
    n_fo.

(** Line 198: [(Fo*S_l+varn*D*Fc)/(S_l+varn)/n_fo/k] *)
Definition fwt_blur (B D S varn n_fo : R N) (fo fc : C N) (d : R N) : C N :=
  let k := blur_factor B true d in
  let S_l := rmul N S (blur_factor B false d) in
  cdivr N
    (cdivr N
       (cdivr N (cadd N (cmulr N fo S_l) (rmulc N (rmul N varn D) fc))
          (radd N S_l varn))
       n_fo)
    k.

(** The same two values with the quotient taken by the product, as the
    specification writes them. *)
Definition delfwt_blur_spec (B D S varn n_fo : R N) (fo fc : C N) (d : R N)
    : C N :=
  let k := blur_factor B true d in
  let S_l := rmul N S (blur_factor B false d) in
  cdivr N (cmulr N (cmulr N (csub N fo (rmulc N D fc)) S) k)
    (rmul N (radd N S_l varn) n_fo).

Definition fwt_blur_spec (B D S varn n_fo : R N) (fo fc : C N) (d : R N)
    : C N :=
  let k := blur_factor B true d in
  let S_l := rmul N S (blur_factor B false d) in
  cdivr N (cadd N (cmulr N fo S_l) (rmulc N (rmul N varn D) fc))
    (rmul N (rmul N (radd N S_l varn) n_fo) k).

(** What the row [row] writes for a record of its shell with amplitudes
    [fo], [fc] and resolution [d]; [Fo] are the observed amplitudes of the
    whole shell. *)
Definition record_writes (B : option (R N)) (has_halfmaps : bool)
    (row : bin_row N) (Fo : list (C N)) (fo fc : C N) (d : R N)
    : list (string * C N) :=
  let D := row_D N row in
  if negb has_halfmaps then [("DELFWT", delfwt_plain D fo fc)]
  else
    let S := row_S N row in
    let varn := row_var_noise N row in
    let n_fo := norm_factor (row_FSCfull N row) Fo in
    [("DELFWT_noscale", delfwt_raw D S varn fo fc);
     ("FWT_noscale", fwt_raw D S varn fo fc)]
    ++ (if norm_skipped n_fo then []
        else
          let lab_suf := match B with Some _ => "_b0" | None => "" end in
          [("DELFWT" +:+ lab_suf, cdivr N (delfwt_raw D S varn fo fc) n_fo);
           ("FWT" +:+ lab_suf, cdivr N (fwt_raw D S varn fo fc) n_fo)]
          ++ match B with
             | None => []
             | Some B =>
                 [("DELFWT", delfwt_blur B D S varn n_fo fo fc d);
                  ("FWT", fwt_blur B D S varn n_fo fo fc d)]
             end).

(** Record [j] of the table [h] lies in the shell [row] of [binned_df], with
    the amplitudes [fo], [fc] and the resolution [d]; the shell ids of
    [binned_df] are distinct, as [setup_relion_binning] leaves them. *)
Definition shell_record (h : HklData N) (row : bin_row N) (j : nat)
    (FP FC : list (C N)) (fo fc : C N) (d : R N) : Prop :=
  df N h !! "FP" = Some FP ∧ df N h !! "FC" = Some FC ∧
  NoDup (row_bin N <$> binned_df N h) ∧ row ∈ binned_df N h ∧
  df_bin N h !! j = Some (row_bin N row) ∧
  FP !! j = Some fo ∧ FC !! j = Some fc ∧ df_d N h !! j = Some d ∧
  j < length (df_hkl N h).

(** The observed amplitudes of the shell of [row]. *)
Definition shell_Fo (h : HklData N) (row : bin_row N) (FP : list (C N))
    : list (C N) :=
  select (bin_mask (row_bin N row) (df_bin N h)) FP.

(** Entry [j] of the column [label] of [self.df]. *)
Definition df_at (h : HklData N) (label : string) (j : nat) : option (C N) :=
  slot (df N h) label j.

(** Line 193 for a whole shell: the array [fsc_l] that the log averages. *)
Definition shell_fsc_l (B FSCfull : R N) (sel : list bool) (ds : list (R N))
    : list (R N) :=
  blur_fsc_l N FSCfull
    (blur_k N B false
       ((λ d, rdiv N (r_lit N 1) (rmul N d d)) <$> select sel ds)).

(** The table without the two half-data columns, and the columns that
    [calc_maps] adds. *)
Definition without_halves (h : HklData N) : HklData N :=
  {| cell := cell N h; df_hkl := df_hkl N h;
     df := delete "F_map1" (delete "F_map2" (df N h));
     df_d := df_d N h; df_bin := df_bin N h; binned_df := binned_df N h;
     bin_and_indices := bin_and_indices N h |}.

Definition new_columns (labs : list string) (h : HklData N)
    : list (option (list (C N))) :=
  (λ l, df N h !! l) <$> labs.

(** The shells named by the warnings of line 181. *)
Definition norm_warnings (log : list (log_event N)) : list Z :=
  omap (λ e, match e with WarnBinNorm _ b _ _ => Some b | _ => None end) log.

(** The log events of one row. *)
Definition calc_maps_events (B : option (R N)) (has_halfmaps : bool)
    (FP FC : list (C N)) (ds : list (R N)) (bins : list Z) (row : bin_row N)
    : list (log_event N) :=
  (calc_maps_bin N B has_halfmaps FP FC ds bins (∅, []) row).2.
End record_view.

(** ** Binary64 arithmetic

    The instance the program runs on: [R] is the binary64 format, [C] a pair
    of them. The operators are IEEE 754 operations. The complex operations
    are numpy's loops after the promotion of the real operand. The
    reductions are written as plain loops, and [exp] as a series; these
    agree with numpy up to rounding and serve to run the functions on small
    tables. *)

Module Float64.
Local Open Scope float_scope.

Definition of_Z (z : Z) : float :=
  match z with
  | Z0 => 0
  | Zpos _ => of_uint63 (Uint63.of_Z z)
  | Zneg p => - of_uint63 (Uint63.of_Z (Zpos p))
  end.

(** The nearest binary64 number to a literal whose numerator and
    denominator are exact. *)
Definition lit (q : Q) : float := of_Z (Qnum q) / of_Z (Zpos (Qden q)).

(** The C cast of a [double] to a 64-bit integer. *)
Definition to_int (x : float) : Z :=
  match Prim2SF x with
  | S754_zero _ => 0
  | S754_finite s m e =>
      let v := match e with
               | Z0 => Zpos m
               | Zpos p => Z.shiftl (Zpos m) (Zpos p)
               | Zneg p => Z.shiftr (Zpos m) (Zpos p)
               end in
      if s then (- v)%Z else v
  | _ => (- 2 ^ 63)%Z
  end.

Definition sum (l : list float) : float := foldl add 0 l.

Definition average (l : list float) : float := sum l / of_Z (Z.of_nat (length l)).

Definition fmax (l : list float) : float :=
  match l with
  | [] => nan
  | x :: l' => foldl (λ a b, if a <? b then b else a) x l'
  end.

Definition fmin (l : list float) : float :=
  match l with
  | [] => nan
  | x :: l' => foldl (λ a b, if b <? a then b else a) x l'
  end.

(** [exp]: sixteen terms of the series at [x / 1024], squared ten times. *)
Definition exp_series (y : float) : float :=
  foldr (λ n acc, 1 + y * acc / of_Z (Z.of_nat n)) 1 (seq 1 16).

Definition exp (x : float) : float :=
  Nat.iter 10 (λ y, y * y) (exp_series (x / 1024)).

Definition complex : Type := float * float.

Definition c_add (z w : complex) : complex := (z.1 + w.1, z.2 + w.2).
Definition c_sub (z w : complex) : complex := (z.1 - w.1, z.2 - w.2).
Definition c_mul (z w : complex) : complex :=
  (z.1 * w.1 - z.2 * w.2, z.1 * w.2 + z.2 * w.1).

(** numpy's division loop (Smith's method, with its case for a zero
    divisor). *)
Definition c_div (z w : complex) : complex :=
  let '(a, b) := z in
  let '(c, d) := w in
  if abs d <=? abs c then
    if (abs c =? 0) && (abs d =? 0) then (a / abs c, b / abs c)
    else
      let rat := d / c in
      let scl := 1 / (c + d * rat) in
      ((a + b * rat) * scl, (b - a * rat) * scl)
  else
    let rat := c / d in
    let scl := 1 / (d + c * rat) in
    ((a * rat + b) * scl, (b * rat - a) * scl).

Definition of_real (x : float) : complex := (x, 0).
Definition conj (z : complex) : complex := (z.1, - z.2).
Definition cabs (z : complex) : float := sqrt (z.1 * z.1 + z.2 * z.2).

Definition cmean (l : list complex) : complex :=
  c_div (foldl c_add (0, 0) l) (of_real (of_Z (Z.of_nat (length l)))).

(** [numpy.var]: the mean of [|x - mean|^2]. *)
Definition var (l : list complex) : float :=
  let m := cmean l in
  average ((λ z, (c_mul (c_sub z m) (conj (c_sub z m))).1) <$> l).

Definition clip (x : float) : float :=
  if x <? -1 then -1 else if 1 <? x then 1 else x.

(** [numpy.corrcoef(a, b)[1,0]]: the covariance of [b] with [a] over the
    two standard deviations, clipped to the unit square. *)
Definition corrcoef_10 (a b : list complex) : complex :=
  let ma := cmean a in
  let mb := cmean b in
  let n1 := of_real (of_Z (Z.of_nat (length a) - 1)) in
  let cov (x y : list complex) (mx my : complex) :=
    c_div (foldl c_add (0, 0)
            (zip_with (λ u v, c_mul (c_sub u mx) (conj (c_sub v my))) x y)) n1 in
  let c := cov b a mb ma in
  let sa := sqrt (cov a a ma ma).1 in
  let sb := sqrt (cov b b mb mb).1 in
  let c := c_div (c_div c (of_real sb)) (of_real sa) in
  (clip c.1, clip c.2).

Definition numeric : Numeric := {|
  R := float;
  C := complex;
  r_lit := lit;
  radd := add;
  rsub := sub;
  rmul := mul;
  rdiv := div;
  rneg := opp;
  rltb := ltb;
  rneb := λ x y, negb (x =? y);
  np_sqrt := sqrt;
  np_exp := exp;
  astype_int := to_int;
  np_sum := sum;
  np_average := average;
  np_max := fmax;
  np_min := fmin;
  czero := (0, 0);
  cadd := c_add;
  csub := c_sub;
  cmul := c_mul;
  rmulc := λ x z, c_mul (of_real x) z;
  cmulr := λ z x, c_mul z (of_real x);
  cdivr := λ z x, c_div z (of_real x);
  np_conj := conj;
  np_real := fst;
  np_abs := cabs;
  np_var := var;
  np_std := λ l, sqrt (var l);
  np_corrcoef_10 := corrcoef_10
|}.
End Float64.

(** ** Exact arithmetic

    The rational numbers, with pairs of them for the complex numbers: the
    arithmetic in which the formulas of the program are usually read. The
    square root and the exponential are parameters. A quotient by zero is
    zero. *)

Module Exact.
Section exact.
Variables (sqrt exp : Qc → Qc).
Local Open Scope Qc_scope.

Definition of_Z (z : Z) : Qc := Q2Qc (inject_Z z).
Definition to_int (x : Qc) : Z := (Qnum x ÷ Zpos (Qden x))%Z.
Definition sum (l : list Qc) : Qc := foldl Qcplus 0 l.
Definition average (l : list Qc) : Qc := sum l / of_Z (Z.of_nat (length l)).
Definition ltb (x y : Qc) : bool := bool_decide (x < y).
Definition qmax (l : list Qc) : Qc :=
  match l with
  | [] => 0
  | x :: l' => foldl (λ a b, if ltb a b then b else a) x l'
  end.
Definition qmin (l : list Qc) : Qc :=
  match l with
  | [] => 0
  | x :: l' => foldl (λ a b, if ltb b a then b else a) x l'
  end.

Definition complex : Type := Qc * Qc.
Definition c_add (z w : complex) : complex := (z.1 + w.1, z.2 + w.2).
Definition c_sub (z w : complex) : complex := (z.1 - w.1, z.2 - w.2).
Definition c_mul (z w : complex) : complex :=
  (z.1 * w.1 - z.2 * w.2, z.1 * w.2 + z.2 * w.1).
Definition c_scale (x : Qc) (z : complex) : complex := (x * z.1, x * z.2).
Definition c_div (z : complex) (x : Qc) : complex := (z.1 / x, z.2 / x).
Definition conj (z : complex) : complex := (z.1, - z.2).
Definition norm2 (z : complex) : Qc := z.1 * z.1 + z.2 * z.2.
Definition cmean (l : list complex) : complex :=
  c_div (foldl c_add (0, 0) l) (of_Z (Z.of_nat (length l))).
Definition var (l : list complex) : Qc :=
  let m := cmean l in average ((λ z, norm2 (c_sub z m)) <$> l).
Definition clip (x : Qc) : Qc :=
  if ltb x (- 1) then - 1 else if ltb 1 x then 1 else x.
Definition corrcoef_10 (a b : list complex) : complex :=
  let ma := cmean a in
  let mb := cmean b in
  let n1 := of_Z (Z.of_nat (length a) - 1) in
  let cov (x y : list complex) (mx my : complex) :=
    c_div (foldl c_add (0, 0)
            (zip_with (λ u v, c_mul (c_sub u mx) (conj (c_sub v my))) x y)) n1 in
  let c := cov b a mb ma in
  let sa := sqrt (cov a a ma ma).1 in
  let sb := sqrt (cov b b mb mb).1 in
  let c := c_div (c_div c sb) sa in
  (clip c.1, clip c.2).

Definition numeric : Numeric := {|
  R := Qc;
  C := complex;
  r_lit := Q2Qc;
  radd := Qcplus;
  rsub := Qcminus;
  rmul := Qcmult;
  rdiv := Qcdiv;
  rneg := Qcopp;
  rltb := ltb;
  rneb := λ x y, negb (bool_decide (x = y));
  np_sqrt := sqrt;
  np_exp := exp;
  astype_int := to_int;
  np_sum := sum;
  np_average := average;
  np_max := qmax;
  np_min := qmin;
  czero := (0, 0);
  cadd := c_add;
  csub := c_sub;
  cmul := c_mul;
  rmulc := c_scale;
  cmulr := λ z x, c_scale x z;
  cdivr := c_div;
  np_conj := conj;
  np_real := fst;
  np_abs := λ z, sqrt (norm2 z);
  np_var := var;
  np_std := λ l, sqrt (var l);
  np_corrcoef_10 := corrcoef_10
|}.
End exact.
End Exact.

(** ** A small data set

    A cubic cell of edge 10 with fourteen records: ten of raw bin 2, two of
    raw bin 3 and two of raw bin 4. In the last shell the observed
    coefficients are twice the model's. *)

Module Example.
Local Open Scope float_scope.

Definition unit_cell : float * float * float := (10, 10, 10).

(** The spacing of a reflection of a cubic cell. *)
Definition calculate_d (hkl : Z * Z * Z) : float :=
  10 / sqrt (Float64.of_Z (hkl.1.1 * hkl.1.1 + hkl.1.2 * hkl.1.2 + hkl.2 * hkl.2)).

(** The Fourier coefficients of the first half map. *)
Definition half1 : list (Z * Z * Z * (float * float)) :=
  [((1, 1, 1)%Z, (4.5, 1.25));
   ((1, 1, -1)%Z, ((-3.5), 2.5));
   ((1, -1, 1)%Z, (2.25, (-3.5)));
   ((2, 0, 0)%Z, (4.75, (-0.25)));
   ((0, 2, 0)%Z, ((-0.5), 3.5));
   ((0, 0, 2)%Z, (2.5, 3.25));
   ((2, 1, 0)%Z, ((-1.75), (-1.5)));
   ((1, 2, 0)%Z, (0.75, (-3.5)));
   ((0, 1, 2)%Z, ((-3.5), 1.5));
   ((2, 1, 1)%Z, (1.5, 1.5));
   ((2, 2, 0)%Z, (1.5, 0.5));
   ((2, 2, 1)%Z, ((-1), 2));
   ((3, 2, 0)%Z, (1, (-1)));
   ((4, 0, 0)%Z, (0.5, 2))].

(** The Fourier coefficients of the second half map. *)
Definition half2 : list (Z * Z * Z * (float * float)) :=
  [((1, 1, 1)%Z, (3.5, 0.75));
   ((1, 1, -1)%Z, ((-2.5), 1.5));
   ((1, -1, 1)%Z, (1.75, (-2.5)));
   ((2, 0, 0)%Z, (5.25, 0.25));
   ((0, 2, 0)%Z, ((-1.5), 4.5));
   ((0, 0, 2)%Z, (3.5, 2.75));
   ((2, 1, 0)%Z, ((-2.25), (-2.5)));
   ((1, 2, 0)%Z, (1.25, (-4.5)));
   ((0, 1, 2)%Z, ((-4.5), 0.5));
   ((2, 1, 1)%Z, (2.5, 2.5));
   ((2, 2, 0)%Z, (0.5, 1.5));
   ((2, 2, 1)%Z, ((-2), 1));
   ((3, 2, 0)%Z, (1, (-1)));
   ((4, 0, 0)%Z, (0.5, 2))].

(** The Fourier coefficients of the model. *)
Definition fc_asu : list (Z * Z * Z * (float * float)) :=
  [((1, 1, 1)%Z, (3.25, 0.5));
   ((1, 1, -1)%Z, ((-2.75), 1.75));
   ((1, -1, 1)%Z, (1.75, (-1.75)));
   ((2, 0, 0)%Z, (3.5, 0));
   ((0, 2, 0)%Z, ((-0.25), 2.5));
   ((0, 0, 2)%Z, (2.25, 2.5));
   ((2, 1, 0)%Z, ((-1.75), (-1.75)));
   ((1, 2, 0)%Z, (1.25, (-3)));
   ((0, 1, 2)%Z, ((-3), 0.25));
   ((2, 1, 1)%Z, (1, 2));
   ((2, 2, 0)%Z, (1, 0));
   ((2, 2, 1)%Z, ((-1), 1));
   ((3, 2, 0)%Z, (0.5, (-0.5)));
   ((4, 0, 0)%Z, (0.25, 1))].

Definition empty : HklData Float64.numeric :=
  mkHklData Float64.numeric unit_cell [] ∅ [] [] [] [].

(** The table after [setup_relion_binning], after [calc_noise_var] and
    after [calc_D_and_S]. *)
Definition binned : HklData Float64.numeric :=
  default empty
    (main_binned Float64.numeric 20 unit_cell calculate_d [half1; half2]
       fc_asu).

Definition noise : HklData Float64.numeric :=
  default empty (fst <$> calc_noise_var Float64.numeric binned).

Definition statistics : HklData Float64.numeric :=
  default empty (fst <$> calc_D_and_S Float64.numeric noise true).

(** The run of [main], its table and its log. *)
Definition run (B : option float)
    : option (HklData Float64.numeric * list string
              * list (log_event Float64.numeric)) :=
  main_halfmaps Float64.numeric 20 unit_cell calculate_d [half1; half2]
    fc_asu B.

Definition coefficients (B : option float) : HklData Float64.numeric :=
  default empty ((λ r, r.1.1) <$> run B).

Definition log (B : option float) : list (log_event Float64.numeric) :=
  default [] (snd <$> run B).

Definition column (lab : string) : list (float * float) :=
  default [] (df Float64.numeric statistics !! lab).

Definition row (i : nat) : bin_row Float64.numeric :=
  default (BinRow Float64.numeric 0 0 0 0 0 0 0)
    (binned_df Float64.numeric statistics !! i).

Definition record (lab : string) (j : nat) : float * float :=
  default (0, 0) (column lab !! j).

Definition spacing (j : nat) : float :=
  default 0 (df_d Float64.numeric statistics !! j).

(** A table for [calc_maps] alone: one shell whose amplitudes are so large
    that their variance overflows. *)
Definition large : HklData Float64.numeric :=
  mkHklData Float64.numeric unit_cell [(1, 0, 0); (0, 1, 0); (0, 0, 1)]%Z
    (list_to_map
       [("FP", [(0x1p+600, 0); (-0x1p+600, 0); (0, 0)]);
        ("FC", [(0, 0); (0, 0); (0, 0)])])
    [10; 10; 10] [1; 1; 1]%Z
    [BinRow Float64.numeric 1 10 10 0 1 1 0x1p+600] [].
End Example.

(** What the entries of a table, applied in order, do to one bin value. *)
Definition apply1 (modify_table : list (Z * Z)) (b : Z) : Z :=
  foldl (λ b e, if decide (b = e.1) then e.2 else b) b modify_table.

(* ================================================================== *)
(** * More of the two modules *)

(** ** The shell that a merged shell ends in

    The position whose shell receives the records of the shell at position
    [p], when the forward pass stopped at [f] and the backward pass at
    [b]. *)
Definition pass_end (f b p : nat) : nat :=
  if decide (p < f) then f else if decide (b < p) then b else p.

(** The two ends of an entry of the table lie in the same run of merged
    shells. *)
Definition same_end (ids : list Z) (f b : nat) (k v : Z) : Prop :=
  ∃ p q, ids !! p = Some k ∧ ids !! q = Some v ∧
         pass_end f b q = pass_end f b p.

(** ** [HklData.binned_data_as_array] and [HklData.binned] *)

Section binned_data.
Context (N : Numeric).

(** The labels of the columns of [binned_df]. The columns that
    [calc_noise_var] and [calc_D_and_S] add are there from the start, at
    zero. *)
Inductive binned_column : Type :=
  | Col_d_max | Col_d_min | Col_var_noise | Col_FSCfull | Col_D | Col_S.

Definition binned_value (lab : binned_column) (row : bin_row N) : R N :=
  match lab with
  | Col_d_max => row_d_max N row
  | Col_d_min => row_d_min N row
  | Col_var_noise => row_var_noise N row
  | Col_FSCfull => row_FSCfull N row
  | Col_D => row_D N row
  | Col_S => row_S N row
  end.

(** [self.binned_df[lab][i_bin]]: the row whose index label is [i_bin];
    [None] where pandas raises [KeyError]. *)
Definition binned_loc (i_bin : Z) (rows : list (bin_row N))
    : option (bin_row N) :=
  snd <$> list_find (λ row, row_bin N row = i_bin) rows.

(** [vals[idxes] = v] for an index set; [None] where numpy raises
    [IndexError]. *)
Definition assign_indices {A} (idxes : gset nat) (v : A) (vals : list A)
    : option (list A) :=
  if bool_decide (set_Forall (λ j, j < length vals) idxes) then
    Some (imap (λ j x, if bool_decide (j ∈ idxes) then v else x) vals)
  else None.

(** [HklData.binned()] is [bin_and_indices]. *)
Definition binned_data_as_array (lab : binned_column) (h : HklData N)
    : option (list (R N)) :=
  foldl
    (λ acc (g : shell),
       vals ← acc;
       row ← binned_loc g.1 (binned_df N h);
       assign_indices g.2 (binned_value lab row) vals)
    (Some (replicate (length (df_hkl N h)) (zero N)))
    (bin_and_indices N h).

(** The bin column, the shell rows and the index sets of a table agree:
    the rows and the index sets carry the same distinct, non-zero shell
    ids, a record lies in the index set of a shell exactly when the bin
    column gives it that shell, and the bin column holds nothing but 0 and
    these ids. *)
Definition binned_consistent (h : HklData N) : Prop :=
  length (df_bin N h) = length (df_hkl N h) ∧
  row_bin N <$> binned_df N h = (bin_and_indices N h).*1 ∧
  NoDup (bin_and_indices N h).*1 ∧
  (∀ g, g ∈ bin_and_indices N h →
     g.1 ≠ 0%Z ∧ ∀ j, j ∈ g.2 ↔ df_bin N h !! j = Some g.1) ∧
  (∀ j b, df_bin N h !! j = Some b →
     b = 0%Z ∨ b ∈ (bin_and_indices N h).*1).
End binned_data.

(** ** [main] with one map

    The steps of [main] between line 294 and line 318 when [--map] is
    given: [calc_noise_var] is not called, and [B] is [None] because [-B]
    is refused without half maps (line 243). *)

Section main_paths.
Context (N : Numeric).

Definition main_map (fuel : nat) (unit_cell : R N * R N * R N)
    (calculate_d : Z * Z * Z → R N) (map_asu fc_asu : list (Z * Z * Z * C N))
    : option (HklData N * list string * list (log_event N)) :=
  hkldata ← main_binned N fuel unit_cell calculate_d [map_asu] fc_asu;
  r ← calc_D_and_S N hkldata false;
  calc_maps N r.1 None false.

(** The columns under [labs] are there with one entry for every record,
    and so is the column [d]. *)
Definition columns_ready (labs : list string) (h : HklData N) : Prop :=
  (∀ lab, lab ∈ labs →
     ∃ col, df N h !! lab = Some col ∧ length col = length (df_hkl N h)) ∧
  length (df_d N h) = length (df_hkl N h).
End main_paths.

(** ** [dump_to_mtz]

    The gemmi [Mtz] object as far as [dump_to_mtz] fills it: the cell, the
    data set names, the columns with their types, and the data, which is
    the array handed to [set_data] (gemmi stores it in single precision).
    The space group is left out, as in [HklData]. An entry of the array
    made by [numpy.empty] is [None] until it is assigned. *)

(** [s.replace(old, new)] for a non-empty [old]: the occurrences are found
    from left to right and do not overlap. [skip] counts the characters of
    the occurrence just found that are still to be passed over. *)
Fixpoint replace_from (old new : string) (skip : nat) (s : string) : string :=
  match s with
  | EmptyString => EmptyString
  | String c s' =>
      match skip with
      | S k => replace_from old new k s'
      | O =>
          if String.prefix old s then
            new +:+ replace_from old new (String.length old - 1) s'
          else String c (replace_from old new 0 s')
      end
  end.

Definition str_replace (old new s : string) : string :=
  replace_from old new 0 s.

(** Line 232: [("PH"+lab).replace("FWT", "WT")] *)
Definition phase_label (lab : string) : string :=
  str_replace "FWT" "WT" ("PH" +:+ lab).

Section dump.
Context (N : Numeric).
(** [numpy.angle(z, deg=True)] *)
Variable np_angle_deg : C N → R N.

Record Mtz : Type := mkMtz {
  mtz_cell : R N * R N * R N;
  mtz_datasets : list string;
  mtz_columns : list (string * string);
  mtz_data : list (list (option (R N)))
}.

(** [numpy.empty((n, w))] *)
Definition np_empty (n w : nat) : list (list (option (R N))) :=
  replicate n (replicate w None).

(** [data[:,k] = vals]; [None] where numpy raises (an index out of bounds,
    or shapes that differ; the columns of a frame all have its length, so
    that no broadcast occurs). *)
Definition assign_column (k : nat) (vals : list (R N))
    (data : list (list (option (R N))))
    : option (list (list (option (R N)))) :=
  if bool_decide (length vals = length data
                  ∧ Forall (λ row, k < length row) data)
  then Some (zip_with (λ row v, <[k := Some v]> row) data vals)
  else None.

(** An integer as a [numpy.float64]. *)
Definition of_int (z : Z) : R N := r_lit N (inject_Z z).

(** Line 219: [data[:,:3] = hkldata.df[["H","K","L"]]] *)
Definition assign_hkl (hkl : list (Z * Z * Z))
    (data : list (list (option (R N))))
    : option (list (list (option (R N)))) :=
  data ← assign_column 0 ((λ x : Z * Z * Z, of_int x.1.1) <$> hkl) data;
  data ← assign_column 1 ((λ x : Z * Z * Z, of_int x.1.2) <$> hkl) data;
  assign_column 2 ((λ x : Z * Z * Z, of_int x.2) <$> hkl) data.

(** Lines 220-222 for one label; [None] also where the label is no column
    ([KeyError]). *)
Definition assign_map (h : HklData N)
    (acc : option (list (list (option (R N))))) (ilab : nat * string)
    : option (list (list (option (R N)))) :=
  data ← acc;
  col ← df N h !! ilab.2;
  data ← assign_column (3 + ilab.1 * 2) (np_abs N <$> col) data;
  assign_column (3 + ilab.1 * 2 + 1) (np_angle_deg <$> col) data.

(** Lines 228-232: the columns [H], [K], [L] of type [H], then an amplitude
    and a phase column for every label. *)
Definition dump_columns (map_labs : list string) : list (string * string) :=
  ((λ label, (label, "H")) <$> ["H"; "K"; "L"])
  ++ (map_labs ≫= λ lab, [(lab, "F"); (phase_label lab, "P")]).

(** [mtz.set_data(data)]: gemmi refuses an array whose width is not the
    number of columns. *)
Definition set_data (cols : list (string * string))
    (data : list (list (option (R N))))
    : option (list (list (option (R N)))) :=
  if bool_decide (Forall (λ row, length row = length cols) data)
  then Some data else None.

(** [dump_to_mtz(hkldata, map_labs, mtz_out)]: the object that is written
    to the file. *)
Definition dump_to_mtz (h : HklData N) (map_labs : list string)
    : option Mtz :=
  let map_labs := map_labs ++ ["FP"; "FC"] in
  let data := np_empty (length (df_hkl N h)) (length map_labs * 2 + 3) in
  data ← assign_hkl (df_hkl N h) data;
  data ← foldl (assign_map h) (Some data) (imap pair map_labs);
  let cols := dump_columns map_labs in
  data ← set_data cols data;
  Some (mkMtz (cell N h) ["HKL_base"] cols data).
End dump.

Section dump_layout.
Context (N : Numeric).
Variable np_angle_deg : C N → R N.

(** The rows of an array of width [w] in which the three index columns and
    the two columns of each label of [labs] are assigned, and nothing
    else. *)
Definition dump_layout (h : HklData N) (labs : list string) (w : nat)
    (data : list (list (option (R N)))) : Prop :=
  length data = length (df_hkl N h) ∧
  ∀ j hkl, df_hkl N h !! j = Some hkl →
    ∃ row, data !! j = Some row ∧ length row = w ∧
      row !! 0 = Some (Some (of_int N hkl.1.1)) ∧
      row !! 1 = Some (Some (of_int N hkl.1.2)) ∧
      row !! 2 = Some (Some (of_int N hkl.2)) ∧
      (∀ i lab, labs !! i = Some lab →
         ∃ v, df_at N h lab j = Some v ∧
              row !! (3 + i * 2) = Some (Some (np_abs N v)) ∧
              row !! (3 + i * 2 + 1) = Some (Some (np_angle_deg v))) ∧
      (∀ c, 3 + length labs * 2 ≤ c → c < w → row !! c = Some None).
End dump_layout.

(** ** [main] up to the MTZ file

    Lines 318-319: the coefficients of [calc_maps] handed to [dump_to_mtz],
    for the run with two half maps and for the run with one map. *)

Section main_dump.
Context (N : Numeric).
Variable np_angle_deg : C N → R N.

Definition main_halfmaps_mtz (fuel : nat) (unit_cell : R N * R N * R N)
    (calculate_d : Z * Z * Z → R N) (maps : list (list (Z * Z * Z * C N)))
    (fc_asu : list (Z * Z * Z * C N)) (B : option (R N))
    : option (HklData N * Mtz N) :=
  r ← main_halfmaps N fuel unit_cell calculate_d maps fc_asu B;
  mtz ← dump_to_mtz N np_angle_deg r.1.1 r.1.2;
  Some (r.1.1, mtz).

Definition main_map_mtz (fuel : nat) (unit_cell : R N * R N * R N)
    (calculate_d : Z * Z * Z → R N) (map_asu fc_asu : list (Z * Z * Z * C N))
    : option (HklData N * Mtz N) :=
  r ← main_map N fuel unit_cell calculate_d map_asu fc_asu;
  mtz ← dump_to_mtz N np_angle_deg r.1.1 r.1.2;
  Some (r.1.1, mtz).
End main_dump.

(** ** MTZ objects: [blur_mtz] and [mtz_selected]

    A [gemmi.Mtz] as [hkl.py] reads it: the attributes that [mtz_selected]
    copies, the data sets, the columns, and the data, one row for every
    reflection and one entry of a row for every column. [V] is the type of
    an entry, a [numpy.float32]; the type of a column is a string of one
    character. *)

(** [sub in s] for two strings: [sub] occurs in [s]. *)
Fixpoint str_in (sub s : string) : bool :=
  String.prefix sub s
  || match s with
     | EmptyString => false
     | String _ s' => str_in sub s'
     end.

(** Lines 99-102 of [blur_mtz] for one of the two lists:
    [for l in labs: sl = "SIG"+l; if sl in mtz.column_labels():
    labs.append(sl)]. The list grows while the loop runs over it; [i] is
    the position of the iterator, which stops when it is past the end of
    the list as it is then. *)
Fixpoint add_sigmas (fuel : nat) (labels : list string) (i : nat)
    (labs : list string) : option (list string) :=
  match fuel with
  | O => None
  | S fuel' =>
      match labs !! i with
      | None => Some labs
      | Some l =>
          let sl := "SIG" +:+ l in
          add_sigmas fuel' labels (S i)
            (if bool_decide (sl ∈ labels) then labs ++ [sl] else labs)
      end
  end.

(** The labels that one pass over [L] appends, and the list that the loop
    builds level by level: [L], what [L] appends, what that appends, and so
    on for [n] levels. *)
Definition sigma_next (labels L : list string) : list string :=
  filter (λ sl, sl ∈ labels) ((λ l, "SIG" +:+ l) <$> L).

Fixpoint sigma_levels (labels : list string) (n : nat) (L : list string)
    : list string :=
  match n with
  | O => []
  | S n' => L ++ sigma_levels labels n' (sigma_next labels L)
  end.

(** The list after the loop: the levels until they run out, which they do
    before level [m + 1] for labels of at most [m] characters. *)
Definition sigma_closure (labels L : list string) : list string :=
  sigma_levels labels (S (max_list (String.length <$> labels))) L.

(** How many times [l] occurs in [labs]. *)
Definition occurrences (l : string) (labs : list string) : nat :=
  length (filter (λ x, x = l) labs).

Record MtzColumn : Type := mkMtzColumn {
  col_label : string;
  col_type : string;
  col_dataset_id : Z
}.

Section gemmi_mtz.
Context (N : Numeric) (V SG Cell : Type).
(** [x *= k] for an entry [x] and a [numpy.float64] [k] *)
Variable mul_inplace : V → R N → V.
(** [1/d^2] of the reflection of a row, as [Mtz.make_1_d2_array] gives it *)
Variable make_1_d2 : Cell → list V → R N.

Record MtzDataset : Type := mkMtzDataset {
  ds_cell : Cell;
  ds_id : Z;
  ds_crystal_name : string;
  ds_dataset_name : string;
  ds_project_name : string;
  ds_wavelength : R N
}.

Record GemmiMtz : Type := mkGemmiMtz {
  m_spacegroup : SG;
  m_cell : Cell;
  m_history : list string;
  m_title : string;
  m_datasets : list MtzDataset;
  m_columns : list MtzColumn;
  m_data : list (list V)
}.

(** [mtz.column_labels()] *)
Definition column_labels (mtz : GemmiMtz) : list string :=
  col_label <$> m_columns mtz.

(** [[c.label for c in mtz.columns if c.type in types]] *)
Definition labels_of_types (types : string) (mtz : GemmiMtz) : list string :=
  col_label <$> filter (λ c, str_in (col_type c) types = true) (m_columns mtz).

(** [mtz.column_with_label(l)]: the first column of that label, with its
    position. *)
Definition column_with_label (mtz : GemmiMtz) (l : string)
    : option (nat * MtzColumn) :=
  list_find (λ c, col_label c = l) (m_columns mtz).

(** [c = mtz.column_with_label(l); c.array[:] *= k]. [None] where Python
    raises: no such column, or an array [k] of another length. *)
Definition scale_column (k : list (R N)) (acc : option GemmiMtz) (l : string)
    : option GemmiMtz :=
  mtz ← acc;
  ic ← column_with_label mtz l;
  if bool_decide (length k = length (m_data mtz)) then
    Some (mkGemmiMtz (m_spacegroup mtz) (m_cell mtz) (m_history mtz)
            (m_title mtz) (m_datasets mtz) (m_columns mtz)
            (zip_with (λ row x, alter (λ v, mul_inplace v x) ic.1 row)
               (m_data mtz) k))
  else None.

(** [blur_mtz(mtz, B)]: the changed object and the two lists of labels
    that are logged. *)
Definition blur_mtz (fuel : nat) (mtz : GemmiMtz) (B : R N)
    : option (GemmiMtz * list string * list string) :=
  let s2 := make_1_d2 (m_cell mtz) <$> m_data mtz in
  let k2 := blur_k N B false s2 in
  let k := blur_k N B true s2 in
  i_labs ← add_sigmas fuel (column_labels mtz) 0 (labels_of_types "JK" mtz);
  f_labs ← add_sigmas fuel (column_labels mtz) 0 (labels_of_types "FDG" mtz);
  mtz ← foldl (scale_column k2) (Some mtz) i_labs;
  mtz ← foldl (scale_column k) (Some mtz) f_labs;
  Some (mtz, i_labs, f_labs).

(** [exp(-B*s2/4)] and [exp(-B*s2/2)] for one reflection. *)
Definition mtz_blur_factor (B : R N) (quarter : bool) (s2 : R N) : R N :=
  np_exp N (rdiv N (rmul N (rneg N B) s2)
              (r_lit N (if quarter then 4 else 2))).

(** The entry [v] of column [c] in the row [row] after [blur_mtz], for the
    lists [i_labs] and [f_labs] of the log: if [c] is the first column of
    its label, [v] multiplied by [exp(-B*s2/2)] once for every occurrence
    of the label in [i_labs], then by [exp(-B*s2/4)] once for every
    occurrence in [f_labs]; [v] itself otherwise. *)
Definition blurred_entry (mtz : GemmiMtz) (B : R N)
    (i_labs f_labs : list string) (row : list V) (c : nat) (col : MtzColumn)
    (v : V) : V :=
  let s2 := make_1_d2 (m_cell mtz) row in
  if bool_decide (fst <$> column_with_label mtz (col_label col) = Some c)
  then
    Nat.iter (occurrences (col_label col) f_labs)
      (λ v, mul_inplace v (mtz_blur_factor B true s2))
      (Nat.iter (occurrences (col_label col) i_labs)
         (λ v, mul_inplace v (mtz_blur_factor B false s2)) v)
  else v.
End gemmi_mtz.

Arguments ds_cell {N Cell} _.
Arguments ds_id {N Cell} _.
Arguments ds_crystal_name {N Cell} _.
Arguments ds_dataset_name {N Cell} _.
Arguments ds_project_name {N Cell} _.
Arguments ds_wavelength {N Cell} _.
Arguments mkGemmiMtz {N V SG Cell} _ _ _ _ _ _ _.
Arguments m_spacegroup {N V SG Cell} _.
Arguments m_cell {N V SG Cell} _.
Arguments m_history {N V SG Cell} _.
Arguments m_title {N V SG Cell} _.
Arguments m_datasets {N V SG Cell} _.
Arguments m_columns {N V SG Cell} _.
Arguments m_data {N V SG Cell} _.
Arguments column_labels {N V SG Cell} _.
Arguments labels_of_types {N V SG Cell} _ _.
Arguments column_with_label {N V SG Cell} _ _.
Arguments scale_column {N V SG Cell} _ _ _ _.
Arguments blur_mtz {N V SG Cell} _ _ _ _ _.
Arguments mtz_blur_factor {N} _ _ _.
Arguments blurred_entry {N V SG Cell} _ _ _ _ _ _ _ _ _ _.

(** A small MTZ object in binary64 arithmetic: the indices, an amplitude
    with its sigma, and a phase. The entries are held as binary64 numbers,
    and [1/d^2] is that of a cubic cell of edge 10. *)
Module ExampleMtz.
Local Open Scope float_scope.

Definition mul_inplace (v k : float) : float := v * k.

Definition make_1_d2 (cell : float) (row : list float) : float :=
  match row with
  | h :: k :: l :: _ => (h * h + k * k + l * l) / (cell * cell)
  | _ => 0
  end.

Definition mtz : GemmiMtz Float64.numeric float unit float :=
  mkGemmiMtz tt 10 [] "example"
    [mkMtzDataset Float64.numeric float 10 0 "HKL_base" "HKL_base"
       "HKL_base" 0]
    [mkMtzColumn "H" "H" 0; mkMtzColumn "K" "H" 0; mkMtzColumn "L" "H" 0;
     mkMtzColumn "FP" "F" 0; mkMtzColumn "SIGFP" "Q" 0;
     mkMtzColumn "PHI" "P" 0]
    [[1; 0; 0; 8; 0.5; 90]; [1; 1; 0; 4; 0.25; 45]].
End ExampleMtz.

(** ** [mtz_selected] *)

Section mtz_selected.
Context (N : Numeric) (V SG Cell : Type).

(** Lines 136-139: a data set added to the new object, with the six
    attributes of the old one. *)
Definition copy_dataset (ds : MtzDataset N Cell) : MtzDataset N Cell :=
  mkMtzDataset N Cell (ds_cell ds) (ds_id ds) (ds_crystal_name ds)
    (ds_dataset_name ds) (ds_project_name ds) (ds_wavelength ds).

(** [{x.label: x for x in mtz.columns}] and
    [{x.label: i for i, x in enumerate(mtz.columns)}]: a later column
    replaces an earlier one of the same label. *)
Definition col_dict (mtz : GemmiMtz N V SG Cell) : gmap string MtzColumn :=
  foldl (λ m x, <[col_label x := x]> m) ∅ (m_columns mtz).

Definition col_idxes (mtz : GemmiMtz N V SG Cell) : gmap string nat :=
  foldl (λ m (ix : nat * MtzColumn), <[col_label ix.2 := ix.1]> m) ∅
    (imap pair (m_columns mtz)).

(** [mtz_selected(mtz, columns)]. [notfound] is the list of line 127 up to
    order and repetition. Every column of an MTZ object belongs to one of
    its data sets, which are copied first, so that [add_column] finds the
    data set of each column it adds. [None] where Python raises. *)
Definition mtz_selected (mtz : GemmiMtz N V SG Cell) (columns : list string)
    : option (GemmiMtz N V SG Cell) :=
  let columns := ["H"; "K"; "L"] ++ columns in
  let notfound := filter (λ col, col_idxes mtz !! col = None) columns in
  if bool_decide (notfound ≠ []) then None
  else
    cols ← mapM (λ col, x ← col_dict mtz !! col;
                        Some (mkMtzColumn col (col_type x)
                                (col_dataset_id x))) columns;
    idxes ← mapM (λ col, col_idxes mtz !! col) columns;
    data ← mapM (λ row : list V, mapM (λ i, row !! i) idxes) (m_data mtz);
    Some (mkGemmiMtz (m_spacegroup mtz) (m_cell mtz) (m_history mtz)
            (m_title mtz) (copy_dataset <$> m_datasets mtz) cols data).

(** Every row of the data has one entry for every column. *)
Definition mtz_rows_full (mtz : GemmiMtz N V SG Cell) : Prop :=
  Forall (λ row, length row = length (m_columns mtz)) (m_data mtz).

(** Column [i] is the last column of the label [l]. *)
Definition last_with_label (mtz : GemmiMtz N V SG Cell) (l : string)
    (i : nat) (col : MtzColumn) : Prop :=
  m_columns mtz !! i = Some col ∧ col_label col = l ∧
  ∀ j y, i < j → m_columns mtz !! j = Some y → col_label y ≠ l.
End mtz_selected.

Arguments copy_dataset {N Cell} _.
Arguments col_dict {N V SG Cell} _.
Arguments col_idxes {N V SG Cell} _.
Arguments mtz_selected {N V SG Cell} _ _.
Arguments mtz_rows_full {N V SG Cell} _.
Arguments last_with_label {N V SG Cell} _ _ _ _.

(** ** [setup_relion_binning] with its exceptions

    The same lines once more, with every operation that Python can refuse
    written out: an index outside a list, a key that a dictionary does not
    have, a division by the size of an empty group, and the extremum of an
    empty array. A result is [inr], an exception is [inl]. *)

Inductive py_error : Type :=
  | IndexError | KeyError | ZeroDivisionError | ValueError.

Definition try_bind {A B} (m : py_error + A) (f : A → py_error + B)
    : py_error + B :=
  match m with
  | inl e => inl e
  | inr a => f a
  end.

Notation "'let!' x := m 'in' f" := (try_bind m (λ x, f))
  (at level 10, x name, m at level 100, f at level 200,
   format "'[v' 'let!'  x  :=  m  'in' '/' f ']'").

(** An optional value, or the exception [e]. *)
Definition or_raise {A} (e : py_error) (o : option A) : py_error + A :=
  match o with
  | Some a => inr a
  | None => inl e
  end.

(** [len(a)/len(b)], the true division of two counts, as a rational
    number: for counts below [2^53] the binary64 quotient is below [0.5]
    exactly when the rational one is. *)
Definition true_div (a b : nat) : py_error + Q :=
  if decide (b = 0) then inl ZeroDivisionError
  else inr (Z.of_nat a # Pos.of_nat b).

(** The keys and the targets of a table are among the shell ids [ids]. *)
Definition entries_in (ids : list Z) (modify_table : list (Z * Z)) : Prop :=
  ∀ e, e ∈ modify_table → e.1 ∈ ids ∧ e.2 ∈ ids.

Section strict.
Context (N : Numeric).

(** Line 315: [numpy.max] and [numpy.min] refuse an empty array. *)
Definition bin_range_strict (gd : list (R N)) : py_error + (R N * R N) :=
  match gd with
  | [] => inl ValueError
  | _ => inr (np_max N gd, np_min N gd)
  end.

Fixpoint initial_bin_ranges_strict (bins : list Z) (ds : list (R N))
    (bin_counts : list shell) : py_error + list (Z * (R N * R N)) :=
  match bin_counts with
  | [] => inr []
  | g :: rest =>
      let! r := bin_range_strict (select (bin_mask g.1 bins) ds) in
      let! rs := initial_bin_ranges_strict bins ds rest in
      inr ((g.1, r) :: rs)
  end.

(** Lines 317-323. *)
Fixpoint forward_loop_strict (n i : nat) (bin_counts : list shell)
    (modify_table : list (Z * Z))
    : py_error + (list shell * list (Z * Z)) :=
  match n with
  | O => inr (bin_counts, modify_table)
  | S n' =>
      let! cur := or_raise IndexError (bin_counts !! i) in
      if bool_decide (size cur.2 < 10)
         && bool_decide (i < length bin_counts - 1)
      then
        let! nxt := or_raise IndexError (bin_counts !! S i) in
        forward_loop_strict n' (S i)
          (<[S i := (nxt.1, nxt.2 ∪ cur.2)]> bin_counts)
          (dict_set cur.1 nxt.1 modify_table)
      else inr (bin_counts, modify_table)
  end.

(** Lines 325-331: [i > 0 and len(..)/len(..) < 0.5], the quotient taken
    only when [i > 0]. *)
Fixpoint backward_loop_strict (n : nat) (bin_counts : list shell)
    (modify_table : list (Z * Z))
    : py_error + (list shell * list (Z * Z)) :=
  match n with
  | O => inr (bin_counts, modify_table)
  | S i =>
      if bool_decide (0 < i) then
        let! cur := or_raise IndexError (bin_counts !! i) in
        let! prv := or_raise IndexError (bin_counts !! (i - 1)) in
        let! ratio := true_div (size cur.2) (size prv.2) in
        if Qlt_le_dec ratio (1 # 2) then
          backward_loop_strict i
            (<[i - 1 := (prv.1, prv.2 ∪ cur.2)]> bin_counts)
            (dict_set cur.1 prv.1 modify_table)
        else inr (bin_counts, modify_table)
      else inr (bin_counts, modify_table)
  end.

(** Lines 335-338: [modify_table[i_bin]] is read for every key of the
    iteration. *)
Fixpoint sweep_strict (keys : list Z) (modify_table : list (Z * Z))
    (flag : bool) : py_error + (list (Z * Z) * bool) :=
  match keys with
  | [] => inr (modify_table, flag)
  | i_bin :: keys' =>
      let! target := or_raise KeyError (dict_get i_bin modify_table) in
      match dict_get target modify_table with
      | Some target' =>
          sweep_strict keys' (dict_set i_bin target' modify_table) false
      | None => sweep_strict keys' modify_table flag
      end
  end.

(** Lines 333-339; the outer [None] is the fuel running out. *)
Fixpoint resolve_strict (fuel : nat) (modify_table : list (Z * Z))
    : option (py_error + list (Z * Z)) :=
  match fuel with
  | O => None
  | S fuel' =>
      match sweep_strict (dict_keys modify_table) modify_table true with
      | inl e => Some (inl e)
      | inr (modify_table', flag) =>
          if flag then Some (inr modify_table')
          else resolve_strict fuel' modify_table'
      end
  end.

(** Lines 344-345 for one entry of the table. *)
Definition merge_range_strict
    (bin_ranges : py_error + list (Z * (R N * R N))) (e : Z * Z)
    : py_error + list (Z * (R N * R N)) :=
  let! bin_ranges := bin_ranges in
  let! r := or_raise KeyError (dict_get e.1 bin_ranges) in
  let! r' := or_raise KeyError (dict_get e.2 bin_ranges) in
  inr (dict_set e.2 (py_max N r.1 r'.1, py_min N r.2 r'.2) bin_ranges).

(** Lines 351-361 for the shells that are left. *)
Fixpoint new_bin_rows_strict (bin_ranges : list (Z * (R N * R N)))
    (shells : list shell) : py_error + list (bin_row N) :=
  match shells with
  | [] => inr []
  | g :: rest =>
      let! r := or_raise KeyError (dict_get g.1 bin_ranges) in
      let! rows := new_bin_rows_strict bin_ranges rest in
      inr (BinRow N g.1 r.1 r.2 (zero N) (zero N) (zero N) (zero N) :: rows)
  end.

(** Lines 311-331 and 341-362, around the loop of lines 333-339. *)
Definition binning_passes_strict (bins : list Z) (ds : list (R N))
    : py_error + (list (Z * (R N * R N)) * (list shell * list (Z * Z))) :=
  let bin_counts := initial_bin_counts bins in
  let! bin_ranges := initial_bin_ranges_strict bins ds bin_counts in
  let! r1 := forward_loop_strict (length bin_counts) 0 bin_counts [] in
  let! r2 := backward_loop_strict (length r1.1) r1.1 r1.2 in
  inr (bin_ranges, r2).

Definition setup_relion_binning_strict (fuel : nat) (h : HklData N)
    : option (py_error + HklData N) :=
  let max_edge := max_cell_edge N (cell N h) in
  let bins := relion_bin N max_edge <$> df_d N h in
  match binning_passes_strict bins (df_d N h) with
  | inl e => Some (inl e)
  | inr (bin_ranges, (bin_counts, modify_table)) =>
      match resolve_strict fuel modify_table with
      | None => None
      | Some (inl e) => Some (inl e)
      | Some (inr modify_table) =>
          Some (let! bin_ranges :=
                  foldl merge_range_strict (inr bin_ranges) modify_table in
                let shells := surviving modify_table bin_counts in
                let! rows := new_bin_rows_strict bin_ranges shells in
                inr {| cell := cell N h; df_hkl := df_hkl N h;
                       df := df N h; df_d := df_d N h;
                       df_bin := apply_table modify_table bins;
                       binned_df := rows;
                       bin_and_indices := shells |})
      end
  end.
End strict.

(** ** [main]

    The command line as [argparse] hands it over, the data that gemmi and
    [utils.model] read and compute, and [main] from its first line to the
    call of [dump_to_mtz]. *)

Section main.
Context (N : Numeric).
Variable np_angle_deg : C N → R N.

(** [args]: [--halfmaps] takes two file names, [--map] and [--mask] one.
    The other options do not change the course of [main] up to the MTZ
    file. *)
Record Args : Type := mkArgs {
  a_halfmaps : option (string * string);
  a_map : option string;
  a_B : option (R N);
  a_mask : option string;
  a_mask_radius : option (R N);
  a_normalized_map : bool;
  a_omit_proton : bool;
  a_omit_h_electron : bool
}.

(** What [main] gets from outside: the Fourier coefficients of the map of
    a file (after the mask, if there is one), those of the model, the
    average B value of the model, the cell of the first map and its
    [calculate_d_array]. *)
Record Inputs : Type := mkInputs {
  in_map : string → list (Z * Z * Z * C N);
  in_fc_asu : list (Z * Z * Z * C N);
  in_Bave : R N;
  in_unit_cell : R N * R N * R N;
  in_calculate_d : Z * Z * Z → R N
}.

(** How [main] ends: it returns after writing an error, it raises, or it
    writes the MTZ file. *)
Inductive main_result : Type :=
  | MainReturn (message : string)
  | MainRaise (exception : string)
  | MainDone (warnings : list string) (hkldata : HklData N) (mtz : Mtz N).

(** The truth value of an optional string, [None] and [""] being false,
    and of an optional number, [None] and zero being false. *)
Definition truthy (s : option string) : bool :=
  match s with
  | Some s => bool_decide (s ≠ "")
  | None => false
  end.

Definition truthy_number (x : option (R N)) : bool :=
  match x with
  | Some x => rneb N x (zero N)
  | None => false
  end.

(** The warnings of lines 252 and 289. *)
Definition main_warnings (args : Args) : list string :=
  (if bool_decide (is_Some (a_halfmaps args)) then []
   else ["Warning: using --halfmaps is strongly recommended!"])
  ++ (if negb (truthy (a_mask args))
         && negb (truthy_number (a_mask_radius args))
         && a_normalized_map args
      then ["WARNING: Mask is not available. --normalized-map will have no effect."]
      else []).

(** [main(args)]. Line 247 reads the local variable [st], which is
    assigned at line 254 only: when the left operand of [and] holds, the
    right one raises [UnboundLocalError]. Lines 312-316, which are behind
    the same two flags, are given no result ([None]). The outer [None] is
    also a column that is missing, or the fuel of the loop of
    [setup_relion_binning] running out. *)
Definition main (fuel : nat) (args : Args) (inp : Inputs)
    : option main_result :=
  if negb (bool_decide (is_Some (a_halfmaps args))) && negb (truthy (a_map args))
  then Some (MainReturn "Error: give --halfmaps or --map")
  else if negb (bool_decide (is_Some (a_halfmaps args)))
          && bool_decide (is_Some (a_B args))
  then Some (MainReturn "Error: -B only works for half maps")
  else if a_omit_proton args || a_omit_h_electron args
  then Some (MainRaise "UnboundLocalError")
  else
    let warnings := main_warnings args in
    let has_halfmaps := bool_decide (is_Some (a_halfmaps args)) in
    maps ← match a_halfmaps args with
           | Some (f1, f2) => Some [in_map inp f1; in_map inp f2]
           | None => (λ f, [in_map inp f]) <$> a_map args
           end;
    hkldata ← main_binned N fuel (in_unit_cell inp) (in_calculate_d inp)
                maps (in_fc_asu inp);
    hkldata ← (if has_halfmaps then fst <$> calc_noise_var N hkldata
               else Some hkldata);
    let B := (λ b, rsub N b (in_Bave inp)) <$> a_B args in
    r ← calc_D_and_S N hkldata has_halfmaps;
    hkldata ← (if a_omit_proton args || a_omit_h_electron args then None
               else Some r.1);
    r ← calc_maps N hkldata B has_halfmaps;
    mtz ← dump_to_mtz N np_angle_deg r.1.1 r.1.2;
    Some (MainDone warnings r.1.1 mtz).
End main.

(** ** [HklData.write_mtz] *)

Section write_mtz.
Context (N : Numeric).
(** [numpy.angle(z, deg=True)], and the cast of a [numpy.float64] to the
    [numpy.float32] of the array. *)
Variable np_angle_deg : C N → R N.
Variable astype_float32 : R N → R N.

(** A column of [self.df]. *)
Inductive column : Type :=
  | IntColumn (values : list Z)
  | RealColumn (values : list (R N))
  | ComplexColumn (values : list (C N)).

(** [df[lab]]: the indices, the columns [d] and [bin] (an empty one stands
    for a missing one, as in [HklData]) and the complex columns. [None]
    is a [KeyError]. *)
Definition frame_column (h : HklData N) (lab : string) : option column :=
  if decide (lab = "H") then
    Some (IntColumn ((λ x : Z * Z * Z, x.1.1) <$> df_hkl N h))
  else if decide (lab = "K") then
    Some (IntColumn ((λ x : Z * Z * Z, x.1.2) <$> df_hkl N h))
  else if decide (lab = "L") then
    Some (IntColumn ((λ x : Z * Z * Z, x.2) <$> df_hkl N h))
  else if decide (lab = "d") then
    match df_d N h with [] => None | ds => Some (RealColumn ds) end
  else if decide (lab = "bin") then
    match df_bin N h with [] => None | bins => Some (IntColumn bins) end
  else ComplexColumn <$> df N h !! lab.

(** [self.df.query("H!=0 | K!=0 | L!=0")] *)
Definition not_000 (hkl : Z * Z * Z) : bool :=
  negb (bool_decide (hkl.1.1 = 0%Z)) || negb (bool_decide (hkl.1.2 = 0%Z))
  || negb (bool_decide (hkl.2 = 0%Z)).

Definition query_not_000 (h : HklData N) : HklData N :=
  let sel := not_000 <$> df_hkl N h in
  {| cell := cell N h; df_hkl := select sel (df_hkl N h);
     df := select sel <$> df N h; df_d := select sel (df_d N h);
     df_bin := select sel (df_bin N h); binned_df := binned_df N h;
     bin_and_indices := bin_and_indices N h |}.

(** Lines 568-571: the frame that is written. *)
Definition written_frame (exclude_000 : bool) (h : HklData N) : HklData N :=
  if exclude_000 then query_not_000 h else h.

Definition column_length (col : column) : nat :=
  match col with
  | IntColumn values => length values
  | RealColumn values => length values
  | ComplexColumn values => length values
  end.

(** Line 573: [2 if numpy.iscomplexobj(df[lab]) else 1] *)
Definition column_width (col : column) : nat :=
  match col with
  | ComplexColumn _ => 2
  | _ => 1
  end.

(** Line 573: [ndata] *)
Definition total_width (cols : list column) : nat :=
  sum_list (column_width <$> cols).

(** Lines 578-585 for one label: [idx] is the next free column. *)
Definition write_column (h : HklData N)
    (acc : option (list (list (option (R N))) * nat)) (lab : string)
    : option (list (list (option (R N))) * nat) :=
  st ← acc;
  col ← frame_column h lab;
  match col with
  | ComplexColumn values =>
      data ← assign_column N st.2
                ((λ z, astype_float32 (np_abs N z)) <$> values) st.1;
      data ← assign_column N (st.2 + 1)
                ((λ z, astype_float32 (np_angle_deg z)) <$> values) data;
      Some (data, st.2 + 2)
  | RealColumn values =>
      data ← assign_column N st.2 (astype_float32 <$> values) st.1;
      Some (data, st.2 + 1)
  | IntColumn values =>
      data ← assign_column N st.2
                ((λ z, astype_float32 (of_int N z)) <$> values) st.1;
      Some (data, st.2 + 1)
  end.

(** Lines 593-608 for one label: the columns added to the MTZ object. *)
Definition mtz_columns_of (types : gmap string string)
    (phase_label_decorator : option (string → string)) (lab : string)
    (col : column) : list (string * string) :=
  match col with
  | ComplexColumn _ =>
      [(lab, "F");
       (match phase_label_decorator with
        | None => phase_label lab
        | Some decorator => decorator lab
        end, "P")]
  | RealColumn _ => [(lab, default "R" (types !! lab))]
  | IntColumn _ => [(lab, default "I" (types !! lab))]
  end.

(** [write_mtz(mtz_out, labs, types, phase_label_decorator, exclude_000)]:
    the object that is written to the file. [types=None] is the empty
    dictionary. *)
Definition write_mtz (h : HklData N) (labs : list string)
    (types : gmap string string)
    (phase_label_decorator : option (string → string)) (exclude_000 : bool)
    : option (Mtz N) :=
  let frame := written_frame exclude_000 h in
  cols ← (mapM (frame_column frame) labs : option (list column));
  let ndata := total_width cols in
  let data := np_empty N (length (df_hkl N frame)) (ndata + 3) in
  data ← assign_hkl N (df_hkl N frame) data;
  let data : list (list (option (R N))) :=
    (λ row : list (option (R N)),
       (λ v : option (R N), astype_float32 <$> v) <$> row) <$> data in
  st ← foldl (write_column frame) (Some (data, 3)) labs;
  let columns : list (string * string) :=
    ((λ label : string, (label, "H")) <$> ["H"; "K"; "L"])
    ++ concat (zip_with (mtz_columns_of types phase_label_decorator)
                 labs cols) in
  data ← set_data N columns st.1;
  Some (mkMtz N (cell N h) ["HKL_base"] columns data).

(** What a row of the array holds for record [j]: the three indices, and
    for every column its value, or the modulus and the angle of its
    value. *)
Definition hkl_entries (hkl : Z * Z * Z) : list (R N) :=
  [astype_float32 (of_int N hkl.1.1); astype_float32 (of_int N hkl.1.2);
   astype_float32 (of_int N hkl.2)].

Definition column_entries (col : column) (j : nat) : option (list (R N)) :=
  match col with
  | ComplexColumn values =>
      (λ z, [astype_float32 (np_abs N z); astype_float32 (np_angle_deg z)])
        <$> values !! j
  | RealColumn values => (λ x, [astype_float32 x]) <$> values !! j
  | IntColumn values => (λ z, [astype_float32 (of_int N z)]) <$> values !! j
  end.

Fixpoint record_entries (cols : list column) (j : nat)
    : option (list (R N)) :=
  match cols with
  | [] => Some []
  | col :: rest =>
      es ← column_entries col j;
      rs ← record_entries rest j;
      Some (es ++ rs)
  end.

(** The rows of an array of width [w] after the indices and the columns
    [cols] are written: the entries of the record, then what is not yet
    assigned. *)
Definition rows_written (frame : HklData N) (cols : list column) (w : nat)
    (data : list (list (option (R N)))) : Prop :=
  length data = length (df_hkl N frame) ∧
  ∀ j hkl, df_hkl N frame !! j = Some hkl →
    ∃ es, record_entries cols j = Some es ∧
          data !! j
          = Some ((Some <$> hkl_entries hkl ++ es)
                  ++ replicate (w - (3 + total_width cols)) None).
End write_mtz.

(* ================================================================== *)
(** * Proofs *)

(** ** Dictionaries *)

Section dict_facts.
Context {V : Type}.
Implicit Types (d : list (Z * V)) (k : Z) (v : V).

Lemma dict_get_set_eq d k v : dict_get k (dict_set k v d) = Some v.
Proof.
  induction d as [|[k' v'] d IH]; simpl.
  - by rewrite decide_True.
  - destruct (decide (k = k')) as [->|Hne]; simpl.
    + by rewrite decide_True.
    + by rewrite decide_False.
Qed.

Lemma dict_get_set_ne d k k' v :
  k ≠ k' → dict_get k' (dict_set k v d) = dict_get k' d.
Proof.
  intros Hne. induction d as [|[k0 v0] d IH]; simpl.
  - by rewrite decide_False.
  - destruct (decide (k = k0)) as [->|Hne0]; simpl.
    + by rewrite !decide_False.
    + by rewrite IH.
Qed.

Lemma dict_get_None d k : dict_get k d = None ↔ k ∉ dict_keys d.
Proof.
  unfold dict_keys. induction d as [|[k' v'] d IH]; simpl.
  - split; [intros _; apply not_elem_of_nil | done].
  - rewrite not_elem_of_cons. destruct (decide (k = k')) as [->|Hne].
    + split; [done | intros [? _]; done].
    + rewrite IH. tauto.
Qed.

Lemma dict_get_Some_elem d k v : dict_get k d = Some v → (k, v) ∈ d.
Proof.
  induction d as [|[k' v'] d IH]; simpl; [done|].
  destruct (decide (k = k')) as [->|Hne].
  - intros [= ->]. apply list_elem_of_here.
  - intros H. apply list_elem_of_further, IH, H.
Qed.

Lemma dict_get_Some_key d k v : dict_get k d = Some v → k ∈ dict_keys d.
Proof.
  intros H. destruct (decide (k ∈ dict_keys d)) as [|Hn]; [done|].
  apply dict_get_None in Hn. congruence.
Qed.

Lemma dict_elem_get d k v :
  NoDup (dict_keys d) → (k, v) ∈ d → dict_get k d = Some v.
Proof.
  unfold dict_keys. induction d as [|[k' v'] d IH]; simpl.
  - intros _ H. by apply elem_of_nil in H.
  - intros Hnd H. apply NoDup_cons in Hnd as [Hk' Hnd].
    apply elem_of_cons in H as [[= -> ->]|H].
    + by rewrite decide_True.
    + rewrite decide_False; [by apply IH|].
      intros ->. apply Hk'. apply list_elem_of_fmap. by exists (k', v).
Qed.

Lemma dict_keys_set_in d k v :
  k ∈ dict_keys d → dict_keys (dict_set k v d) = dict_keys d.
Proof.
  unfold dict_keys. induction d as [|[k' v'] d IH]; simpl.
  - intros H. by apply elem_of_nil in H.
  - intros H. destruct (decide (k = k')) as [->|Hne]; simpl; [done|].
    f_equal. apply IH. apply elem_of_cons in H as [?|?]; done.
Qed.

Lemma dict_set_notin d k v : k ∉ dict_keys d → dict_set k v d = d ++ [(k, v)].
Proof.
  unfold dict_keys. induction d as [|[k' v'] d IH]; simpl; [done|].
  rewrite not_elem_of_cons. intros [Hne Hn].
  rewrite decide_False; [|done]. by rewrite IH.
Qed.

Lemma dict_keys_set_NoDup d k v :
  NoDup (dict_keys d) → NoDup (dict_keys (dict_set k v d)).
Proof.
  intros Hnd. destruct (decide (k ∈ dict_keys d)) as [Hin|Hn].
  - by rewrite dict_keys_set_in.
  - rewrite dict_set_notin; [|done]. unfold dict_keys in *.
    rewrite fmap_app. apply NoDup_app. split; [done|]. split.
    + intros x Hx Hx'. simpl in Hx'. apply list_elem_of_singleton in Hx'.
      by subst.
    + simpl. apply NoDup_singleton.
Qed.

Lemma dict_set_length d k v : length d ≤ length (dict_set k v d) ≤ S (length d).
Proof.
  induction d as [|[k' v'] d IH]; simpl; [lia|].
  destruct (decide (k = k')); simpl; lia.
Qed.
End dict_facts.

(** ** The transitive resolution of the merge table *)

Section resolve_facts.
Implicit Types (d : list (Z * Z)) (ρ : Z → nat).

Lemma potential_set ρ d k v v' :
  dict_get k d = Some v →
  potential ρ (dict_set k v' d) + ρ v = potential ρ d + ρ v'.
Proof.
  unfold potential. induction d as [|[k0 v0] d IH]; csimpl; [done|].
  destruct (decide (k = k0)) as [->|Hne]; csimpl.
  - intros [= ->]. lia.
  - intros H. specialize (IH H). lia.
Qed.

Lemma ranked_set ρ d k v :
  ranked ρ d → ρ v < ρ k → ranked ρ (dict_set k v d).
Proof.
  intros Hr Hlt k0 v0 H0. destruct (decide (k = k0)) as [->|Hne].
  - rewrite dict_get_set_eq in H0. by injection H0 as <-.
  - rewrite dict_get_set_ne in H0; [|done]. by apply Hr.
Qed.

Lemma ranked_acyclic ρ d : ranked ρ d → acyclic d.
Proof.
  intros Hr k Hk.
  assert (∀ a b, tc (points_to d) a b → ρ b < ρ a) as Hlt.
  { induction 1 as [a b H|a b c H _ IH]; unfold points_to in H.
    - by apply Hr.
    - apply Hr in H. lia. }
  apply Hlt in Hk. lia.
Qed.

Lemma sweep_false keys d : (sweep keys d false).2 = false.
Proof.
  revert d. induction keys as [|k keys IH]; intros d; simpl; [done|].
  destruct (dict_get k d) as [t|]; [|apply IH].
  destruct (dict_get t d); apply IH.
Qed.

Lemma sweep_spec ρ keys d flag :
  ranked ρ d →
  let r := sweep keys d flag in
  ranked ρ r.1 ∧ dict_keys r.1 = dict_keys d ∧
  potential ρ r.1 ≤ potential ρ d ∧
  (r.2 = false → flag = true → potential ρ r.1 < potential ρ d) ∧
  (r.2 = true →
     flag = true ∧ r.1 = d ∧
     ∀ k v, k ∈ keys → dict_get k d = Some v → dict_get v d = None).
Proof.
  revert d flag. induction keys as [|k keys IH]; intros d flag Hr; simpl.
  { split_and!; [done | done | done | congruence |].
    intros ->. split_and!; [done | done |].
    intros k v Hk. by apply elem_of_nil in Hk. }
  assert (∀ d0 fl, ranked ρ d0 →
            (∀ v, dict_get k d0 = Some v → dict_get v d0 = None) →
            let r := sweep keys d0 fl in
            ranked ρ r.1 ∧ dict_keys r.1 = dict_keys d0 ∧
            potential ρ r.1 ≤ potential ρ d0 ∧
            (r.2 = false → fl = true → potential ρ r.1 < potential ρ d0) ∧
            (r.2 = true → fl = true ∧ r.1 = d0 ∧
               ∀ k0 v, k0 ∈ k :: keys → dict_get k0 d0 = Some v →
                       dict_get v d0 = None)) as Hskip.
  { intros d0 fl Hr0 Hk0.
    destruct (IH d0 fl Hr0) as (IH1 & IH2 & IH3 & IH4 & IH5).
    split_and!; [done | done | done | done |].
    intros Ht. destruct (IH5 Ht) as (? & ? & IH6).
    split_and!; [done | done |].
    intros k0 v0 Hin Hv0. apply elem_of_cons in Hin as [->|Hin].
    - by apply Hk0.
    - by eapply IH6. }
  destruct (dict_get k d) as [t|] eqn:Hk;
    [|apply Hskip; [done | intros v; by rewrite Hk]].
  destruct (dict_get t d) as [t'|] eqn:Ht.
  - assert (ρ t' < ρ t) by by apply Hr.
    assert (ρ t < ρ k) by by apply Hr.
    pose proof (potential_set ρ d k t t' Hk) as Hpot.
    destruct (IH (dict_set k t' d) false) as (IH1 & IH2 & IH3 & _ & _).
    { apply ranked_set; [done | lia]. }
    pose proof (sweep_false keys (dict_set k t' d)) as Hf.
    split_and!.
    + done.
    + rewrite IH2. apply dict_keys_set_in. by eapply dict_get_Some_key.
    + lia.
    + intros; lia.
    + rewrite Hf. done.
  - apply Hskip; [done|]. intros v. rewrite Hk. by intros [= <-].
Qed.

Lemma sweep_keys_NoDup keys d flag :
  NoDup (dict_keys d) → NoDup (dict_keys (sweep keys d flag).1).
Proof.
  revert d flag. induction keys as [|k keys IH]; intros d flag Hnd; simpl;
    [done|].
  destruct (dict_get k d) as [t|]; [|by apply IH].
  destruct (dict_get t d); [|by apply IH].
  apply IH. by apply dict_keys_set_NoDup.
Qed.

(** With more fuel than the potential the loop ends, and it ends on a table
    with the same keys in which no target is a key. *)
Lemma resolve_terminates ρ fuel d :
  ranked ρ d → NoDup (dict_keys d) → potential ρ d < fuel →
  ∃ d', resolve fuel d = Some d' ∧ dict_keys d' = dict_keys d ∧
        ranked ρ d' ∧ fully_resolved d'.
Proof.
  revert d. induction fuel as [|fuel IH]; intros d Hr Hnd Hlt; [lia|].
  simpl. destruct (sweep (dict_keys d) d true) as [d1 flag] eqn:Hs.
  pose proof (sweep_spec ρ (dict_keys d) d true Hr) as Hspec.
  pose proof (sweep_keys_NoDup (dict_keys d) d true Hnd) as Hnd1.
  rewrite Hs in Hspec, Hnd1. simpl in Hspec, Hnd1.
  destruct Hspec as (Hr1 & Hk1 & Hle & Hdec & Hfix).
  destruct flag.
  - destruct (Hfix eq_refl) as (_ & -> & Hres).
    exists d. repeat split; try done.
    intros k v Hkv Hv. apply (dict_elem_get _ _ _ Hnd) in Hkv.
    assert (dict_get v d = None) as Hn.
    { eapply Hres; [|done]. by eapply dict_get_Some_key. }
    by apply dict_get_None in Hn.
  - specialize (Hdec eq_refl eq_refl).
    destruct (IH d1 Hr1 Hnd1) as (d' & Hd' & Hk' & Hr' & Hres'); [lia|].
    exists d'. repeat split; try done. congruence.
Qed.

Lemma resolve_fuel_mono fuel fuel' d d' :
  resolve fuel d = Some d' → fuel ≤ fuel' → resolve fuel' d = Some d'.
Proof.
  revert fuel' d. induction fuel as [|fuel IH]; intros fuel' d; [done|].
  intros H Hle. destruct fuel' as [|fuel']; [lia|]. simpl in *.
  destruct (sweep (dict_keys d) d true) as [d1 [|]]; [done|].
  apply IH; [done | lia].
Qed.

End resolve_facts.

(** ** The merge passes *)

Section pass_facts.
Implicit Types (bc : list shell) (mt : list (Z * Z)).

Lemma shell_ids_insert bc i (m : gset nat) :
  (<[i := ((bc !!! i).1, m)]> bc).*1 = bc.*1.
Proof.
  rewrite list_fmap_insert. simpl.
  destruct (decide (i < length bc)) as [Hlt|Hge].
  - apply list_insert_id. rewrite list_lookup_fmap.
    by rewrite (list_lookup_lookup_total_lt bc i Hlt).
  - apply list_insert_ge. rewrite length_fmap. lia.
Qed.

Lemma shell_id_lookup bc i : bc.*1 !!! i = (bc !!! i).1.
Proof.
  destruct (decide (i < length bc)) as [Hlt|Hge].
  - apply list_lookup_total_correct. rewrite list_lookup_fmap.
    by rewrite (list_lookup_lookup_total_lt bc i Hlt).
  - rewrite !list_lookup_total_alt, !lookup_ge_None_2;
      [done | lia | rewrite length_fmap; lia].
Qed.

Lemma forward_loop_spec n i bc mt :
  i + n = length bc → 0 < n →
  let r := forward_loop n i bc mt in
  ∃ f, i ≤ f < length bc ∧
    r.1.*1 = bc.*1 ∧
    (∀ j, j ≤ i ∨ f < j → r.1 !!! j = bc !!! j) ∧
    (∀ j, i ≤ j < f →
       size (r.1 !!! j).2 < 10 ∧
       (r.1 !!! S j).2 = (bc !!! S j).2 ∪ (r.1 !!! j).2) ∧
    (f = length bc - 1 ∨ 10 ≤ size (r.1 !!! f).2) ∧
    r.2 = dict_update mt (forward_entries bc.*1 i f).
Proof.
  revert i bc mt. induction n as [|n IH]; intros i bc mt Hlen Hn; [lia|].
  cbn [forward_loop].
  destruct (bool_decide (size (bc !!! i).2 < 10)
            && bool_decide (i < length bc - 1)) eqn:Hc.
  - apply andb_true_iff in Hc as [Hsz Hlast].
    apply bool_decide_eq_true in Hsz, Hlast.
    set (bc1 := <[S i := ((bc !!! S i).1, (bc !!! S i).2 ∪ (bc !!! i).2)]> bc).
    set (mt1 := dict_set (bc !!! i).1 (bc !!! S i).1 mt).
    assert (bc1.*1 = bc.*1) as Hids by apply shell_ids_insert.
    assert (length bc1 = length bc) as Hlen1 by apply length_insert.
    destruct (IH (S i) bc1 mt1) as (f & Hf & Hid & Hsame & Hmerge & Hstop & Hmt);
      [lia | lia |].
    set (r := forward_loop n (S i) bc1 mt1) in *.
    exists f. split_and!.
    + lia.
    + lia.
    + congruence.
    + intros j Hj. rewrite Hsame; [|lia].
      apply list_lookup_total_insert_ne. lia.
    + intros j Hj. destruct (decide (j = i)) as [->|Hne].
      * rewrite !Hsame; [|lia|lia]. unfold bc1.
        rewrite list_lookup_total_insert_eq; [|lia].
        rewrite list_lookup_total_insert_ne; [|lia]. done.
      * destruct (Hmerge j) as [? Hu]; [lia|]. split; [done|].
        rewrite Hu. unfold bc1.
        rewrite list_lookup_total_insert_ne; [done|lia].
    + rewrite Hlen1 in Hstop. done.
    + rewrite Hmt, Hids. unfold forward_entries, dict_update.
      replace (f - i) with (S (f - S i)) by lia. cbn [seq fmap list_fmap foldl].
      simpl. rewrite !shell_id_lookup. done.
  - apply andb_false_iff in Hc.
    exists i. cbv zeta. cbn [fst snd]. split_and!; try done; try lia.
    + destruct Hc as [Hc|Hc]; apply bool_decide_eq_false in Hc; lia.
    + unfold forward_entries. by rewrite Nat.sub_diag.
Qed.

Lemma backward_loop_spec n bc mt :
  n ≤ length bc → 0 < n →
  let r := backward_loop n bc mt in
  ∃ b, b < n ∧
    r.1.*1 = bc.*1 ∧
    (∀ j, j < b ∨ n ≤ S j → r.1 !!! j = bc !!! j) ∧
    (∀ j, b < j < n →
       2 * size (r.1 !!! j).2 < size (bc !!! (j - 1)).2 ∧
       (r.1 !!! (j - 1)).2 = (bc !!! (j - 1)).2 ∪ (r.1 !!! j).2) ∧
    (b = 0 ∨ ¬ 2 * size (r.1 !!! b).2 < size (bc !!! (b - 1)).2) ∧
    r.2 = dict_update mt (backward_entries bc.*1 b n).
Proof.
  revert bc mt. induction n as [|i IH]; intros bc mt Hlen Hn; [lia|].
  cbn [backward_loop].
  destruct (bool_decide (0 < i)
            && bool_decide (2 * size (bc !!! i).2 < size (bc !!! (i - 1)).2))
    eqn:Hc.
  - apply andb_true_iff in Hc as [Hpos Hratio].
    apply bool_decide_eq_true in Hpos, Hratio.
    set (bc1 := <[i - 1 := ((bc !!! (i - 1)).1,
                           (bc !!! (i - 1)).2 ∪ (bc !!! i).2)]> bc).
    set (mt1 := dict_set (bc !!! i).1 (bc !!! (i - 1)).1 mt).
    assert (bc1.*1 = bc.*1) as Hids by apply shell_ids_insert.
    assert (length bc1 = length bc) as Hlen1 by apply length_insert.
    destruct (IH bc1 mt1) as (b & Hb & Hid & Hsame & Hmerge & Hstop & Hmt);
      [lia | lia |].
    set (r := backward_loop i bc1 mt1) in *.
    exists b. split_and!.
    + lia.
    + congruence.
    + intros j Hj. rewrite Hsame; [|lia].
      apply list_lookup_total_insert_ne. lia.
    + intros j Hj. destruct (decide (j = i)) as [->|Hne].
      * rewrite !Hsame; [|lia|lia]. unfold bc1.
        rewrite list_lookup_total_insert_eq; [|lia].
        rewrite list_lookup_total_insert_ne; [|lia]. done.
      * destruct (Hmerge j) as [Hr Hu]; [lia|]. unfold bc1 in Hr, Hu.
        rewrite list_lookup_total_insert_ne in Hr, Hu; [done|lia|lia].
    + destruct (decide (b = 0)) as [->|Hb0]; [by left|].
      destruct Hstop as [->|Hstop]; [by left|]. right.
      unfold bc1 in Hstop.
      rewrite list_lookup_total_insert_ne in Hstop; [done|lia].
    + rewrite Hmt, Hids. unfold backward_entries, dict_update.
      replace (S i - S b) with (S (i - S b)) by lia.
      rewrite seq_S, reverse_snoc. replace (S b + (i - S b)) with i by lia.
      cbn [fmap list_fmap foldl]. simpl. rewrite !shell_id_lookup. done.
  - apply andb_false_iff in Hc.
    exists i. cbv zeta. cbn [fst snd]. split_and!; try done; try lia.
    + destruct Hc as [Hc|Hc]; apply bool_decide_eq_false in Hc; [lia|].
      by right.
    + unfold backward_entries. by rewrite Nat.sub_diag.
Qed.
End pass_facts.

(** ** The merge table of the two passes *)

Section table_facts.
Implicit Types (bc : list shell) (mt : list (Z * Z)) (ids : list Z).

Lemma index_of_le x ids : index_of x ids ≤ length ids.
Proof.
  induction ids as [|y ids IH]; simpl; [lia|].
  destruct (decide (x = y)); lia.
Qed.

Lemma index_of_lookup ids j x :
  NoDup ids → ids !! j = Some x → index_of x ids = j.
Proof.
  revert j. induction ids as [|y ids IH]; intros j Hnd Hj; [done|].
  apply NoDup_cons in Hnd as [Hy Hnd]. simpl.
  destruct j as [|j]; simpl in Hj.
  - injection Hj as ->. by rewrite decide_True.
  - rewrite decide_False; [f_equal; by apply IH|].
    intros ->. apply Hy. by eapply list_elem_of_lookup_2.
Qed.

Lemma dict_update_app {V} (d es : list (Z * V)) :
  NoDup (dict_keys d ++ es.*1) → dict_update d es = d ++ es.
Proof.
  unfold dict_update. revert d.
  induction es as [|[k v] es IH]; intros d Hnd; simpl.
  - by rewrite app_nil_r.
  - rewrite dict_set_notin.
    + rewrite IH; [by rewrite <- app_assoc|].
      unfold dict_keys in *. rewrite fmap_app. simpl.
      by rewrite <- app_assoc.
    + apply NoDup_app in Hnd as (_ & Hd & _). intros Hk.
      apply (Hd k Hk). csimpl. apply list_elem_of_here.
Qed.

Lemma fmap_lookup_seq ids i k :
  i + k ≤ length ids → (λ j, ids !!! j) <$> seq i k = take k (drop i ids).
Proof.
  revert i. induction k as [|k IH]; intros i Hle; [done|]. csimpl.
  destruct (lookup_lt_is_Some_2 ids i) as [x Hx]; [lia|].
  rewrite (drop_S _ _ _ Hx). csimpl.
  rewrite (list_lookup_total_correct _ _ _ Hx). f_equal. apply IH. lia.
Qed.

Lemma forward_entries_keys ids f :
  f ≤ length ids → dict_keys (forward_entries ids 0 f) = take f ids.
Proof.
  intros Hf. unfold dict_keys, forward_entries.
  rewrite <- list_fmap_compose, Nat.sub_0_r.
  pose proof (fmap_lookup_seq ids 0 f Hf) as H. rewrite drop_0 in H.
  by rewrite <- H.
Qed.

Lemma backward_entries_keys ids b :
  dict_keys (backward_entries ids b (length ids)) = reverse (drop (S b) ids).
Proof.
  unfold dict_keys, backward_entries. rewrite <- list_fmap_compose.
  destruct (decide (S b ≤ length ids)) as [Hle|Hgt].
  - rewrite fmap_reverse. f_equal.
    rewrite <- (take_ge (drop (S b) ids) (length ids - S b));
      [|rewrite length_drop; lia].
    rewrite <- fmap_lookup_seq; [done|lia].
  - replace (length ids - S b) with 0 by lia.
    rewrite drop_ge; [done|lia].
Qed.

Lemma pass_keys_NoDup ids f b :
  NoDup ids → f ≤ b →
  NoDup (take f ids ++ reverse (drop (S b) ids)).
Proof.
  intros Hnd Hfb. apply NoDup_app. split_and!.
  - eapply sublist_NoDup; [done | apply sublist_take].
  - intros x Hx Hx'. rewrite elem_of_reverse in Hx'.
    apply elem_of_take in Hx as (i & Hi & Hif).
    apply list_elem_of_lookup in Hx' as (j & Hj).
    rewrite lookup_drop in Hj.
    pose proof (NoDup_lookup _ _ _ _ Hnd Hi Hj). lia.
  - rewrite reverse_Permutation.
    eapply sublist_NoDup; [done | apply sublist_drop].
Qed.

Lemma merge_passes_outcome bc :
  NoDup bc.*1 → 0 < length bc →
  let r1 := forward_pass bc [] in
  let r2 := backward_pass r1.1 r1.2 in
  ∃ f b, f ≤ b ∧
    forward_outcome bc r1.1 r1.2 f ∧
    backward_outcome r1.1 r2.1 r1.2 r2.2 b ∧
    r2.2 = forward_entries bc.*1 0 f ++ backward_entries bc.*1 b (length bc).
Proof.
  intros Hnd Hpos. cbv zeta. unfold forward_pass.
  destruct (forward_loop_spec (length bc) 0 bc [])
    as (f & Hf & Hid1 & Hsame1 & Hmerge1 & Hstop1 & Hmt1); [lia|lia|].
  set (r1 := forward_loop (length bc) 0 bc []) in *.
  assert (length r1.1 = length bc) as Hlen1.
  { by rewrite <- (length_fmap fst), Hid1, length_fmap. }
  unfold backward_pass.
  destruct (backward_loop_spec (length r1.1) r1.1 r1.2)
    as (b & Hb & Hid2 & Hsame2 & Hmerge2 & Hstop2 & Hmt2); [lia|lia|].
  set (r2 := backward_loop (length r1.1) r1.1 r1.2) in *.
  set (ids := bc.*1) in *.
  assert (length ids = length bc) as Hlenids by apply length_fmap.
  assert (f ≤ b) as Hfb.
  { destruct (decide (f ≤ b)) as [|Hn]; [done|]. exfalso.
    destruct (Hmerge2 f) as [Hr _]; [lia|].
    destruct (Hmerge1 (f - 1)) as [_ Hu1]; [lia|].
    replace (S (f - 1)) with f in Hu1 by lia.
    assert ((r1.1 !!! f).2 ⊆ (r2.1 !!! f).2) as Hsub.
    { destruct (decide (S f < length bc)) as [Hlt|Hge].
      - destruct (Hmerge2 (S f)) as [_ Hu2]; [lia|].
        replace (S f - 1) with f in Hu2 by lia. rewrite Hu2.
        apply union_subseteq_l.
      - rewrite Hsame2; [done | right; lia]. }
    assert (size (r1.1 !!! (f - 1)).2 ≤ size (r2.1 !!! f).2).
    { apply subseteq_size. etrans; [|exact Hsub]. rewrite Hu1.
      apply union_subseteq_r. }
    lia. }
  pose proof (pass_keys_NoDup ids f b Hnd Hfb) as Hkeys.
  assert (r1.2 = forward_entries ids 0 f) as Hfw.
  { rewrite Hmt1. apply dict_update_app. simpl.
    change ((forward_entries ids 0 f).*1)
      with (dict_keys (forward_entries ids 0 f)).
    rewrite forward_entries_keys; [|lia].
    by apply NoDup_app in Hkeys as (? & _). }
  assert (r2.2 = forward_entries ids 0 f ++ backward_entries ids b (length bc))
    as Hbw.
  { rewrite Hmt2, Hfw, Hid1, Hlen1. apply dict_update_app.
    change ((backward_entries ids b (length bc)).*1)
      with (dict_keys (backward_entries ids b (length bc))).
    rewrite forward_entries_keys; [|lia].
    by rewrite <- Hlenids, backward_entries_keys. }
  assert (NoDup (dict_keys r2.2)) as Hnd2.
  { rewrite Hbw. unfold dict_keys. rewrite fmap_app.
    change (NoDup (dict_keys (forward_entries ids 0 f) ++
                   dict_keys (backward_entries ids b (length bc)))).
    rewrite forward_entries_keys; [|lia].
    by rewrite <- Hlenids, backward_entries_keys. }
  assert (NoDup (dict_keys r1.2)) as Hnd1.
  { rewrite Hfw, forward_entries_keys; [|lia].
    by apply NoDup_app in Hkeys as (? & _). }
  exists f, b. split_and!; [done | | | done].
  - (* forward *)
    unfold forward_outcome. split_and!; [lia | done | | done | | ].
    + intros j Hj. destruct (Hmerge1 j) as [Hs Hu]; [lia|].
      split_and!; [done | lia | done |].
      apply dict_elem_get; [done|]. rewrite Hfw.
      rewrite <- !shell_id_lookup. fold ids.
      apply list_elem_of_fmap. exists j. split; [done|].
      apply elem_of_seq. lia.
    + intros j Hj. apply Hsame1. lia.
    + rewrite Hfw. apply forward_entries_keys. fold ids. lia.
  - (* backward *)
    unfold backward_outcome. split_and!; [lia | done | | done | done | | ].
    + intros j Hj. destruct (Hmerge2 j) as [Hr Hu]; [lia|].
      split_and!; [done | done |].
      apply dict_elem_get; [done|]. rewrite Hbw.
      rewrite <- !shell_id_lookup, Hid1. apply elem_of_app. right.
      apply list_elem_of_fmap. exists j. split; [done|].
      apply elem_of_reverse, elem_of_seq. lia.
    + intros k v Hkv. apply dict_elem_get; [done|]. rewrite Hbw.
      apply elem_of_app. left. rewrite <- Hfw.
      by apply dict_get_Some_elem.
    + rewrite Hbw, Hfw, Hid1. unfold dict_keys at 1. rewrite fmap_app.
      f_equal. fold ids. by rewrite <- Hlenids, <- backward_entries_keys.
Qed.
End table_facts.

(** ** The rank of the table of the two passes *)

Section rank_facts.
Implicit Types (bc : list shell) (mt : list (Z * Z)) (ids : list Z).

Lemma pass_rank_le ids f b x :
  f ≤ length ids → pass_rank ids f b x ≤ length ids.
Proof.
  intros Hf. unfold pass_rank. pose proof (index_of_le x ids).
  repeat case_decide; lia.
Qed.

Lemma pass_rank_lookup ids f b j :
  NoDup ids → j < length ids →
  pass_rank ids f b (ids !!! j) =
    if decide (j < f) then f - j else if decide (b < j) then j - b else 0.
Proof.
  intros Hnd Hj. unfold pass_rank.
  by rewrite (index_of_lookup ids j (ids !!! j) Hnd
                (list_lookup_lookup_total_lt ids j Hj)).
Qed.

Lemma pass_table_ranked ids f b :
  NoDup ids → f ≤ b < length ids →
  ranked (pass_rank ids f b)
    (forward_entries ids 0 f ++ backward_entries ids b (length ids)).
Proof.
  intros Hnd Hfb k v Hkv. apply dict_get_Some_elem in Hkv.
  apply elem_of_app in Hkv as [Hkv|Hkv];
    apply list_elem_of_fmap in Hkv as (j & [= -> ->] & Hj).
  - apply elem_of_seq in Hj.
    rewrite !pass_rank_lookup; [|done|lia|done|lia].
    repeat case_decide; lia.
  - apply elem_of_reverse, elem_of_seq in Hj.
    rewrite !pass_rank_lookup; [|done|lia|done|lia].
    repeat case_decide; lia.
Qed.

Lemma potential_le ρ mt N :
  (∀ x, ρ x ≤ N) → potential ρ mt ≤ length mt * N.
Proof.
  intros HN. unfold potential.
  induction mt as [|[k v] mt IH]; csimpl; [lia|].
  specialize (HN v). lia.
Qed.

Lemma pass_table_length ids f b :
  f ≤ b < length ids →
  length (forward_entries ids 0 f ++ backward_entries ids b (length ids))
  = f + (length ids - S b).
Proof.
  intros Hfb. unfold forward_entries, backward_entries.
  rewrite length_app, !length_fmap, length_reverse, !length_seq. lia.
Qed.

(** The groups come in strictly ascending order of their ids. *)
Lemma groupby_bin_ids bins :
  (groupby_bin bins).*1 = merge_sort Z.le (remove_dups bins).
Proof.
  unfold groupby_bin. rewrite <- list_fmap_compose.
  apply list_fmap_id.
Qed.

Lemma initial_bin_counts_ids bins :
  (initial_bin_counts bins).*1
  = filter (λ b, b ≠ 0%Z) (merge_sort Z.le (remove_dups bins)).
Proof.
  unfold initial_bin_counts. rewrite <- groupby_bin_ids.
  generalize (groupby_bin bins). intros l.
  induction l as [|[b m] l IH]; [done|].
  rewrite !fmap_cons, !filter_cons. simpl.
  case_decide; csimpl; by rewrite IH.
Qed.

Lemma initial_bin_counts_NoDup bins : NoDup (initial_bin_counts bins).*1.
Proof.
  rewrite initial_bin_counts_ids. apply NoDup_filter.
  rewrite merge_sort_Permutation. apply NoDup_remove_dups.
Qed.

Lemma StronglySorted_filter_Z (R : relation Z) (P : Z → Prop)
    `{∀ x, Decision (P x)} (l : list Z) :
  StronglySorted R l → StronglySorted R (filter P l).
Proof.
  induction 1 as [|x l Hs IH Hall]; [constructor|].
  rewrite filter_cons. case_decide; [|done].
  constructor; [done|]. rewrite Forall_forall in Hall |- *.
  intros y Hy. apply list_elem_of_filter in Hy as [_ Hy]. by apply Hall.
Qed.

Lemma initial_bin_counts_sorted bins :
  StronglySorted Z.lt (initial_bin_counts bins).*1.
Proof.
  pose proof (initial_bin_counts_NoDup bins) as Hnd.
  assert (StronglySorted Z.le (initial_bin_counts bins).*1) as Hs.
  { rewrite initial_bin_counts_ids. apply StronglySorted_filter_Z.
    apply (StronglySorted_merge_sort Z.le). }
  revert Hnd Hs. generalize ((initial_bin_counts bins).*1). intros l.
  induction l as [|x l IH]; intros Hnd Hs; [constructor|].
  apply NoDup_cons in Hnd as [Hx Hnd].
  apply StronglySorted_inv in Hs as [Hs Hall].
  constructor; [by apply IH|].
  rewrite Forall_forall in Hall |- *. intros y Hy.
  specialize (Hall y Hy). assert (x ≠ y) by (intros ->; done). lia.
Qed.
End rank_facts.

(** ** Termination and idempotence of the merge *)

Section merge_facts.
Implicit Types (bc : list shell) (mt : list (Z * Z)) (bins : list Z).

Lemma merge_passes_eq bc :
  merge_passes bc =
    backward_pass (forward_pass bc []).1 (forward_pass bc []).2.
Proof. unfold merge_passes. by destruct (forward_pass bc []). Qed.

Lemma merge_passes_nil : merge_passes [] = ([], []).
Proof. reflexivity. Qed.

Lemma merge_passes_ranked bc :
  NoDup bc.*1 →
  let mt := (merge_passes bc).2 in
  ∃ ρ, ranked ρ mt ∧ NoDup (dict_keys mt) ∧
       potential ρ mt ≤ length bc * length bc ∧
       length mt ≤ length bc - 1.
Proof.
  intros Hnd. cbv zeta. destruct (decide (length bc = 0)) as [Hz|Hpos].
  { apply nil_length_inv in Hz as ->. exists (λ _, 0).
    rewrite merge_passes_nil. split_and!; [done | constructor | done | done]. }
  destruct (merge_passes_outcome bc Hnd) as (f & b & Hfb & Hfw & Hbw & Hmt);
    [lia|].
  rewrite merge_passes_eq, Hmt.
  destruct Hfw as (Hf & Hid1 & _). destruct Hbw as (Hb & Hid2 & _).
  assert (length (forward_pass bc []).1 = length bc) as Hlen1.
  { by rewrite <- (length_fmap fst), Hid1, length_fmap. }
  assert (length bc.*1 = length bc) as Hlen by apply length_fmap.
  rewrite <- Hlen in Hf |- *.
  exists (pass_rank bc.*1 f b). split_and!.
  - apply pass_table_ranked; [done | lia].
  - unfold dict_keys. rewrite fmap_app.
    change (NoDup (dict_keys (forward_entries bc.*1 0 f) ++
                   dict_keys (backward_entries bc.*1 b (length bc.*1)))).
    rewrite forward_entries_keys, backward_entries_keys; [|lia].
    by apply pass_keys_NoDup.
  - etrans; [apply (potential_le _ _ (length bc.*1))|].
    + intros x. apply pass_rank_le. lia.
    + rewrite pass_table_length; [|lia]. nia.
  - rewrite pass_table_length; lia.
Qed.

(** The [while] loop over the table of the two passes ends within
    [n * n + 1] sweeps, [n] the number of shells. *)
Lemma merge_passes_resolve bc fuel :
  NoDup bc.*1 → length bc * length bc < fuel →
  ∃ mt', resolve fuel (merge_passes bc).2 = Some mt' ∧
         dict_keys mt' = dict_keys (merge_passes bc).2 ∧
         NoDup (dict_keys mt') ∧ fully_resolved mt'.
Proof.
  intros Hnd Hfuel.
  destruct (merge_passes_ranked bc Hnd) as (ρ & Hr & Hk & Hpot & _).
  destruct (resolve_terminates ρ fuel _ Hr Hk) as (mt' & Hres & Hkeys & _ & Hfr);
    [lia|].
  exists mt'. split_and!; try done. by rewrite Hkeys.
Qed.

Lemma resolve_fuel_needed bc fuel :
  NoDup bc.*1 → resolve fuel (merge_passes bc).2 = None →
  fuel ≤ length bc * length bc.
Proof.
  intros Hnd Hnone.
  destruct (decide (fuel ≤ length bc * length bc)) as [|Hgt]; [done|].
  destruct (merge_passes_resolve bc fuel Hnd) as (mt' & Hres & _); [lia|].
  congruence.
Qed.

Lemma apply_table_fmap mt bins : apply_table mt bins = apply1 mt <$> bins.
Proof.
  unfold apply_table, apply1. revert bins.
  induction mt as [|e mt IH]; intros bins; simpl.
  - by rewrite list_fmap_id.
  - rewrite IH. unfold rewrite_bin. rewrite <- list_fmap_compose.
    apply list_fmap_ext. intros _ b _. simpl. by case_decide.
Qed.

Lemma apply1_not_key mt b : b ∉ dict_keys mt → apply1 mt b = b.
Proof.
  unfold apply1, dict_keys. revert b.
  induction mt as [|[k v] mt IH]; intros b Hb; [done|]. csimpl in *.
  apply not_elem_of_cons in Hb as [Hne Hb].
  rewrite decide_False; [|done]. by apply IH.
Qed.

Lemma apply1_value mt b :
  apply1 mt b = b ∨ ∃ k, (k, apply1 mt b) ∈ mt.
Proof.
  unfold apply1. revert b. induction mt as [|[k v] mt IH]; intros b;
    [by left|]. simpl.
  destruct (decide (b = k)) as [->|Hne].
  - destruct (IH v) as [->|[k' Hk']].
    + right. exists k. apply list_elem_of_here.
    + right. exists k'. by apply list_elem_of_further.
  - destruct (IH b) as [->|[k' Hk']]; [by left|].
    right. exists k'. by apply list_elem_of_further.
Qed.

(** Applying a fully resolved table leaves no key behind, so that a second
    application changes nothing. *)
Lemma fully_resolved_cons e mt : fully_resolved (e :: mt) → fully_resolved mt.
Proof.
  intros Hfr k v Hkv Hv. apply (Hfr k v); [by apply list_elem_of_further|].
  unfold dict_keys in *. rewrite fmap_cons. by apply list_elem_of_further.
Qed.

Lemma apply1_resolved mt b : fully_resolved mt → apply1 mt b ∉ dict_keys mt.
Proof.
  revert b. induction mt as [|[k v] mt IH]; intros b Hfr.
  { apply not_elem_of_nil. }
  pose proof (fully_resolved_cons _ _ Hfr) as Hfr'.
  assert (apply1 ((k, v) :: mt) b
          = apply1 mt (if decide (b = k) then v else b)) as -> by done.
  unfold dict_keys. rewrite fmap_cons. apply not_elem_of_cons. simpl.
  destruct (decide (b = k)) as [->|Hne].
  - assert (v ∉ dict_keys ((k, v) :: mt)) as Hv.
    { apply (Hfr k v). apply list_elem_of_here. }
    unfold dict_keys in Hv. rewrite fmap_cons in Hv.
    apply not_elem_of_cons in Hv as [Hvk Hv].
    rewrite apply1_not_key; done.
  - split; [|by apply IH].
    destruct (apply1_value mt b) as [->|[k' Hk']]; [done|].
    assert (apply1 mt b ∉ dict_keys ((k, v) :: mt)) as Hv.
    { apply (Hfr k'). by apply list_elem_of_further. }
    unfold dict_keys in Hv. rewrite fmap_cons in Hv.
    by apply not_elem_of_cons in Hv as [Hvk _].
Qed.

Lemma apply_table_idempotent mt bins :
  fully_resolved mt →
  apply_table mt (apply_table mt bins) = apply_table mt bins.
Proof.
  intros Hfr. rewrite !apply_table_fmap, <- list_fmap_compose.
  apply list_fmap_ext. intros _ b _. simpl.
  apply apply1_not_key. by apply apply1_resolved.
Qed.

Lemma apply_table_no_key mt bins b :
  fully_resolved mt → b ∈ apply_table mt bins → b ∉ dict_keys mt.
Proof.
  intros Hfr Hb. rewrite apply_table_fmap in Hb.
  apply list_elem_of_fmap in Hb as (b0 & -> & _). by apply apply1_resolved.
Qed.

Lemma surviving_no_key mt bc g :
  g ∈ surviving mt bc → g.1 ∉ dict_keys mt.
Proof.
  unfold surviving. intros Hg. apply list_elem_of_filter in Hg as [Hg _].
  unfold dict_in in Hg. apply bool_decide_eq_false in Hg.
  apply dict_get_None. destruct (dict_get g.1 mt); [|done].
  exfalso. apply Hg. by eexists.
Qed.
End merge_facts.

(** ** The binning engine *)

Section binning_theorems.
Context (N : Numeric).
Implicit Types (bins : list Z) (h : HklData N).

Lemma elem_of_group_index b bins j :
  j ∈ group_index b bins ↔ bins !! j = Some b.
Proof.
  unfold group_index. rewrite elem_of_list_to_set, list_elem_of_fmap. split.
  - intros ([i x] & -> & Hin). apply list_elem_of_filter in Hin as [Hx Hin].
    simpl in *. subst x. apply elem_of_lookup_imap in Hin as (i' & x' & [= -> ->] & ?).
    done.
  - intros Hj. exists (j, b). split; [done|]. apply list_elem_of_filter.
    split; [done|]. apply elem_of_lookup_imap. by exists j, b.
Qed.

Lemma elem_of_initial_bin_counts bins b m :
  (b, m) ∈ initial_bin_counts bins ↔
  b ≠ 0%Z ∧ b ∈ bins ∧ m = group_index b bins.
Proof.
  unfold initial_bin_counts, groupby_bin.
  rewrite list_elem_of_filter, list_elem_of_fmap. simpl. split.
  - intros (Hb & b' & [= -> ->] & Hin).
    rewrite merge_sort_Permutation, elem_of_remove_dups in Hin. done.
  - intros (Hb & Hin & ->). split; [done|]. exists b. split; [done|].
    by rewrite merge_sort_Permutation, elem_of_remove_dups.
Qed.


(** C6. The two passes make fewer merges than there are shells; the table
    they leave has no cycle; and the [while] loop over it ends, within
    [n * n + 1] sweeps for [n] shells, so that [setup_relion_binning]
    returns. *)
Theorem relion_binning_terminates h :
  let max_edge := max_cell_edge N (cell N h) in
  let bins := relion_bin N max_edge <$> df_d N h in
  let bc := initial_bin_counts bins in
  let mt := (merge_passes bc).2 in
  length mt ≤ length bc - 1 ∧
  acyclic mt ∧
  ∃ mt', ∀ fuel, length bc * length bc < fuel →
    resolve fuel mt = Some mt' ∧
    is_Some (setup_relion_binning N fuel h).
Proof.
  cbv zeta.
  set (bins := relion_bin N _ <$> df_d N h).
  set (bc := initial_bin_counts bins).
  pose proof (initial_bin_counts_NoDup bins) as Hnd. fold bc in Hnd.
  destruct (merge_passes_ranked bc Hnd) as (ρ & Hr & Hk & Hpot & Hlen).
  split_and!; [done | by eapply ranked_acyclic |].
  destruct (merge_passes_resolve bc (S (length bc * length bc)) Hnd)
    as (mt' & Hres & _); [lia|].
  exists mt'. intros fuel Hfuel.
  assert (resolve fuel (merge_passes bc).2 = Some mt') as Hres'.
  { eapply resolve_fuel_mono; [done | lia]. }
  split; [done|]. unfold setup_relion_binning. fold bins bc.
  destruct (merge_passes bc) as [bc2 mt]. simpl in *. rewrite Hres'.
  simpl. by eexists.
Qed.

(** C7. When the resolution loop has ended, no target of an entry of the
    table is a key; the record-to-shell assignment is the table applied to
    the raw ids, and applying the table to it again changes nothing; no
    shell id left in the assignment or in the shell list is a key, so each
    is its own target. The loop fails to end only on too little fuel. *)
Theorem relion_binning_resolved (fuel : nat) h :
  let max_edge := max_cell_edge N (cell N h) in
  let bins := relion_bin N max_edge <$> df_d N h in
  let bc := initial_bin_counts bins in
  let mt := (merge_passes bc).2 in
  match setup_relion_binning N fuel h with
  | None => fuel ≤ length bc * length bc
  | Some h' =>
      ∃ mt', resolve fuel mt = Some mt' ∧
        fully_resolved mt' ∧
        dict_keys mt' = dict_keys mt ∧
        df_bin N h' = apply_table mt' bins ∧
        apply_table mt' (df_bin N h') = df_bin N h' ∧
        (∀ b, b ∈ df_bin N h' → (b ∉ dict_keys mt') ∧ apply1 mt' b = b) ∧
        (∀ b, b ∈ (row_bin N <$> binned_df N h') →
              (b ∉ dict_keys mt') ∧ apply1 mt' b = b)
  end.
Proof.
  cbv zeta.
  set (bins := relion_bin N _ <$> df_d N h).
  set (bc := initial_bin_counts bins).
  pose proof (initial_bin_counts_NoDup bins) as Hnd. fold bc in Hnd.
  unfold setup_relion_binning. fold bins bc.
  destruct (resolve fuel (merge_passes bc).2) as [mt'|] eqn:Hres.
  - destruct (merge_passes_resolve bc (S (Nat.max fuel (length bc * length bc))) Hnd)
      as (mt2 & Hres2 & Hkeys & _ & Hfr); [lia|].
    assert (mt2 = mt') as ->.
    { pose proof (resolve_fuel_mono fuel
                    (S (Nat.max fuel (length bc * length bc))) _ _ Hres) as H.
      rewrite H in Hres2; [congruence | lia]. }
    destruct (merge_passes bc) as [bc2 mt] eqn:Hmp. simpl in *. rewrite Hres.
    simpl. exists mt'. split_and!; try done.
    + by apply apply_table_idempotent.
    + intros b Hb. pose proof (apply_table_no_key _ _ _ Hfr Hb).
      split; [done | by apply apply1_not_key].
    + intros b Hb. rewrite <- list_fmap_compose in Hb.
      apply list_elem_of_fmap in Hb as (g & -> & Hg). simpl.
      pose proof (surviving_no_key _ _ _ Hg).
      split; [done | by apply apply1_not_key].
  - pose proof (resolve_fuel_needed bc fuel Hnd Hres).
    destruct (merge_passes bc) as [bc2 mt]. simpl in *. by rewrite Hres.
Qed.
End binning_theorems.

Section binning_shells.
Context (N : Numeric).

Lemma merge_passes_ids bc :
  NoDup bc.*1 → (merge_passes bc).1.*1 = bc.*1.
Proof.
  intros Hnd. destruct bc as [|g bc'] eqn:Hbc.
  - by rewrite merge_passes_nil.
  - rewrite <- Hbc in *.
    destruct (merge_passes_outcome bc Hnd) as (f & b & _ & Hf & Hb & _).
    { rewrite Hbc. simpl. lia. }
    rewrite merge_passes_eq.
    destruct Hf as (_ & Hf & _). destruct Hb as (_ & Hb & _).
    by rewrite Hb, Hf.
Qed.

(** The shell ids of [binned_df] are distinct. *)
Lemma setup_relion_binning_NoDup fuel (h h' : HklData N) :
  setup_relion_binning N fuel h = Some h' →
  NoDup (row_bin N <$> binned_df N h').
Proof.
  unfold setup_relion_binning.
  set (bins := relion_bin N _ <$> df_d N h).
  pose proof (initial_bin_counts_NoDup bins) as Hnd.
  pose proof (merge_passes_ids _ Hnd) as Hids.
  destruct (merge_passes (initial_bin_counts bins)) as [bc2 mt].
  simpl in Hids.
  destruct (resolve fuel mt) as [mt'|]; [|done]. simpl.
  intros H. injection H as <-. simpl. rewrite <- list_fmap_compose.
  apply (sublist_NoDup _ bc2.*1); [by rewrite Hids|].
  change (row_bin N ∘ new_bin_row N _) with (fst : shell → Z).
  apply fmap_sublist, sublist_filter.
Qed.
End binning_shells.

(** ** Masked reads and writes *)

Section mask_facts.
Context {A : Type}.
Implicit Types (sel : list bool) (a v : list A).

Lemma mask_rank_0 sel : mask_rank sel 0 = 0.
Proof. done. Qed.

Lemma mask_rank_S s sel j :
  mask_rank (s :: sel) (S j) = (if s then 1 else 0) + mask_rank sel j.
Proof.
  unfold mask_rank. rewrite firstn_cons, filter_cons.
  destruct s; case_decide; done.
Qed.

Lemma select_lookup sel a j :
  sel !! j = Some true → select sel a !! mask_rank sel j = a !! j.
Proof.
  revert a j. induction sel as [|s sel IH]; intros a j Hj; [done|].
  destruct a as [|x a].
  { destruct s; simpl; by destruct j. }
  destruct j as [|j].
  - simpl in Hj. injection Hj as ->. done.
  - rewrite mask_rank_S. simpl in Hj. destruct s; simpl; by apply IH.
Qed.

Lemma length_scatter sel v a : length (scatter sel v a) = length a.
Proof.
  revert v a. induction sel as [|s sel IH]; intros v a; [done|].
  destruct a as [|x a]; [by destruct s|].
  destruct s; simpl; [|by rewrite IH].
  destruct v; simpl; [done | by rewrite IH].
Qed.

Lemma scatter_lookup_hit sel v a j y :
  sel !! j = Some true → j < length a → v !! mask_rank sel j = Some y →
  scatter sel v a !! j = Some y.
Proof.
  revert v a j. induction sel as [|s sel IH]; intros v a j Hj Hlt Hv; [done|].
  destruct a as [|x a]; [simpl in Hlt; lia|]. simpl in Hlt.
  destruct j as [|j].
  - simpl in Hj. injection Hj as ->. rewrite mask_rank_0 in Hv.
    destruct v as [|y' v]; [done|]. simpl in *. done.
  - rewrite mask_rank_S in Hv. simpl in Hj. destruct s; simpl.
    + destruct v as [|y' v]; [done|]. simpl in *. apply IH; [done|lia|done].
    + apply IH; [done|lia|done].
Qed.

Lemma scatter_lookup_miss sel v a j :
  sel !! j ≠ Some true → scatter sel v a !! j = a !! j.
Proof.
  revert v a j. induction sel as [|s sel IH]; intros v a j Hj; [done|].
  destruct a as [|x a]; [by destruct s|].
  destruct j as [|j].
  - destruct s; [done|]. done.
  - simpl in Hj. destruct s; simpl.
    + destruct v; simpl; [done | by apply IH].
    + by apply IH.
Qed.

Lemma bin_mask_lookup i_bin (bins : list Z) j b :
  bins !! j = Some b →
  bin_mask i_bin bins !! j = Some (bool_decide (b = i_bin)).
Proof. intros Hj. unfold bin_mask. by rewrite list_lookup_fmap, Hj. Qed.
End mask_facts.

(** ** One row of [calc_maps], seen from one record *)

Section calc_maps_step.
Context (N : Numeric).
Implicit Types (tmp : gmap string (list (C N))) (l : string) (j : nat).

Lemma set_sel_slot_hit tmp l l' sel v j y c0 :
  sel !! j = Some true → v !! mask_rank sel j = Some y →
  slot N tmp l j = Some c0 →
  slot N (set_sel N l' sel v tmp) l j
  = Some (if decide (l' = l) then y else c0).
Proof.
  intros Hsel Hv Hc. unfold slot, set_sel in *. rewrite lookup_alter.
  case_decide as Hl; [subst l'|done].
  destruct (tmp !! l) as [col|]; [|done]. simpl in *.
  apply scatter_lookup_hit; [done | by eapply lookup_lt_Some | done].
Qed.

Lemma set_sel_slot_miss tmp l l' sel v j :
  sel !! j ≠ Some true →
  slot N (set_sel N l' sel v tmp) l j = slot N tmp l j.
Proof.
  intros Hsel. unfold slot, set_sel. rewrite lookup_alter.
  case_decide as Hl; [subst l'|done].
  destruct (tmp !! l) as [col|]; [|done]. simpl.
  by apply scatter_lookup_miss.
Qed.

Lemma set_sel_length tmp l l' sel v col :
  tmp !! l = Some col →
  ∃ col', set_sel N l' sel v tmp !! l = Some col' ∧ length col' = length col.
Proof.
  intros Hcol. unfold set_sel. rewrite lookup_alter.
  case_decide as Hl; [subst l'|by exists col].
  rewrite Hcol. simpl. eexists. split; [done|]. apply length_scatter.
Qed.

Ltac lookup_selected :=
  unfold blur_delfwt, blur_fwt, blur_k;
  repeat first [rewrite lookup_zip_with | rewrite list_lookup_fmap];
  rewrite ?select_lookup by done;
  repeat match goal with H : _ !! _ = Some _ |- _ => rewrite H end;
  reflexivity.

Lemma calc_maps_bin_hit B hh FP FC ds bins tmp log row j fo fc d l c0 :
  bins !! j = Some (row_bin N row) →
  FP !! j = Some fo → FC !! j = Some fc → ds !! j = Some d →
  slot N tmp l j = Some c0 →
  slot N (calc_maps_bin N B hh FP FC ds bins (tmp, log) row).1 l j
  = Some (apply_writes N
            (record_writes N B hh row
               (select (bin_mask (row_bin N row) bins) FP) fo fc d) l c0).
Proof.
  intros Hb HFP HFC Hd Hc.
  assert (bin_mask (row_bin N row) bins !! j = Some true) as Hsel.
  { rewrite (bin_mask_lookup _ _ _ _ Hb). by rewrite bool_decide_eq_true_2. }
  unfold calc_maps_bin, record_writes, norm_skipped, norm_factor.
  set (sel := bin_mask (row_bin N row) bins) in *.
  destruct hh; simpl negb; cbv iota.
  - destruct (rltb N _ _ || rneb N _ _); [|destruct B as [B|]];
      cbn [fst snd app apply_writes foldl];
      repeat (apply set_sel_slot_hit; [exact Hsel | lookup_selected |]);
      exact Hc.
  - cbn [fst snd app apply_writes foldl].
    apply set_sel_slot_hit; [exact Hsel | lookup_selected | exact Hc].
Qed.

Lemma calc_maps_bin_miss B hh FP FC ds bins tmp log row j l :
  bin_mask (row_bin N row) bins !! j ≠ Some true →
  slot N (calc_maps_bin N B hh FP FC ds bins (tmp, log) row).1 l j
  = slot N tmp l j.
Proof.
  intros Hsel. unfold calc_maps_bin.
  destruct hh; simpl negb; cbv iota.
  - destruct (rltb N _ _ || rneb N _ _); [|destruct B as [B|]];
      cbn [fst snd]; by rewrite !set_sel_slot_miss.
  - cbn [fst snd]. by rewrite set_sel_slot_miss.
Qed.

Lemma calc_maps_bin_log B hh FP FC ds bins tmp log row :
  (calc_maps_bin N B hh FP FC ds bins (tmp, log) row).2
  = log ++ calc_maps_events N B hh FP FC ds bins row.
Proof.
  unfold calc_maps_events, calc_maps_bin.
  destruct hh; simpl negb; cbv iota.
  - destruct (rltb N _ _ || rneb N _ _); [|destruct B as [B|]];
      cbn [fst snd app]; by rewrite ?app_nil_r.
  - cbn [fst snd]. by rewrite app_nil_r.
Qed.

Lemma calc_maps_fold_miss B hh FP FC ds bins rows st j l :
  (∀ row, row ∈ rows → bin_mask (row_bin N row) bins !! j ≠ Some true) →
  slot N (foldl (calc_maps_bin N B hh FP FC ds bins) st rows).1 l j
  = slot N st.1 l j.
Proof.
  revert st. induction rows as [|row rows IH]; intros [tmp log] Hrows;
    [done|].
  cbn [foldl]. rewrite IH.
  - apply calc_maps_bin_miss. apply Hrows, list_elem_of_here.
  - intros row' Hin. by apply Hrows, list_elem_of_further.
Qed.

Lemma calc_maps_fold_hit B hh FP FC ds bins rows st row j fo fc d l c0 :
  NoDup (row_bin N <$> rows) → row ∈ rows →
  bins !! j = Some (row_bin N row) →
  FP !! j = Some fo → FC !! j = Some fc → ds !! j = Some d →
  slot N st.1 l j = Some c0 →
  slot N (foldl (calc_maps_bin N B hh FP FC ds bins) st rows).1 l j
  = Some (apply_writes N
            (record_writes N B hh row
               (select (bin_mask (row_bin N row) bins) FP) fo fc d) l c0).
Proof.
  intros Hnd Hin Hb HFP HFC Hd. revert st Hnd Hin.
  induction rows as [|r rows IH]; intros [tmp log] Hnd Hin Hc.
  { by apply elem_of_nil in Hin. }
  rewrite fmap_cons in Hnd. apply NoDup_cons in Hnd as [Hr Hnd].
  cbn [foldl].
  assert (∀ r', r' ∈ rows → row_bin N r' = row_bin N row →
                row_bin N row ≠ row_bin N r) as Hother.
  { intros r' Hr' Heq Heq'. apply Hr. rewrite <- Heq', <- Heq.
    by apply list_elem_of_fmap_2. }
  destruct (decide (row_bin N r = row_bin N row)) as [Heq|Hne].
  - assert (r = row) as ->.
    { apply elem_of_cons in Hin as [->|Hin]; [done|].
      exfalso. by eapply Hother. }
    rewrite calc_maps_fold_miss.
    + by apply calc_maps_bin_hit.
    + intros r' Hr'. rewrite (bin_mask_lookup _ _ _ _ Hb).
      intros [= Hd']. apply bool_decide_eq_true in Hd'.
      apply Hr. rewrite Hd'. by apply list_elem_of_fmap_2.
  - apply IH; [done | |].
    + apply elem_of_cons in Hin as [->|Hin]; done.
    + rewrite calc_maps_bin_miss; [done|].
      rewrite (bin_mask_lookup _ _ _ _ Hb). intros [= Hd'].
      apply bool_decide_eq_true in Hd'. done.
Qed.

Lemma calc_maps_fold_log B hh FP FC ds bins rows st :
  (foldl (calc_maps_bin N B hh FP FC ds bins) st rows).2
  = st.2 ++ concat (calc_maps_events N B hh FP FC ds bins <$> rows).
Proof.
  revert st. induction rows as [|row rows IH]; intros [tmp log].
  { simpl. by rewrite app_nil_r. }
  cbn [foldl]. rewrite IH, calc_maps_bin_log, fmap_cons.
  simpl. by rewrite <- app_assoc.
Qed.
End calc_maps_step.

(** ** [calc_maps] refines its per-record reading *)

Section calc_maps_facts.
Context (N : Numeric).
Implicit Types (h : HklData N) (l : string) (j : nat).

Lemma map_labels_NoDup B hh : NoDup (map_labels N B hh).
Proof.
  destruct hh, B; apply (bool_decide_unpack _); by vm_compute.
Qed.

Lemma initial_tmp_slot (labs : list string) n l j :
  NoDup labs → l ∈ labs → j < n →
  slot N (list_to_map ((λ l, (l, replicate n (czero N))) <$> labs)) l j
  = Some (czero N).
Proof.
  intros Hnd Hl Hj. unfold slot.
  rewrite (elem_of_list_to_map_1 _ l (replicate n (czero N))).
  - simpl. by apply lookup_replicate_2.
  - rewrite <- list_fmap_compose. by rewrite list_fmap_id.
  - apply list_elem_of_fmap. by exists l.
Qed.

Lemma insert_labels_lookup_ne (tmp m : gmap string (list (C N))) labs l :
  l ∉ labs →
  foldl (λ m l, <[l := default [] (tmp !! l)]> m) m labs !! l = m !! l.
Proof.
  revert m. induction labs as [|a labs IH]; intros m Hl; [done|].
  apply not_elem_of_cons in Hl as [Hne Hl]. cbn [foldl].
  rewrite IH; [|done]. by rewrite lookup_insert_ne.
Qed.

Lemma insert_labels_lookup (tmp m : gmap string (list (C N))) labs l :
  l ∈ labs →
  foldl (λ m l, <[l := default [] (tmp !! l)]> m) m labs !! l
  = Some (default [] (tmp !! l)).
Proof.
  revert m. induction labs as [|a labs IH]; intros m Hl.
  { by apply elem_of_nil in Hl. }
  cbn [foldl]. destruct (decide (l ∈ labs)) as [Hin|Hnin]; [by apply IH|].
  apply elem_of_cons in Hl as [->|Hl]; [|done].
  rewrite insert_labels_lookup_ne; [|done]. by rewrite lookup_insert_eq.
Qed.

(** Every record of a shell of [binned_df] ends, under every label, with
    the last value that [record_writes] gives that label, or with the zero
    it started from; the frame gains the columns of the labels and nothing
    else. *)
Lemma calc_maps_record h B hh row j FP FC fo fc d :
  shell_record N h row j FP FC fo fc d →
  ∃ h' log (tmp : gmap string (list (C N))),
    calc_maps N h B hh = Some (h', map_labels N B hh, log) ∧
    log = LogText N "Calculating maps.."
          :: concat (calc_maps_events N B hh FP FC (df_d N h) (df_bin N h)
                       <$> binned_df N h) ∧
    df N h' = foldl (λ m l, <[l := default [] (tmp !! l)]> m) (df N h)
                (map_labels N B hh) ∧
    ∀ l, l ∈ map_labels N B hh →
      df_at N h' l j =
        Some (apply_writes N
                (record_writes N B hh row (shell_Fo N h row FP) fo fc d)
                l (czero N)).
Proof.
  intros (HFP & HFC & Hnd & Hrow & Hb & Hfo & Hfc & Hd & Hj).
  unfold calc_maps. rewrite HFP, HFC. simpl.
  set (tmp0 := list_to_map _).
  set (st0 := (tmp0, [LogText N "Calculating maps.."])).
  pose proof (calc_maps_fold_log N B hh FP FC (df_d N h) (df_bin N h)
                (binned_df N h) st0) as Hlog.
  assert (∀ l, l ∈ map_labels N B hh →
            slot N (foldl (calc_maps_bin N B hh FP FC (df_d N h) (df_bin N h))
                      st0 (binned_df N h)).1 l j
            = Some (apply_writes N
                      (record_writes N B hh row (shell_Fo N h row FP)
                         fo fc d) l (czero N))) as Hslot.
  { intros l Hl. eapply calc_maps_fold_hit; try done.
    apply initial_tmp_slot; [apply map_labels_NoDup | done | done]. }
  destruct (foldl _ st0 (binned_df N h)) as [tmp log].
  simpl in Hlog, Hslot. eexists _, log, tmp.
  split_and!; [done | done | done |].
  intros l Hl. unfold df_at, slot. simpl.
  rewrite insert_labels_lookup; [|done].
  specialize (Hslot l Hl). unfold slot in Hslot.
  by destruct (tmp !! l) as [col|].
Qed.

(** A record that lies in no shell of [binned_df] keeps the zero. *)
Lemma calc_maps_unbinned h B hh FP FC j l :
  df N h !! "FP" = Some FP → df N h !! "FC" = Some FC →
  (∀ row, row ∈ binned_df N h → df_bin N h !! j ≠ Some (row_bin N row)) →
  j < length (df_hkl N h) → l ∈ map_labels N B hh →
  ∃ h' log, calc_maps N h B hh = Some (h', map_labels N B hh, log) ∧
            df_at N h' l j = Some (czero N).
Proof.
  intros HFP HFC Hrows Hj Hl. unfold calc_maps. rewrite HFP, HFC. simpl.
  set (tmp0 := list_to_map _).
  set (st0 := (tmp0, [LogText N "Calculating maps.."])).
  assert (slot N (foldl (calc_maps_bin N B hh FP FC (df_d N h) (df_bin N h))
                    st0 (binned_df N h)).1 l j = Some (czero N)) as Hslot.
  { rewrite calc_maps_fold_miss.
    - apply initial_tmp_slot; [apply map_labels_NoDup | done | done].
    - intros row Hrow Hsel. apply (Hrows row Hrow).
      unfold bin_mask in Hsel. rewrite list_lookup_fmap in Hsel.
      destruct (df_bin N h !! j) as [b|]; [|done]. simpl in Hsel.
      injection Hsel as Hsel. apply bool_decide_eq_true in Hsel. by subst. }
  destruct (foldl _ st0 (binned_df N h)) as [tmp log].
  simpl in Hslot. eexists _, _. split; [done|].
  unfold df_at, slot. simpl. rewrite insert_labels_lookup; [|done].
  unfold slot in Hslot. by destruct (tmp !! l) as [col|].
Qed.
End calc_maps_facts.

(** ** The map coefficients *)

Section calc_maps_theorems.
Context (N : Numeric).
Implicit Types (h : HklData N) (l : string) (j : nat) (row : bin_row N).

Lemma writes_plain B row Fo fo fc d c0 :
  apply_writes N (record_writes N B false row Fo fo fc d) "DELFWT" c0
  = delfwt_plain N (row_D N row) fo fc.
Proof. reflexivity. Qed.

Lemma writes_delfwt_noscale B row Fo fo fc d c0 :
  apply_writes N (record_writes N B true row Fo fo fc d) "DELFWT_noscale" c0
  = delfwt_raw N (row_D N row) (row_S N row) (row_var_noise N row) fo fc.
Proof.
  unfold record_writes. simpl negb. cbv iota.
  destruct (norm_skipped N _); [reflexivity|]. by destruct B.
Qed.

Lemma writes_fwt_noscale B row Fo fo fc d c0 :
  apply_writes N (record_writes N B true row Fo fo fc d) "FWT_noscale" c0
  = fwt_raw N (row_D N row) (row_S N row) (row_var_noise N row) fo fc.
Proof.
  unfold record_writes. simpl negb. cbv iota.
  destruct (norm_skipped N _); [reflexivity|]. by destruct B.
Qed.

Lemma map_labels_half B l :
  l ∈ ["DELFWT"; "FWT"; "DELFWT_noscale"; "FWT_noscale"] →
  l ∈ map_labels N B true.
Proof. intros Hl. unfold map_labels. apply elem_of_app. by left. Qed.

Lemma map_labels_blur (B : R N) l :
  l ∈ ["DELFWT_b0"; "FWT_b0"] → l ∈ map_labels N (Some B) true.
Proof. intros Hl. unfold map_labels. apply elem_of_app. by right. Qed.


Lemma elem_of_concat {A} (x : A) (ls : list (list A)) :
  x ∈ concat ls ↔ ∃ xs, xs ∈ ls ∧ x ∈ xs.
Proof.
  induction ls as [|xs0 ls IH]; simpl.
  - split; [intros H; by apply elem_of_nil in H|].
    intros (xs & H & _). by apply elem_of_nil in H.
  - rewrite elem_of_app, IH. split.
    + intros [H|(xs & Hl & Hx)].
      * exists xs0. split; [apply list_elem_of_here | done].
      * exists xs. split; [by apply list_elem_of_further | done].
    + intros (xs & Hl & Hx). apply elem_of_cons in Hl as [->|Hl].
      * by left.
      * right. by exists xs.
Qed.

Lemma calc_maps_events_warn B FP FC ds bins row i s f :
  WarnBinNorm N i s f ∈ calc_maps_events N B true FP FC ds bins row ↔
  i = row_bin N row ∧ s = np_std N (select (bin_mask (row_bin N row) bins) FP)
  ∧ f = row_FSCfull N row
  ∧ norm_skipped N
      (norm_factor N (row_FSCfull N row)
         (select (bin_mask (row_bin N row) bins) FP)) = true.
Proof.
  unfold calc_maps_events, calc_maps_bin, norm_skipped, norm_factor.
  simpl negb. cbv iota.
  destruct (rltb N _ _ || rneb N _ _); [|destruct B]; cbn [snd app].
  - rewrite list_elem_of_singleton. split.
    + by intros [= -> -> ->].
    + by intros (-> & -> & -> & _).
  - rewrite list_elem_of_singleton. split; [done | by intros (_ & _ & _ & ?)].
  - split; [intros H; by apply elem_of_nil in H | by intros (_ & _ & _ & ?)].
Qed.

(** A warning that names a shell is in the log of [calc_maps] exactly when
    the normalization factor of that shell fails the test. *)
Lemma calc_maps_log_warn B FP FC ds bins (rows : list (bin_row N)) row :
  NoDup (row_bin N <$> rows) → row ∈ rows →
  (∃ s f,
     WarnBinNorm N (row_bin N row) s f
     ∈ LogText N "Calculating maps.."
       :: concat (calc_maps_events N B true FP FC ds bins <$> rows)) ↔
  norm_skipped N
    (norm_factor N (row_FSCfull N row)
       (select (bin_mask (row_bin N row) bins) FP)) = true.
Proof.
  intros Hnd Hrow. split.
  - intros (s & f & Hin). apply elem_of_cons in Hin as [?|Hin]; [done|].
    apply elem_of_concat in Hin as (evs & Hevs & Hin).
    apply list_elem_of_fmap in Hevs as (row' & -> & Hrow').
    apply calc_maps_events_warn in Hin as (Hid & _ & _ & Hskip).
    assert (row' = row) as ->; [|done].
    apply list_elem_of_lookup in Hrow as (a & Ha).
    apply list_elem_of_lookup in Hrow' as (b & Hb).
    assert (a = b) as ->; [|congruence].
    eapply NoDup_lookup; [done | |].
    + rewrite list_lookup_fmap, Ha. done.
    + rewrite list_lookup_fmap, Hb. simpl. by rewrite Hid.
  - intros Hskip. eexists _, _. apply list_elem_of_further.
    apply elem_of_concat. eexists. split.
    + apply list_elem_of_fmap. by exists row.
    + by apply calc_maps_events_warn.
Qed.

Lemma writes_norm_skipped B row Fo fo fc d l c0 :
  norm_skipped N (norm_factor N (row_FSCfull N row) Fo) = true →
  l ∈ ["DELFWT"; "FWT"; "DELFWT_b0"; "FWT_b0"] →
  apply_writes N (record_writes N B true row Fo fo fc d) l c0 = c0.
Proof.
  intros Hskip Hl. unfold record_writes. simpl negb. cbv iota.
  rewrite Hskip.
  repeat (apply elem_of_cons in Hl as [->|Hl]; [reflexivity|]).
  by apply elem_of_nil in Hl.
Qed.

Lemma writes_normalized B row Fo fo fc d c0 :
  norm_skipped N (norm_factor N (row_FSCfull N row) Fo) = false →
  let lab_suf := match B with Some _ => "_b0" | None => "" end in
  let D := row_D N row in
  let S := row_S N row in
  let varn := row_var_noise N row in
  let n_fo := norm_factor N (row_FSCfull N row) Fo in
  apply_writes N (record_writes N B true row Fo fo fc d)
    ("DELFWT" +:+ lab_suf) c0 = cdivr N (delfwt_raw N D S varn fo fc) n_fo ∧
  apply_writes N (record_writes N B true row Fo fo fc d)
    ("FWT" +:+ lab_suf) c0 = cdivr N (fwt_raw N D S varn fo fc) n_fo.
Proof.
  intros Hskip. cbv zeta. unfold record_writes. simpl negb. cbv iota.
  rewrite Hskip. by destruct B.
Qed.

Lemma map_labels_suffix B l :
  l ∈ ["DELFWT" +:+ match B with Some _ => "_b0" | None => "" end;
       "FWT" +:+ match B with Some _ => "_b0" | None => "" end] →
  l ∈ map_labels N B true.
Proof.
  intros Hl. destruct B as [B|].
  - apply (map_labels_blur B). exact Hl.
  - apply map_labels_half.
    apply elem_of_cons in Hl as [->|Hl]; [repeat constructor|].
    apply elem_of_cons in Hl as [->|Hl]; [repeat constructor|].
    by apply elem_of_nil in Hl.
Qed.


Lemma writes_blur (B : R N) row Fo fo fc d c0 :
  norm_skipped N (norm_factor N (row_FSCfull N row) Fo) = false →
  let D := row_D N row in
  let S := row_S N row in
  let varn := row_var_noise N row in
  let n_fo := norm_factor N (row_FSCfull N row) Fo in
  apply_writes N (record_writes N (Some B) true row Fo fo fc d) "DELFWT" c0
  = delfwt_blur N B D S varn n_fo fo fc d ∧
  apply_writes N (record_writes N (Some B) true row Fo fo fc d) "FWT" c0
  = fwt_blur N B D S varn n_fo fo fc d.
Proof.
  intros Hskip. cbv zeta. unfold record_writes. simpl negb. cbv iota.
  by rewrite Hskip.
Qed.

Lemma calc_maps_events_blur (B : R N) FP FC ds bins row :
  norm_skipped N
    (norm_factor N (row_FSCfull N row)
       (select (bin_mask (row_bin N row) bins) FP)) = false →
  ∃ a b c,
    calc_maps_events N (Some B) true FP FC ds bins row
    = [LogBlur N (row_bin N row)
         (norm_factor N (row_FSCfull N row)
            (select (bin_mask (row_bin N row) bins) FP))
         (np_std N (select (bin_mask (row_bin N row) bins) FP))
         (np_average N
            (shell_fsc_l N B (row_FSCfull N row)
               (bin_mask (row_bin N row) bins) ds))
         a b c].
Proof.
  unfold calc_maps_events, calc_maps_bin, norm_skipped, norm_factor.
  simpl negb. cbv iota. intros ->. cbn [snd app]. by eexists _, _, _.
Qed.

Lemma shell_fsc_l_lookup (B FSCfull : R N) (bins : list Z) ds i_bin j d :
  bins !! j = Some i_bin → ds !! j = Some d →
  shell_fsc_l N B FSCfull (bin_mask i_bin bins) ds
    !! mask_rank (bin_mask i_bin bins) j
  = Some (fsc_l_of N FSCfull (blur_factor N B false d)).
Proof.
  intros Hb Hd.
  assert (bin_mask i_bin bins !! j = Some true) as Hsel.
  { rewrite (bin_mask_lookup _ _ _ _ Hb). by rewrite bool_decide_eq_true_2. }
  unfold shell_fsc_l, blur_fsc_l, blur_k.
  rewrite !list_lookup_fmap, select_lookup, Hd; done.
Qed.

End calc_maps_theorems.

(** ** The per-shell statistics *)

Section statistics_theorems.
Context (N : Numeric).
Implicit Types (h : HklData N) (row : bin_row N).


End statistics_theorems.

(** ** The observed amplitude *)

Section observed_amplitude.
Context (N : Numeric).
Implicit Types (h : HklData N) (asu : list (Z * Z * Z * C N)).

Lemma elem_of_merge_pairs (left right : list (Z * Z * Z)) i k :
  (i, k) ∈ merge_pairs left right ↔
  ∃ x, left !! i = Some x ∧ right !! k = Some x.
Proof.
  unfold merge_pairs. rewrite list_elem_of_bind. split.
  - intros ([i' x] & Hik & Hi).
    apply elem_of_lookup_imap in Hi as (i0 & x0 & Heq & Hi). simplify_eq.
    apply list_elem_of_fmap in Hik as ([k' y] & Heq & Hk). simpl in Heq.
    simplify_eq.
    apply list_elem_of_filter in Hk as [Hy Hk]. simpl in Hy. subst.
    apply elem_of_lookup_imap in Hk as (k0 & y0 & Heq & Hk). simplify_eq.
    eexists. split; eauto.
  - intros (x & Hi & Hk). exists (i, x). split.
    + apply list_elem_of_fmap. exists (k, x). split; [done|].
      apply list_elem_of_filter. split; [done|].
      apply elem_of_lookup_imap. by exists k, x.
    + apply elem_of_lookup_imap. by exists i, x.
Qed.

Lemma gather_lookup {A} (dflt : A) idx (a : list A) p i x :
  idx !! p = Some i → a !! i = Some x → gather dflt idx a !! p = Some x.
Proof.
  intros Hp Hi. unfold gather. rewrite list_lookup_fmap, Hp. simpl.
  by rewrite Hi.
Qed.

Lemma merged_halves_frame (unit_cell : R N * R N * R N) asu0 asu1 :
  merge_asu_data N
    (hkldata_of_frame N unit_cell (df_from_asu_data N asu0 "F_map1"))
    asu1 "F_map2"
  = Some (mkHklData N unit_cell
            (gather (0, 0, 0)%Z (merge_pairs asu0.*1 asu1.*1).*1 asu0.*1)
            (<["F_map2" :=
                 gather (czero N) (merge_pairs asu0.*1 asu1.*1).*2 asu1.*2]>
               {["F_map1" :=
                   gather (czero N) (merge_pairs asu0.*1 asu1.*1).*1
                     asu0.*2]})
            [] [] [] []).
Proof.
  unfold merge_asu_data, hkldata_of_frame, df_from_asu_data. simpl.
  rewrite bool_decide_eq_false_2.
  - by rewrite map_fmap_singleton.
  - rewrite lookup_singleton_ne; [|done]. by intros [? ?].
Qed.

Lemma lookup_pair_fst {A B} (l : list (A * B)) i x :
  l.*1 !! i = Some x → ∃ y, l !! i = Some (x, y) ∧ l.*2 !! i = Some y.
Proof.
  rewrite !list_lookup_fmap. destruct (l !! i) as [[a b]|]; [|done].
  simpl. intros [= ->]. by exists b.
Qed.

Lemma calc_D_and_S_reads_FP h (has_halfmaps : bool) :
  (λ r, (binned_df N r.1, r.2))
    <$> calc_D_and_S N (without_halves N h) has_halfmaps
  = (λ r, (binned_df N r.1, r.2)) <$> calc_D_and_S N h has_halfmaps.
Proof.
  unfold calc_D_and_S, without_halves. simpl.
  rewrite !lookup_delete_ne by done.
  destruct (df N h !! "FP"); [|done]. simpl.
  by destruct (df N h !! "FC").
Qed.

Lemma calc_maps_reads_FP h B (has_halfmaps : bool) :
  (λ r, (new_columns N r.1.2 r.1.1, r.1.2, r.2))
    <$> calc_maps N (without_halves N h) B has_halfmaps
  = (λ r, (new_columns N r.1.2 r.1.1, r.1.2, r.2))
      <$> calc_maps N h B has_halfmaps.
Proof.
  unfold calc_maps, without_halves. simpl.
  rewrite !lookup_delete_ne by done.
  destruct (df N h !! "FP") as [FP|]; [|done]. simpl.
  destruct (df N h !! "FC") as [FC|]; [|done]. simpl.
  destruct (foldl _ _ (binned_df N h)) as [tmp log]. simpl.
  f_equal. f_equal. f_equal. unfold new_columns. simpl.
  apply list_fmap_ext. intros i lab Hl.
  apply list_elem_of_lookup_2 in Hl. by rewrite !insert_labels_lookup.
Qed.

End observed_amplitude.

(** ** Exact arithmetic *)

Section exact_facts.
Variables (sqrt exp : Qc → Qc).
Local Open Scope Qc_scope.
#[local] Abbreviation N := (Exact.numeric sqrt exp).

(** Dividing twice is dividing by the product. *)
Lemma exact_division_law (z : Exact.complex) (a b : Qc) :
  Exact.c_div (Exact.c_div z a) b = Exact.c_div z (a * b).
Proof.
  destruct z as [x y]. unfold Exact.c_div. cbn [fst snd].
  unfold Qcdiv. rewrite Qcinv_mult_distr. f_equal; ring.
Qed.

(** With the blur, in exact arithmetic, a record of a shell that passes the
    test of the normalization factor holds the quotients by the products
    [(S_l + varn)*n] and [(S_l + varn)*n*k]. *)
Lemma calc_maps_blur_exact (h : HklData (Exact.numeric sqrt exp)) row j
    FP FC fo fc d (B : R N) :
  let n_fo := norm_factor N (row_FSCfull N row) (shell_Fo N h row FP) in
  shell_record N h row j FP FC fo fc d →
  norm_skipped N n_fo = false →
  ∃ h' labs log,
    calc_maps N h (Some B) true = Some (h', labs, log) ∧
    df_at N h' "DELFWT" j
    = Some (delfwt_blur_spec N B (row_D N row) (row_S N row)
              (row_var_noise N row) n_fo fo fc d) ∧
    df_at N h' "FWT" j
    = Some (fwt_blur_spec N B (row_D N row) (row_S N row)
              (row_var_noise N row) n_fo fo fc d).
Proof.
  cbv zeta. intros Hrec Hskip.
  destruct (calc_maps_record N h (Some B) true row j FP FC fo fc d Hrec)
    as (h' & log & tmp & Hcm & _ & _ & Hat).
  pose proof (writes_blur N B row (shell_Fo N h row FP) fo fc d (czero N)
                Hskip) as [H1 H2].
  cbv zeta in H1, H2.
  exists h', (map_labels N (Some B) true), log. split_and!; [done | |].
  - rewrite Hat, H1; [|apply map_labels_half; repeat constructor].
    unfold delfwt_blur, delfwt_blur_spec. cbv zeta. f_equal.
    apply exact_division_law.
  - rewrite Hat, H2; [|apply map_labels_half; repeat constructor].
    unfold fwt_blur, fwt_blur_spec. cbv zeta. f_equal.
    change (cdivr N) with Exact.c_div. change (rmul N) with Qcmult.
    rewrite !exact_division_law. f_equal. ring.
Qed.
End exact_facts.

(** ** Binary64 arithmetic and the data set *)

Section float_facts.
Local Open Scope float_scope.

Lemma eqb_zero_abs x : (x =? 0) = true → abs x = 0.
Proof.
  intros H. rewrite FloatAxioms.eqb_spec in H.
  rewrite <- (SF2Prim_Prim2SF (abs x)), abs_spec.
  change (Prim2SF 0) with (S754_zero false) in H.
  destruct (Prim2SF x) as [s| s | | s m e]; try discriminate; try reflexivity.
  all: destruct s; discriminate.
Qed.

(** A quotient by zero is infinite or not a number. *)
Lemma div_zero_not_finite x : is_finite (x / 0) = false.
Proof.
  rewrite <- (SF2Prim_Prim2SF (x / 0)), div_spec.
  change (Prim2SF 0) with (S754_zero false).
  destruct (Prim2SF x) as [s| s | | s m e]; try destruct s; reflexivity.
Qed.

Lemma c_div_zero z x :
  (x =? 0) = true →
  is_finite (Float64.c_div z (Float64.of_real x)).1 = false ∧
  is_finite (Float64.c_div z (Float64.of_real x)).2 = false.
Proof.
  intros H. destruct z as [a b]. unfold Float64.c_div, Float64.of_real.
  rewrite (eqb_zero_abs x H).
  change (abs 0 <=? 0) with true. change ((0 =? 0) && (abs 0 =? 0)) with true.
  cbn [fst snd]. split; apply div_zero_not_finite.
Qed.

Lemma lookup_default_Some {A} (l : list A) (i : nat) (d : A) :
  (i < length l)%nat → l !! i = Some (default d (l !! i)).
Proof. intros H. by destruct (lookup_lt_is_Some_2 l i H) as [x ->]. Qed.

Ltac example_record i :=
  unfold shell_record, Example.row; split_and!;
  [ vm_compute; reflexivity | vm_compute; reflexivity
  | apply (bool_decide_unpack _); vm_compute; exact I
  | apply (list_elem_of_lookup_2 _ i), lookup_default_Some; vm_compute; lia
  | vm_compute; reflexivity | vm_compute; reflexivity
  | vm_compute; reflexivity | vm_compute; reflexivity
  | vm_compute; lia ].

(** Record 0 lies in the first shell, record 10 in the second and record 12
    in the third. *)
Lemma example_record_first :
  shell_record Float64.numeric Example.statistics (Example.row 0) 0
    (Example.column "FP") (Example.column "FC")
    (Example.record "FP" 0) (Example.record "FC" 0) (Example.spacing 0).
Proof. example_record 0%nat. Qed.

Lemma example_record_last :
  shell_record Float64.numeric Example.statistics (Example.row 2) 12
    (Example.column "FP") (Example.column "FC")
    (Example.record "FP" 12) (Example.record "FC" 12) (Example.spacing 12).
Proof. example_record 2%nat. Qed.






End float_facts.

Section example_witnesses.
Local Open Scope float_scope.



(** Record 0 of the run with [B = 10]: the quotient by [S_l + varn] and
    then by [n], as the code has it, and the quotient by the product differ
    in the last digit. *)
Lemma blur_quotient_rounding :
  df_at Float64.numeric (Example.coefficients (Some 10)) "DELFWT" 0
  = Some ((-0x1.25e5a97704e7bp-7), 0x1.d5498e98e2ab6p-7) ∧
  delfwt_blur_spec Float64.numeric 10
    (row_D Float64.numeric (Example.row 0))
    (row_S Float64.numeric (Example.row 0))
    (row_var_noise Float64.numeric (Example.row 0))
    (norm_factor Float64.numeric
       (row_FSCfull Float64.numeric (Example.row 0))
       (shell_Fo Float64.numeric Example.statistics (Example.row 0)
          (Example.column "FP")))
    (Example.record "FP" 0) (Example.record "FC" 0) (Example.spacing 0)
  = ((-0x1.25e5a97704e7ap-7), 0x1.d5498e98e2ab5p-7).
Proof. split; vm_compute; reflexivity. Qed.


End example_witnesses.

(** ** The index sets of the shells *)

Section sweep_invariant.
Implicit Types (d : list (Z * Z)).
Context (P : Z → Z → Prop).
Hypothesis P_trans : ∀ k t t', P k t → P t t' → P k t'.

Lemma sweep_preserves keys d flag :
  (∀ k v, dict_get k d = Some v → P k v) →
  ∀ k v, dict_get k (sweep keys d flag).1 = Some v → P k v.
Proof.
  revert d flag. induction keys as [|k0 keys IH]; intros d flag Hd; simpl;
    [done|].
  destruct (dict_get k0 d) as [t|] eqn:Hk; [|by apply IH].
  destruct (dict_get t d) as [t'|] eqn:Ht; [|by apply IH].
  apply IH. intros k v Hkv. destruct (decide (k0 = k)) as [->|Hne].
  - rewrite dict_get_set_eq in Hkv. injection Hkv as <-.
    eapply P_trans; by apply Hd.
  - rewrite dict_get_set_ne in Hkv; [by apply Hd | done].
Qed.

Lemma resolve_preserves fuel d d' :
  (∀ k v, dict_get k d = Some v → P k v) →
  resolve fuel d = Some d' →
  ∀ k v, dict_get k d' = Some v → P k v.
Proof.
  revert d. induction fuel as [|fuel IH]; intros d Hd; [done|]. simpl.
  pose proof (sweep_preserves (dict_keys d) d true Hd) as Hs.
  destruct (sweep (dict_keys d) d true) as [d1 [|]]; simpl in Hs.
  - by intros [= <-].
  - by apply IH.
Qed.
End sweep_invariant.


Section shell_targets.
Implicit Types (ids : list Z) (mt : list (Z * Z)).

Lemma pass_end_range f b p : f ≤ b → f ≤ pass_end f b p ≤ Nat.max b p.
Proof. intros. unfold pass_end. repeat case_decide; lia. Qed.

Lemma pass_end_fixed f b p : f ≤ p ≤ b → pass_end f b p = p.
Proof. intros. unfold pass_end. repeat case_decide; lia. Qed.

(** A shell id is a key of the table of the two passes exactly when its
    position is below [f] or above [b]. *)
Lemma pass_key_position ids f b p x :
  NoDup ids → ids !! p = Some x →
  x ∈ take f ids ++ reverse (drop (S b) ids) ↔ p < f ∨ b < p.
Proof.
  intros Hnd Hp. rewrite elem_of_app, elem_of_reverse. split.
  - intros [Hx|Hx].
    + apply elem_of_take in Hx as (i & Hi & Hif).
      pose proof (NoDup_lookup _ _ _ _ Hnd Hp Hi). lia.
    + apply list_elem_of_lookup in Hx as (i & Hi).
      rewrite lookup_drop in Hi.
      pose proof (NoDup_lookup _ _ _ _ Hnd Hp Hi). lia.
  - intros [Hlt|Hgt].
    + left. apply elem_of_take. by exists p.
    + right. apply list_elem_of_lookup. exists (p - S b).
      rewrite lookup_drop. by replace (S b + (p - S b)) with p by lia.
Qed.

Lemma same_end_trans ids f b k t t' :
  NoDup ids → same_end ids f b k t → same_end ids f b t t' →
  same_end ids f b k t'.
Proof.
  intros Hnd (p & q & Hp & Hq & He) (p' & q' & Hp' & Hq' & He').
  pose proof (NoDup_lookup _ _ _ _ Hnd Hq Hp') as ->.
  exists p, q'. split_and!; [done | done | congruence].
Qed.

Lemma pass_table_same_end ids f b k v :
  NoDup ids → f ≤ b < length ids →
  dict_get k (forward_entries ids 0 f ++ backward_entries ids b (length ids))
  = Some v →
  same_end ids f b k v.
Proof.
  intros Hnd Hfb Hkv. apply dict_get_Some_elem in Hkv.
  apply elem_of_app in Hkv as [Hkv|Hkv];
    apply list_elem_of_fmap in Hkv as (j & [= -> ->] & Hj).
  - apply elem_of_seq in Hj. exists j, (S j). split_and!.
    + apply list_lookup_lookup_total_lt. lia.
    + apply list_lookup_lookup_total_lt. lia.
    + unfold pass_end. repeat case_decide; lia.
  - apply elem_of_reverse, elem_of_seq in Hj. exists j, (j - 1). split_and!.
    + apply list_lookup_lookup_total_lt. lia.
    + apply list_lookup_lookup_total_lt. lia.
    + unfold pass_end. repeat case_decide; lia.
Qed.

(** In the resolved table every key points to the shell at the end of its
    run. *)
Lemma resolved_target ids f b mt' p k v :
  NoDup ids → f ≤ b →
  dict_keys mt' = take f ids ++ reverse (drop (S b) ids) →
  fully_resolved mt' →
  (∀ k v, dict_get k mt' = Some v → same_end ids f b k v) →
  ids !! p = Some k → dict_get k mt' = Some v →
  ids !! pass_end f b p = Some v.
Proof.
  intros Hnd Hfb Hkeys Hfr Hsame Hp Hkv.
  destruct (Hsame k v Hkv) as (p' & q & Hp' & Hq & He).
  pose proof (NoDup_lookup _ _ _ _ Hnd Hp Hp') as <-.
  assert (v ∉ dict_keys mt') as Hv.
  { eapply Hfr. by apply dict_get_Some_elem. }
  rewrite Hkeys, (pass_key_position ids f b q v Hnd Hq) in Hv.
  rewrite <- He, pass_end_fixed; [done | lia].
Qed.

Lemma apply1_resolved_get mt b v :
  fully_resolved mt → dict_get b mt = Some v → apply1 mt b = v.
Proof.
  revert b. induction mt as [|[k v0] mt IH]; intros b Hfr Hb; [done|].
  pose proof (fully_resolved_cons _ _ Hfr) as Hfr'.
  assert (apply1 ((k, v0) :: mt) b
          = apply1 mt (if decide (b = k) then v0 else b)) as -> by done.
  simpl in Hb. destruct (decide (b = k)) as [->|Hne].
  - injection Hb as ->. apply apply1_not_key.
    assert (v ∉ dict_keys ((k, v) :: mt)) as Hv.
    { apply (Hfr k v). apply list_elem_of_here. }
    unfold dict_keys in *. rewrite fmap_cons in Hv.
    by apply not_elem_of_cons in Hv as [_ Hv].
  - by apply IH.
Qed.

(** What the resolved table does to a shell id. *)
Lemma apply1_pass_end ids f b mt' p x :
  NoDup ids → f ≤ b →
  dict_keys mt' = take f ids ++ reverse (drop (S b) ids) →
  fully_resolved mt' →
  (∀ k v, dict_get k mt' = Some v → same_end ids f b k v) →
  ids !! p = Some x →
  ids !! pass_end f b p = Some (apply1 mt' x).
Proof.
  intros Hnd Hfb Hkeys Hfr Hsame Hp.
  destruct (dict_get x mt') as [v|] eqn:Hx.
  - rewrite (apply1_resolved_get _ _ _ Hfr Hx).
    by eapply resolved_target.
  - apply dict_get_None in Hx.
    rewrite (apply1_not_key _ _ Hx).
    rewrite Hkeys, (pass_key_position ids f b p x Hnd Hp) in Hx.
    rewrite pass_end_fixed; [done | lia].
Qed.
End shell_targets.


Section index_sets.
Implicit Types (bc : list shell) (mt : list (Z * Z)).

Lemma forward_members bc bc1 mt1 f p j :
  forward_outcome bc bc1 mt1 f → p ≤ f →
  j ∈ (bc1 !!! p).2 ↔ ∃ q, q ≤ p ∧ j ∈ (bc !!! q).2.
Proof.
  intros (_ & _ & Hmerge & _ & Hsame & _). induction p as [|p IH]; intros Hp.
  - rewrite Hsame; [|by left]. split.
    + intros Hj. by exists 0.
    + intros (q & Hq & Hj). by replace q with 0 in Hj by lia.
  - destruct (Hmerge p) as (_ & _ & -> & _); [lia|].
    rewrite elem_of_union, IH; [|lia]. split.
    + intros [Hj|(q & Hq & Hj)]; [by exists (S p)|]. exists q. split; [lia|done].
    + intros (q & Hq & Hj). destruct (decide (q = S p)) as [->|Hne];
        [by left|]. right. exists q. split; [lia|done].
Qed.

Lemma backward_members bc1 bc2 mt1 mt2 b p j :
  backward_outcome bc1 bc2 mt1 mt2 b → b ≤ p < length bc1 →
  j ∈ (bc2 !!! p).2 ↔ ∃ q, p ≤ q < length bc1 ∧ j ∈ (bc1 !!! q).2.
Proof.
  intros (_ & _ & Hmerge & _ & Hsame & _) Hp.
  remember (length bc1 - S p) as k eqn:Hk. revert p Hp Hk.
  induction k as [|k IH]; intros p Hp Hk.
  - rewrite Hsame; [|right; lia]. split.
    + intros Hj. exists p. split; [lia|done].
    + intros (q & Hq & Hj). by replace q with p in Hj by lia.
  - destruct (Hmerge (S p)) as (_ & Hu & _); [lia|].
    replace (S p - 1) with p in Hu by lia. rewrite Hu.
    rewrite elem_of_union, (IH (S p)); [|lia|lia]. split.
    + intros [Hj|(q & Hq & Hj)].
      * exists p. split; [lia|done].
      * exists q. split; [lia|done].
    + intros (q & Hq & Hj). destruct (decide (q = p)) as [->|Hne];
        [by left|]. right. exists q. split; [lia|done].
Qed.

(** The members of a shell that survives the two passes are the records of
    the shells that end in it. *)
Lemma pass_members bc bc1 bc2 mt1 mt2 f b p j :
  f ≤ b →
  forward_outcome bc bc1 mt1 f → backward_outcome bc1 bc2 mt1 mt2 b →
  f ≤ p ≤ b →
  j ∈ (bc2 !!! p).2 ↔
  ∃ q, q < length bc ∧ pass_end f b q = p ∧ j ∈ (bc !!! q).2.
Proof.
  intros Hfb Hfw Hbw Hp.
  assert (length bc1 = length bc) as Hlen.
  { destruct Hfw as (_ & Hid & _).
    by rewrite <- (length_fmap fst bc1), Hid, length_fmap. }
  assert (f < length bc) as Hf by apply Hfw.
  assert (b < length bc) as Hb by (rewrite <- Hlen; apply Hbw).
  assert (∀ q, f < q → bc1 !!! q = bc !!! q) as Hsame1.
  { intros q Hq. destruct Hfw as (_ & _ & _ & _ & Hs & _). apply Hs. by right. }
  assert (∀ q, q < b → bc2 !!! q = bc1 !!! q) as Hsame2.
  { intros q Hq. destruct Hbw as (_ & _ & _ & _ & Hs & _). apply Hs. by left. }
  destruct (decide (p < b)) as [Hpb|Hpb].
  - rewrite Hsame2; [|done].
    destruct (decide (p = f)) as [->|Hpf].
    + rewrite (forward_members _ _ _ _ _ _ Hfw); [|done]. split.
      * intros (q & Hq & Hj). exists q. split_and!; [lia | | done].
        unfold pass_end. repeat case_decide; lia.
      * intros (q & Hq & He & Hj). exists q. split; [|done].
        unfold pass_end in He. repeat case_decide; lia.
    + rewrite Hsame1; [|lia]. split.
      * intros Hj. exists p. split_and!; [lia | | done].
        apply pass_end_fixed. lia.
      * intros (q & Hq & He & Hj).
        assert (q = p) as -> by (unfold pass_end in He; repeat case_decide; lia).
        done.
  - assert (p = b) as -> by lia.
    rewrite (backward_members _ _ _ _ _ _ _ Hbw); [|lia]. rewrite Hlen.
    split.
    + intros (q & Hq & Hj). destruct (decide (f < q)) as [Hfq|Hfq].
      * rewrite Hsame1 in Hj; [|done]. exists q. split_and!; [lia | | done].
        unfold pass_end. repeat case_decide; lia.
      * assert (q = f) as -> by lia.
        apply (forward_members _ _ _ _ _ _ Hfw) in Hj as (q' & Hq' & Hj);
          [|done].
        exists q'. split_and!; [lia | | done].
        unfold pass_end. repeat case_decide; lia.
    + intros (q & Hq & He & Hj). destruct (decide (f < q)) as [Hfq|Hfq].
      * exists q. split.
        -- unfold pass_end in He. repeat case_decide; lia.
        -- by rewrite Hsame1.
      * exists f.
        assert (f = b) as Heq
          by (unfold pass_end in He; repeat case_decide; lia).
        split; [lia|].
        apply (forward_members _ _ _ _ _ _ Hfw); [done|].
        exists q. split; [lia|done].
Qed.
End index_sets.


Section binning_indices.
Context (N : Numeric).
Implicit Types (bins : list Z) (h : HklData N).

Lemma initial_bin_counts_members bins q g :
  initial_bin_counts bins !! q = Some g →
  g.1 ≠ 0%Z ∧ g.1 ∈ bins ∧ ∀ j, j ∈ g.2 ↔ bins !! j = Some g.1.
Proof.
  intros Hq. apply list_elem_of_lookup_2 in Hq. destruct g as [x m].
  apply elem_of_initial_bin_counts in Hq as (Hx & Hin & ->).
  split_and!; [done | done |]. intros j. apply elem_of_group_index.
Qed.

Lemma initial_bin_counts_position bins x :
  x ∈ bins → x ≠ 0%Z →
  ∃ q, (initial_bin_counts bins).*1 !! q = Some x.
Proof.
  intros Hin Hx. apply list_elem_of_lookup.
  apply list_elem_of_fmap. exists (x, group_index x bins).
  split; [done|]. by apply elem_of_initial_bin_counts.
Qed.

Lemma surviving_position mt' (bc2 : list shell) ids f b g :
  bc2.*1 = ids → NoDup ids →
  dict_keys mt' = take f ids ++ reverse (drop (S b) ids) →
  g ∈ surviving mt' bc2 ↔ ∃ p, f ≤ p ≤ b ∧ bc2 !! p = Some g.
Proof.
  intros Hids Hnd Hkeys. unfold surviving.
  rewrite list_elem_of_filter, list_elem_of_lookup.
  assert (∀ p, bc2 !! p = Some g →
            (dict_in g.1 mt' = false ↔ f ≤ p ≤ b)) as Hkey.
  { intros p Hp.
    assert (ids !! p = Some g.1) as Hp'.
    { by rewrite <- Hids, list_lookup_fmap, Hp. }
    unfold dict_in. rewrite bool_decide_eq_false. split.
    - intros Hno.
      assert (g.1 ∉ dict_keys mt') as Hk.
      { apply dict_get_None. destruct (dict_get g.1 mt') eqn:E; [|done].
        exfalso. apply Hno. by eexists. }
      rewrite Hkeys, (pass_key_position ids f b p g.1 Hnd Hp') in Hk. lia.
    - intros Hfb [v Hv]. apply dict_get_Some_key in Hv.
      rewrite Hkeys, (pass_key_position ids f b p g.1 Hnd Hp') in Hv. lia. }
  split.
  - intros [Hk (p & Hp)]. exists p. split; [by apply Hkey|done].
  - intros (p & Hfb & Hp). split; [by apply (Hkey p)|by exists p].
Qed.

Lemma initial_bin_counts_id bins q x :
  (initial_bin_counts bins).*1 !! q = Some x → x ≠ 0%Z ∧ x ∈ bins.
Proof.
  rewrite list_lookup_fmap. intros Hq.
  destruct (initial_bin_counts bins !! q) as [g|] eqn:Hg; [|done].
  injection Hq as <-.
  by destruct (initial_bin_counts_members _ _ _ Hg) as (? & ? & _).
Qed.

Lemma resolve_nil fuel mt' : resolve fuel [] = Some mt' → mt' = [].
Proof. destruct fuel; [done|]. by intros [= <-]. Qed.

(** The shells that are left, their index sets and the bin column after
    the table has been applied. *)
Lemma binning_core bins fuel mt' :
  let bc := initial_bin_counts bins in
  let shells := surviving mt' (merge_passes bc).1 in
  let final := apply_table mt' bins in
  resolve fuel (merge_passes bc).2 = Some mt' →
  NoDup shells.*1 ∧
  (∀ g, g ∈ shells →
     g.1 ≠ 0%Z ∧ ∀ j, j ∈ g.2 ↔ final !! j = Some g.1) ∧
  (∀ j x, final !! j = Some x → x = 0%Z ∨ x ∈ shells.*1) ∧
  (∀ j, final !! j = Some 0%Z ↔ bins !! j = Some 0%Z).
Proof.
  cbv zeta. intros Hres.
  set (bc := initial_bin_counts bins) in *.
  pose proof (initial_bin_counts_NoDup bins) as Hnd. fold bc in Hnd.
  pose proof (merge_passes_ids _ Hnd) as Hids2.
  assert (NoDup (surviving mt' (merge_passes bc).1).*1) as Hnds.
  { apply (sublist_NoDup _ (merge_passes bc).1.*1); [by rewrite Hids2|].
    apply fmap_sublist, sublist_filter. }
  assert (∀ j, apply_table mt' bins !! j = apply1 mt' <$> bins !! j) as Hfin.
  { intros j. by rewrite apply_table_fmap, list_lookup_fmap. }
  destruct (decide (length bc = 0)) as [Hz|Hpos].
  { (* no shell: every record belongs to the DC component *)
    apply nil_length_inv in Hz.
    assert (∀ x, x ∈ bins → x = 0%Z) as Hzero.
    { intros x Hx. destruct (decide (x = 0%Z)) as [|Hne]; [done|].
      destruct (initial_bin_counts_position bins x Hx Hne) as (q & Hq).
      fold bc in Hq. by rewrite Hz in Hq. }
    rewrite Hz, merge_passes_nil in Hres |- *. simpl in Hres |- *.
    apply resolve_nil in Hres as ->.
    split_and!; [constructor | | |].
    - intros g Hg. by apply elem_of_nil in Hg.
    - intros j x Hx. left. apply Hzero. rewrite Hfin in Hx.
      destruct (bins !! j) as [y|] eqn:Hy; [|done]. injection Hx as <-.
      apply list_elem_of_lookup_2 in Hy. done.
    - intros j. rewrite Hfin. destruct (bins !! j); simpl; [|done].
      split; intros [= ->]; done. }
  destruct (merge_passes_outcome bc Hnd) as (f & b & Hfb & Hfw & Hbw & Hmt);
    [lia|].
  rewrite merge_passes_eq in Hres, Hids2, Hnds |- *.
  set (r1 := forward_pass bc []) in *.
  set (r2 := backward_pass r1.1 r1.2) in *.
  set (ids := bc.*1) in *.
  assert (length ids = length bc) as Hlen by apply length_fmap.
  assert (b < length bc) as Hb.
  { destruct Hbw as (Hb & _). destruct Hfw as (_ & Hid & _).
    by rewrite <- (length_fmap fst r1.1), Hid, length_fmap in Hb. }
  (* the resolved table *)
  destruct (merge_passes_resolve bc (S (Nat.max fuel (length bc * length bc)))
              Hnd) as (mt2 & Hres2 & Hkeys & _ & Hfr); [lia|].
  rewrite merge_passes_eq in Hres2, Hkeys. fold r1 r2 in Hres2, Hkeys.
  assert (mt2 = mt') as ->.
  { pose proof (resolve_fuel_mono fuel
                  (S (Nat.max fuel (length bc * length bc))) _ _ Hres) as H.
    rewrite H in Hres2; [congruence | lia]. }
  assert (dict_keys mt' = take f ids ++ reverse (drop (S b) ids)) as Hk.
  { rewrite Hkeys. destruct Hbw as (_ & _ & _ & _ & _ & _ & ->).
    destruct Hfw as (_ & -> & _ & _ & _ & ->). done. }
  assert (∀ k v, dict_get k mt' = Some v → same_end ids f b k v) as Hsame.
  { apply (resolve_preserves (same_end ids f b)) with (fuel := fuel) (d := r2.2).
    - intros k t t'. by apply same_end_trans.
    - intros k v. rewrite Hmt. rewrite <- Hlen in Hb.
      rewrite <- Hlen. apply pass_table_same_end; [done | lia].
    - done. }
  assert (∀ q x, ids !! q = Some x →
            ids !! pass_end f b q = Some (apply1 mt' x)) as Hend.
  { intros q x Hq. by apply (apply1_pass_end ids f b mt' q x). }
  assert (∀ q x j, ids !! q = Some x →
            j ∈ (bc !!! q).2 ↔ bins !! j = Some x) as Hmem.
  { intros q x j Hq. unfold ids in Hq. rewrite list_lookup_fmap in Hq.
    destruct (bc !! q) as [g|] eqn:Hg; [|done]. injection Hq as <-.
    rewrite (list_lookup_total_correct _ _ _ Hg).
    by destruct (initial_bin_counts_members _ _ _ Hg) as (_ & _ & ?). }
  assert (apply1 mt' 0 = 0%Z) as Hdc.
  { apply apply1_not_key. rewrite Hk. intros H0.
    assert (0%Z ∈ ids) as Hin.
    { apply elem_of_app in H0 as [H0|H0].
      - apply elem_of_take in H0 as (i & Hi & _).
        by eapply list_elem_of_lookup_2.
      - rewrite elem_of_reverse in H0.
        apply list_elem_of_lookup in H0 as (i & Hi). rewrite lookup_drop in Hi.
        by eapply list_elem_of_lookup_2. }
    apply list_elem_of_lookup in Hin as (q & Hq).
    by destruct (initial_bin_counts_id _ _ _ Hq). }
  split_and!; [done | | |].
  - intros g Hg.
    apply (surviving_position mt' r2.1 ids f b g Hids2 Hnd Hk) in Hg
      as (p & Hp & Hg).
    assert (ids !! p = Some g.1) as Hgp.
    { by rewrite <- Hids2, list_lookup_fmap, Hg. }
    split; [by destruct (initial_bin_counts_id _ _ _ Hgp)|].
    intros j.
    pose proof (pass_members bc r1.1 r2.1 r1.2 r2.2 f b p j Hfb Hfw Hbw Hp)
      as Hpm.
    rewrite (list_lookup_total_correct _ _ _ Hg) in Hpm.
    rewrite Hpm, Hfin. split.
    + intros (q & Hq & He & Hj).
      destruct (lookup_lt_is_Some_2 ids q) as [x Hx]; [lia|].
      apply (Hmem q x) in Hj; [|done]. rewrite Hj. simpl.
      pose proof (Hend q x Hx) as Hx'. rewrite He in Hx'. congruence.
    + intros Hj. destruct (bins !! j) as [x|] eqn:Hx; [|done].
      injection Hj as Hj.
      assert (x ≠ 0%Z) as Hx0.
      { intros ->. rewrite Hdc in Hj.
        by destruct (initial_bin_counts_id _ _ _ Hgp). }
      destruct (initial_bin_counts_position bins x) as (q & Hq);
        [by eapply list_elem_of_lookup_2 | done |].
      fold bc ids in Hq. exists q. split_and!.
      * apply lookup_lt_Some in Hq. lia.
      * pose proof (Hend q x Hq) as Hx'. rewrite Hj in Hx'.
        by apply (NoDup_lookup _ _ _ _ Hnd Hx' Hgp).
      * by apply (Hmem q x).
  - intros j x. rewrite Hfin. intros Hx.
    destruct (bins !! j) as [y|] eqn:Hy; [|done]. injection Hx as <-.
    destruct (decide (y = 0%Z)) as [->|Hy0]; [by left|]. right.
    destruct (initial_bin_counts_position bins y) as (q & Hq);
      [by eapply list_elem_of_lookup_2 | done |].
    fold bc ids in Hq. pose proof (Hend q y Hq) as He.
    pose proof (pass_end_range f b q Hfb) as Hr.
    assert (q < length ids) as Hql by by eapply lookup_lt_Some.
    assert (f ≤ pass_end f b q ≤ b) as Hr'.
    { unfold pass_end. repeat case_decide; lia. }
    rewrite <- Hids2, list_lookup_fmap in He.
    destruct (r2.1 !! pass_end f b q) as [g|] eqn:Hg; [|done].
    injection He as He. rewrite <- He.
    apply list_elem_of_fmap. exists g. split; [done|].
    apply (surviving_position mt' r2.1 ids f b g Hids2 Hnd Hk).
    by exists (pass_end f b q).
  - intros j. rewrite Hfin. destruct (bins !! j) as [y|] eqn:Hy; [|done].
    simpl. split.
    + intros [= Hy0]. f_equal.
      destruct (decide (y = 0%Z)) as [|Hne]; [done|]. exfalso.
      destruct (initial_bin_counts_position bins y) as (q & Hq);
        [by eapply list_elem_of_lookup_2 | done |].
      fold bc ids in Hq. pose proof (Hend q y Hq) as He. rewrite Hy0 in He.
      by destruct (initial_bin_counts_id _ _ _ He).
    + intros [= ->]. by rewrite Hdc.
Qed.
End binning_indices.


Section binning_indices_theorem.
Context (N : Numeric).
Implicit Types (h : HklData N).

(** X1. When [setup_relion_binning] has returned, the rows of [binned_df]
    and the index sets of [binned()] carry the same shell ids, which are
    distinct and not 0; a record lies in the index set of a shell exactly
    when the [bin] column gives it that shell; every entry of the [bin]
    column is 0 or the id of a shell that is left; and the records with
    [bin] 0 are those whose raw id is 0. The loop runs out of fuel only
    below [n * n + 1] sweeps for [n] shells. *)
Theorem relion_binning_indices (fuel : nat) h :
  let max_edge := max_cell_edge N (cell N h) in
  let bins := relion_bin N max_edge <$> df_d N h in
  let bc := initial_bin_counts bins in
  match setup_relion_binning N fuel h with
  | None => fuel ≤ length bc * length bc
  | Some h' =>
      row_bin N <$> binned_df N h' = (bin_and_indices N h').*1 ∧
      NoDup (bin_and_indices N h').*1 ∧
      (∀ g, g ∈ bin_and_indices N h' →
         g.1 ≠ 0%Z ∧ ∀ j, j ∈ g.2 ↔ df_bin N h' !! j = Some g.1) ∧
      (∀ j x, df_bin N h' !! j = Some x →
         x = 0%Z ∨ x ∈ (bin_and_indices N h').*1) ∧
      (∀ j, df_bin N h' !! j = Some 0%Z ↔ bins !! j = Some 0%Z)
  end.
Proof.
  cbv zeta.
  set (bins := relion_bin N _ <$> df_d N h).
  set (bc := initial_bin_counts bins).
  pose proof (initial_bin_counts_NoDup bins) as Hnd. fold bc in Hnd.
  pose proof (binning_core bins fuel) as Hcore. cbv zeta in Hcore.
  fold bc in Hcore.
  unfold setup_relion_binning. fold bins bc.
  destruct (resolve fuel (merge_passes bc).2) as [mt'|] eqn:Hres.
  - specialize (Hcore mt' eq_refl).
    destruct (merge_passes bc) as [bc2 mt] eqn:Hmp. simpl in *.
    rewrite Hres. simpl.
    destruct Hcore as (H1 & H2 & H3 & H4).
    split_and!; [|done|done|done|done].
    rewrite <- list_fmap_compose. by apply list_fmap_ext.
  - pose proof (resolve_fuel_needed bc fuel Hnd Hres).
    destruct (merge_passes bc) as [bc2 mt]. simpl in *. by rewrite Hres.
Qed.

(** The table that [setup_relion_binning] returns is consistent when the
    column [d] has an entry for every record. *)
Lemma setup_relion_binning_consistent fuel h h' :
  length (df_d N h) = length (df_hkl N h) →
  setup_relion_binning N fuel h = Some h' →
  binned_consistent N h'.
Proof.
  intros Hlen Hsome.
  set (bins := relion_bin N (max_cell_edge N (cell N h)) <$> df_d N h).
  pose proof (binning_core bins fuel) as Hcore. cbv zeta in Hcore.
  unfold setup_relion_binning in Hsome. fold bins in Hsome.
  destruct (merge_passes (initial_bin_counts bins)) as [bc2 mt] eqn:Hmp.
  simpl in *.
  destruct (resolve fuel mt) as [mt'|] eqn:Hres; [|done].
  specialize (Hcore mt' eq_refl). injection Hsome as <-.
  destruct Hcore as (H1 & H2 & H3 & _).
  unfold binned_consistent. simpl. split_and!; [| |done|done|done].
  - rewrite apply_table_fmap, length_fmap. unfold bins.
    by rewrite length_fmap.
  - rewrite <- list_fmap_compose. by apply list_fmap_ext.
Qed.
End binning_indices_theorem.


(** ** A shell value for every record *)

Section binned_data_facts.
Context (N : Numeric).
Implicit Types (h : HklData N) (rows : list (bin_row N)).

Lemma binned_loc_None i_bin rows :
  binned_loc N i_bin rows = None ↔ i_bin ∉ row_bin N <$> rows.
Proof.
  unfold binned_loc. rewrite fmap_None, list_find_None, Forall_forall.
  rewrite list_elem_of_fmap. split.
  - intros H (row & -> & Hin). by apply (H row).
  - intros H row Hin Heq. apply H. by exists row.
Qed.

Lemma binned_loc_Some i_bin rows row :
  binned_loc N i_bin rows = Some row → row ∈ rows ∧ row_bin N row = i_bin.
Proof.
  unfold binned_loc. intros H. apply fmap_Some in H as ([i r] & Hf & ->).
  apply list_find_Some in Hf as (Hi & Hr & _). simpl.
  split; [by eapply list_elem_of_lookup_2 | done].
Qed.

Lemma assign_indices_Some {A} (idxes : gset nat) (v : A) vals :
  (∀ j, j ∈ idxes → j < length vals) →
  ∃ vals', assign_indices idxes v vals = Some vals' ∧
    length vals' = length vals ∧
    ∀ j, vals' !! j = if bool_decide (j ∈ idxes) then (λ _, v) <$> vals !! j
                      else vals !! j.
Proof.
  intros Hin. unfold assign_indices. rewrite bool_decide_eq_true_2; [|done].
  eexists. split_and!; [done | by rewrite length_imap |].
  intros j. rewrite list_lookup_imap. destruct (vals !! j); simpl;
    by case_bool_decide.
Qed.

Lemma binned_fold lab rows (l : list shell) vals0 :
  (∀ g, g ∈ l → is_Some (binned_loc N g.1 rows)) →
  (∀ g j, g ∈ l → j ∈ g.2 → j < length vals0) →
  (∀ g g' j, g ∈ l → g' ∈ l → j ∈ g.2 → j ∈ g'.2 → g.1 = g'.1) →
  ∃ vals,
    foldl
      (λ acc (g : shell),
         vals ← acc;
         row ← binned_loc N g.1 rows;
         assign_indices g.2 (binned_value N lab row) vals)
      (Some vals0) l = Some vals ∧
    length vals = length vals0 ∧
    (∀ g j row, g ∈ l → j ∈ g.2 → binned_loc N g.1 rows = Some row →
       vals !! j = Some (binned_value N lab row)) ∧
    (∀ j, (∀ g, g ∈ l → j ∉ g.2) → vals !! j = vals0 !! j).
Proof.
  revert vals0. induction l as [|g l IH]; intros vals0 Hrow Hlt Hdisj.
  { exists vals0. split_and!; [done | done | | done].
    intros g j row Hg. by apply elem_of_nil in Hg. }
  destruct (Hrow g) as [row Hg]; [apply list_elem_of_here|].
  destruct (assign_indices_Some g.2 (binned_value N lab row) vals0)
    as (vals1 & Has & Hlen1 & Hlk1).
  { intros j Hj. apply (Hlt g); [apply list_elem_of_here | done]. }
  destruct (IH vals1) as (vals & Hfold & Hlen & Hhit & Hmiss).
  { intros g' Hg'. apply Hrow. by apply list_elem_of_further. }
  { intros g' j Hg' Hj. rewrite Hlen1. apply (Hlt g'); [|done].
    by apply list_elem_of_further. }
  { intros g1 g2 j H1 H2. apply Hdisj; by apply list_elem_of_further. }
  exists vals. split_and!.
  - cbn [foldl mbind option_bind]. rewrite Hg. cbn [mbind option_bind].
    by rewrite Has.
  - congruence.
  - intros g' j row' Hg' Hj Hrow'.
    destruct (decide (Exists (λ g2 : shell, j ∈ g2.2) l)) as [Hex|Hno].
    + apply Exists_exists in Hex as (g2 & Hg2 & Hj2).
      assert (g'.1 = g2.1) as Heq.
      { apply (Hdisj g' g2 j); [done | by apply list_elem_of_further
                                | done | done]. }
      rewrite Heq in Hrow'. by apply (Hhit g2 j row').
    + rewrite Exists_exists in Hno.
      apply elem_of_cons in Hg' as [->|Hg']; [|exfalso; apply Hno; by exists g'].
      rewrite Hmiss; [|intros g2 Hg2 Hj2; apply Hno; by exists g2].
      rewrite Hlk1, bool_decide_eq_true_2; [|done].
      assert (row' = row) as -> by congruence.
      destruct (lookup_lt_is_Some_2 vals0 j) as [x ->]; [|done].
      apply (Hlt g); [apply list_elem_of_here | done].
  - intros j Hj. rewrite Hmiss.
    + rewrite Hlk1, bool_decide_eq_false_2; [done|].
      apply Hj, list_elem_of_here.
    + intros g2 Hg2. apply Hj. by apply list_elem_of_further.
Qed.

End binned_data_facts.


(** ** The frame that [calc_maps] returns *)

Section calc_maps_frame_facts.
Context (N : Numeric).
Implicit Types (h : HklData N) (tmp : gmap string (list (C N))) (l : string).

Lemma calc_maps_bin_length B hh FP FC ds bins tmp log row l col :
  tmp !! l = Some col →
  ∃ col', (calc_maps_bin N B hh FP FC ds bins (tmp, log) row).1 !! l
          = Some col' ∧ length col' = length col.
Proof.
  intros Hcol.
  assert (∀ tmp1 l' sel v,
            (∃ c, tmp1 !! l = Some c ∧ length c = length col) →
            ∃ c, set_sel N l' sel v tmp1 !! l = Some c ∧
                 length c = length col) as Hstep.
  { intros tmp1 l' sel v (c & Hc & Hlen).
    destruct (set_sel_length N tmp1 l l' sel v c Hc) as (c' & Hc' & Hlen').
    exists c'. split; [done | congruence]. }
  unfold calc_maps_bin. destruct hh; simpl negb; cbv iota.
  - destruct (rltb N _ _ || rneb N _ _); [|destruct B as [B|]];
      cbn [fst]; repeat apply Hstep; by exists col.
  - cbn [fst]. apply Hstep. by exists col.
Qed.

Lemma calc_maps_fold_length B hh FP FC ds bins rows st l col :
  st.1 !! l = Some col →
  ∃ col', (foldl (calc_maps_bin N B hh FP FC ds bins) st rows).1 !! l
          = Some col' ∧ length col' = length col.
Proof.
  revert st col. induction rows as [|row rows IH]; intros [tmp log] col Hcol.
  { by exists col. }
  cbn [foldl].
  destruct (calc_maps_bin_length B hh FP FC ds bins tmp log row l col Hcol)
    as (c1 & Hc1 & Hlen1).
  destruct (IH (calc_maps_bin N B hh FP FC ds bins (tmp, log) row) c1)
    as (c2 & Hc2 & Hlen2).
  { by destruct (calc_maps_bin N B hh FP FC ds bins (tmp, log) row). }
  exists c2. split; [done | congruence].
Qed.

Lemma insert_labels_twice (tmp m : gmap string (list (C N))) labs :
  foldl (λ m l, <[l := default [] (tmp !! l)]> m)
    (foldl (λ m l, <[l := default [] (tmp !! l)]> m) m labs) labs
  = foldl (λ m l, <[l := default [] (tmp !! l)]> m) m labs.
Proof.
  apply map_eq. intros l. destruct (decide (l ∈ labs)) as [Hin|Hnin].
  - by rewrite !insert_labels_lookup.
  - by rewrite !insert_labels_lookup_ne.
Qed.

Lemma map_labels_not_input B hh l :
  l ∈ ["FP"; "FC"; "F_map1"; "F_map2"] → l ∉ map_labels N B hh.
Proof.
  rewrite !elem_of_cons, elem_of_nil.
  intros [->|[->|[->|[->|[]]]]]; destruct hh, B;
    apply (bool_decide_unpack _); by vm_compute.
Qed.

End calc_maps_frame_facts.


(** ** The rows of a merged table *)

Section merge_rows.
Context (N : Numeric).
Implicit Types (h : HklData N) (asu : list (Z * Z * Z * C N)).

Lemma length_gather {A} (dflt : A) idx (a : list A) :
  length (gather dflt idx a) = length idx.
Proof. unfold gather. by rewrite length_fmap. Qed.

Lemma gather_lookup_Some {A} (dflt : A) idx (a : list A) p x :
  gather dflt idx a !! p = Some x →
  ∃ i, idx !! p = Some i ∧ x = default dflt (a !! i).
Proof.
  unfold gather. rewrite list_lookup_fmap.
  destruct (idx !! p) as [i|]; [|done]. simpl. intros [= <-]. by exists i.
Qed.

(** The matches of one index in a data set without repeated indices. *)
Lemma matches_NoDup (right : list (Z * Z * Z)) (x : Z * Z * Z) :
  NoDup right →
  length (filter (λ kq : nat * (Z * Z * Z), kq.2 = x) (imap pair right))
  = if decide (x ∈ right) then 1 else 0.
Proof.
  intros Hnd.
  set (m := filter (λ kq : nat * (Z * Z * Z), kq.2 = x) (imap pair right)).
  assert (∀ kq, kq ∈ m ↔ right !! kq.1 = Some x ∧ kq.2 = x) as Hm.
  { intros [k q]. unfold m. rewrite list_elem_of_filter, elem_of_lookup_imap.
    simpl. split.
    - intros (-> & k' & q' & [= <- <-] & Hk). done.
    - intros (Hk & ->). split; [done|]. by exists k, x. }
  assert (NoDup m) as Hndm.
  { apply NoDup_filter. apply NoDup_alt. intros i j [k q].
    rewrite !list_lookup_imap. intros Hi Hj.
    destruct (right !! i) as [xi|]; [|done].
    destruct (right !! j) as [xj|]; [|done]. simpl in *. congruence. }
  case_decide as Hin.
  - apply list_elem_of_lookup in Hin as (k & Hk).
    assert ((k, x) ∈ m) as Hkm by by apply Hm.
    destruct m as [|a [|b m']] eqn:Hmeq.
    + by apply elem_of_nil in Hkm.
    + done.
    + exfalso. assert (a ∈ a :: b :: m') as Ha by apply list_elem_of_here.
      assert (b ∈ a :: b :: m') as Hb
        by apply list_elem_of_further, list_elem_of_here.
      apply Hm in Ha as [Ha1 Ha2]. apply Hm in Hb as [Hb1 Hb2].
      pose proof (NoDup_lookup _ _ _ _ Hnd Ha1 Hb1) as Heq.
      assert (a = b) as -> by (destruct a, b; simpl in *; congruence).
      apply NoDup_cons in Hndm as [Hab _]. apply Hab, list_elem_of_here.
  - destruct m as [|a m'] eqn:Hmeq; [done|]. exfalso. apply Hin.
    assert (a ∈ a :: m') as Ha by apply list_elem_of_here.
    apply Hm in Ha as [Ha _]. by eapply list_elem_of_lookup_2.
Qed.

Lemma merged_indices (left right : list (Z * Z * Z))
    (l : list (nat * (Z * Z * Z))) :
  NoDup right →
  (∀ ip, ip ∈ l → left !! ip.1 = Some ip.2) →
  gather (0, 0, 0)%Z
    (l ≫= λ ip,
       (λ kq : nat * (Z * Z * Z), (ip.1, kq.1))
         <$> filter (λ kq : nat * (Z * Z * Z), kq.2 = ip.2)
               (imap pair right)).*1
    left
  = filter (λ x, x ∈ right) l.*2.
Proof.
  intros Hnd. induction l as [|[i x] l IH]; intros Hl; [done|].
  rewrite bind_cons, fmap_app. unfold gather in *. rewrite fmap_app.
  rewrite IH; [|intros ip Hip; by apply Hl, list_elem_of_further].
  rewrite fmap_cons, filter_cons. cbn [fst snd].
  pose proof (matches_NoDup right x Hnd) as Hlen.
  set (m := filter (λ kq : nat * (Z * Z * Z), kq.2 = x) (imap pair right))
    in *.
  assert (left !! i = Some x) as Hi by (apply (Hl (i, x)), list_elem_of_here).
  case_decide as Hin.
  - destruct m as [|a [|b m']]; [done| |done]. simpl. by rewrite Hi.
  - by destruct m.
Qed.

Lemma merge_pairs_imap (left right : list (Z * Z * Z)) :
  ∀ ip, ip ∈ imap pair left → left !! ip.1 = Some ip.2.
Proof.
  intros [i x] Hin. by apply elem_of_lookup_imap in Hin as (? & ? & [= <- <-] & ?).
Qed.

Lemma imap_pair_snd {A} (l : list A) : (imap pair l).*2 = l.
Proof.
  apply list_eq. intros i. rewrite list_lookup_fmap, list_lookup_imap.
  by destruct (l !! i).
Qed.

End merge_rows.


(** ** The steps of [main], one after the other *)

Section main_steps.
Context (N : Numeric).
Implicit Types (h : HklData N) (asu : list (Z * Z * Z * C N)).

Lemma mask_and_fft_maps_halves (unit_cell : R N * R N * R N) asu0 asu1 :
  ∃ h, mask_and_fft_maps N unit_cell [asu0; asu1] = Some h ∧
    df_d N h = [] ∧ df_bin N h = [] ∧ df N h !! "FC" = None ∧
    ∀ lab, lab ∈ ["F_map1"; "F_map2"; "FP"] →
      ∃ col, df N h !! lab = Some col ∧ length col = length (df_hkl N h).
Proof.
  unfold mask_and_fft_maps. rewrite merged_halves_frame.
  set (pairs := merge_pairs asu0.*1 asu1.*1).
  set (F1 := gather (czero N) pairs.*1 asu0.*2).
  set (F2 := gather (czero N) pairs.*2 asu1.*2).
  assert ((<["F_map2" := F2]> {["F_map1" := F1]} : gmap string (list (C N)))
            !! "F_map1" = Some F1) as H1.
  { rewrite lookup_insert_ne by done. apply lookup_singleton_eq. }
  assert ((<["F_map2" := F2]> {["F_map1" := F1]} : gmap string (list (C N)))
            !! "F_map2" = Some F2) as H2 by apply lookup_insert_eq.
  cbn [mbind option_bind df]. rewrite H1. cbn [mbind option_bind].
  rewrite H2. cbn [mbind option_bind].
  eexists. split; [done|]. cbn [df df_d df_bin df_hkl cell].
  split_and!; [done | done | |].
  { rewrite !lookup_insert_ne by done. by apply lookup_singleton_ne. }
  assert (length F1 = length pairs) as Hl1.
  { unfold F1. by rewrite length_gather, length_fmap. }
  assert (length F2 = length pairs) as Hl2.
  { unfold F2. by rewrite length_gather, length_fmap. }
  rewrite length_gather, length_fmap.
  intros lab. rewrite !elem_of_cons, elem_of_nil.
  intros [->|[->|[->|[]]]].
  - rewrite lookup_insert_ne by done. rewrite H1. by exists F1.
  - rewrite lookup_insert_ne by done. rewrite H2. by exists F2.
  - rewrite lookup_insert_eq. eexists. split; [done|].
    rewrite length_zip_with. lia.
Qed.

Lemma mask_and_fft_maps_single (unit_cell : R N * R N * R N) asu :
  ∃ h, mask_and_fft_maps N unit_cell [asu] = Some h ∧
    df_d N h = [] ∧ df_bin N h = [] ∧ df N h !! "FC" = None ∧
    ∀ lab, lab ∈ ["FP"] →
      ∃ col, df N h !! lab = Some col ∧ length col = length (df_hkl N h).
Proof.
  eexists. split; [done|]. cbn.
  split_and!; [done | done | by rewrite lookup_singleton_ne |].
  intros lab. rewrite elem_of_cons, elem_of_nil. intros [->|[]].
  rewrite lookup_singleton_eq. eexists. split; [done|].
  by rewrite !length_fmap.
Qed.

Lemma merge_asu_data_columns h asu label labs :
  df N h !! label = None →
  (∀ lab, lab ∈ labs →
     ∃ col, df N h !! lab = Some col ∧ length col = length (df_hkl N h)) →
  ∃ h', merge_asu_data N h asu label = Some h' ∧
    df_d N h' = df_d N h ∧ df_bin N h' = df_bin N h ∧
    ∀ lab, lab ∈ label :: labs →
      ∃ col, df N h' !! lab = Some col ∧ length col = length (df_hkl N h').
Proof.
  intros Hnone Hlabs. unfold merge_asu_data.
  rewrite bool_decide_eq_false_2; [|rewrite Hnone; by intros [? ?]].
  eexists. split; [done|]. cbn [df df_d df_bin df_hkl].
  split_and!; [done | done |]. intros lab Hlab.
  destruct (decide (lab = label)) as [->|Hne].
  - rewrite lookup_insert_eq. eexists. split; [done|].
    by rewrite !length_gather, !length_fmap.
  - rewrite lookup_insert_ne by done. rewrite lookup_fmap.
    apply elem_of_cons in Hlab as [->|Hlab]; [done|].
    destruct (Hlabs lab Hlab) as (col & -> & _). simpl.
    eexists. split; [done|]. by rewrite !length_gather.
Qed.

Lemma d_spacings_ready calculate_d h labs :
  df_d N h = [] →
  (∀ lab, lab ∈ labs →
     ∃ col, df N h !! lab = Some col ∧ length col = length (df_hkl N h)) →
  columns_ready N labs (d_spacings N calculate_d h).
Proof.
  intros Hd Hlabs. unfold d_spacings. rewrite Hd. unfold calc_d.
  split; cbn [df df_hkl df_d]; [done | by rewrite length_fmap].
Qed.

Lemma setup_relion_binning_ready fuel h labs :
  columns_ready N labs h →
  let bc := initial_bin_counts
              (relion_bin N (max_cell_edge N (cell N h)) <$> df_d N h) in
  length bc * length bc < fuel →
  ∃ h', setup_relion_binning N fuel h = Some h' ∧
    columns_ready N labs h' ∧ binned_consistent N h'.
Proof.
  intros [Hlabs Hlen] bc Hfuel.
  pose proof (initial_bin_counts_NoDup
                (relion_bin N (max_cell_edge N (cell N h)) <$> df_d N h))
    as Hnd.
  destruct (merge_passes_resolve bc fuel Hnd Hfuel) as (mt' & Hres & _).
  assert (∃ h', setup_relion_binning N fuel h = Some h' ∧
                df N h' = df N h ∧ df_hkl N h' = df_hkl N h ∧
                df_d N h' = df_d N h) as (h' & Hsome & Hdf & Hhkl & Hd).
  { unfold setup_relion_binning. fold bc.
    destruct (merge_passes bc) as [bc2 mt]. simpl in *. rewrite Hres.
    simpl. by eexists. }
  exists h'. split_and!; [done | |].
  - split; [|congruence]. intros lab Hlab. rewrite Hdf, Hhkl. by apply Hlabs.
  - by eapply setup_relion_binning_consistent.
Qed.
End main_steps.


Section main_statistics_steps.
Context (N : Numeric).
Implicit Types (h : HklData N).

Lemma columns_ready_same labs h h' :
  df N h' = df N h → df_hkl N h' = df_hkl N h → df_d N h' = df_d N h →
  columns_ready N labs h → columns_ready N labs h'.
Proof.
  intros Hdf Hhkl Hd [Hlabs Hlen]. unfold columns_ready.
  rewrite Hdf, Hhkl, Hd. done.
Qed.

Lemma binned_consistent_same h h' :
  df_hkl N h' = df_hkl N h → df_bin N h' = df_bin N h →
  bin_and_indices N h' = bin_and_indices N h →
  row_bin N <$> binned_df N h' = row_bin N <$> binned_df N h →
  binned_consistent N h → binned_consistent N h'.
Proof.
  intros Hhkl Hbin Hidx Hrows. unfold binned_consistent.
  by rewrite Hhkl, Hbin, Hidx, Hrows.
Qed.

Lemma calc_noise_var_bin_id F1 F2 bins (row : bin_row N) :
  row_bin N (calc_noise_var_bin N F1 F2 bins (init_noise N row)).1
  = row_bin N row.
Proof. unfold calc_noise_var_bin. by case_bool_decide. Qed.

Lemma calc_noise_var_same h F_map1 F_map2 :
  df N h !! "F_map1" = Some F_map1 → df N h !! "F_map2" = Some F_map2 →
  ∃ h' log, calc_noise_var N h = Some (h', log) ∧
    df N h' = df N h ∧ df_hkl N h' = df_hkl N h ∧ df_d N h' = df_d N h ∧
    df_bin N h' = df_bin N h ∧
    bin_and_indices N h' = bin_and_indices N h ∧
    row_bin N <$> binned_df N h' = row_bin N <$> binned_df N h.
Proof.
  intros H1 H2. unfold calc_noise_var. rewrite H1, H2.
  cbn [mbind option_bind]. eexists _, _. split; [done|].
  cbn [df df_hkl df_d df_bin bin_and_indices binned_df].
  split_and!; try done.
  rewrite <- !list_fmap_compose. apply list_fmap_ext. intros i row _.
  apply calc_noise_var_bin_id.
Qed.

Lemma calc_D_and_S_same h (hh : bool) FP FC :
  df N h !! "FP" = Some FP → df N h !! "FC" = Some FC →
  ∃ h' report, calc_D_and_S N h hh = Some (h', report) ∧
    df N h' = df N h ∧ df_hkl N h' = df_hkl N h ∧ df_d N h' = df_d N h ∧
    df_bin N h' = df_bin N h ∧
    bin_and_indices N h' = bin_and_indices N h ∧
    row_bin N <$> binned_df N h' = row_bin N <$> binned_df N h ∧
    binned_df N h'
    = (λ row, (calc_D_and_S_bin N hh FP FC (df_bin N h)
                 (init_D_and_S N row)).1) <$> binned_df N h.
Proof.
  intros H1 H2. unfold calc_D_and_S. rewrite H1, H2.
  cbn [mbind option_bind]. eexists _, _. split; [done|].
  cbn [df df_hkl df_d df_bin bin_and_indices binned_df].
  split_and!; try done.
  - rewrite <- !list_fmap_compose. by apply list_fmap_ext.
  - by rewrite <- !list_fmap_compose.
Qed.

(** On a table that is ready, every record is a record of a shell row or
    has a bin that no row carries, and then its bin is 0. *)
Lemma ready_record h labs j :
  columns_ready N labs h → binned_consistent N h →
  "FP" ∈ labs → "FC" ∈ labs → j < length (df_hkl N h) →
  ∃ b FP FC fo fc d,
    df_bin N h !! j = Some b ∧
    df N h !! "FP" = Some FP ∧ df N h !! "FC" = Some FC ∧
    FP !! j = Some fo ∧ FC !! j = Some fc ∧ df_d N h !! j = Some d ∧
    if decide (b = 0%Z) then
      ∀ row, row ∈ binned_df N h → df_bin N h !! j ≠ Some (row_bin N row)
    else
      ∃ row, row_bin N row = b ∧ shell_record N h row j FP FC fo fc d.
Proof.
  intros [Hlabs Hd] (Hlen & Hids & Hnd & Hmem & Hall) HFP HFC Hj.
  destruct (Hlabs "FP" HFP) as (FP & HFPc & HFPl).
  destruct (Hlabs "FC" HFC) as (FC & HFCc & HFCl).
  destruct (lookup_lt_is_Some_2 (df_bin N h) j) as [b Hb]; [lia|].
  destruct (lookup_lt_is_Some_2 FP j) as [fo Hfo]; [lia|].
  destruct (lookup_lt_is_Some_2 FC j) as [fc Hfc]; [lia|].
  destruct (lookup_lt_is_Some_2 (df_d N h) j) as [d Hdj]; [lia|].
  exists b, FP, FC, fo, fc, d. split_and!; try done.
  case_decide as Hb0.
  - subst b. intros row Hrow Heq.
    assert (row_bin N row ∈ (bin_and_indices N h).*1) as Hin.
    { rewrite <- Hids. by apply list_elem_of_fmap_2. }
    apply list_elem_of_fmap in Hin as (g & Hg1 & Hg).
    destruct (Hmem g Hg) as [Hne _]. congruence.
  - destruct (Hall j b Hb) as [?|Hin]; [done|].
    rewrite <- Hids in Hin.
    apply list_elem_of_fmap in Hin as (row & -> & Hrow).
    exists row. split; [done|]. unfold shell_record.
    split_and!; try done. by rewrite Hids.
Qed.
End main_statistics_steps.


(** ** [main] from the maps to the coefficients *)

Section main_theorems.
Context (N : Numeric).
Implicit Types (h : HklData N) (asu : list (Z * Z * Z * C N)).

Lemma main_binned_ready (unit_cell : R N * R N * R N) calculate_d maps fc_asu
    labs h1 :
  mask_and_fft_maps N unit_cell maps = Some h1 →
  df_d N h1 = [] → df N h1 !! "FC" = None →
  (∀ lab, lab ∈ labs →
     ∃ col, df N h1 !! lab = Some col ∧ length col = length (df_hkl N h1)) →
  ∃ n, ∀ fuel, n < fuel →
    ∃ h, main_binned N fuel unit_cell calculate_d maps fc_asu = Some h ∧
         columns_ready N ("FC" :: labs) h ∧ binned_consistent N h.
Proof.
  intros Hmask Hd HFC Hlabs.
  destruct (merge_asu_data_columns N h1 fc_asu "FC" labs HFC Hlabs)
    as (h2 & Hmerge & Hd2 & _ & Hlabs2).
  rewrite Hd in Hd2.
  pose proof (d_spacings_ready N calculate_d h2 ("FC" :: labs) Hd2 Hlabs2)
    as Hready.
  set (h3 := d_spacings N calculate_d h2) in *.
  set (bc := initial_bin_counts
               (relion_bin N (max_cell_edge N (cell N h3)) <$> df_d N h3)).
  exists (length bc * length bc). intros fuel Hfuel.
  destruct (setup_relion_binning_ready N fuel h3 ("FC" :: labs) Hready Hfuel)
    as (h4 & Hsetup & Hready4 & Hcons).
  exists h4. split; [|done]. unfold main_binned.
  rewrite Hmask. cbn [mbind option_bind]. rewrite Hmerge.
  cbn [mbind option_bind]. done.
Qed.

Lemma calc_maps_returns h B (hh : bool) FP FC :
  df N h !! "FP" = Some FP → df N h !! "FC" = Some FC →
  ∃ h' log, calc_maps N h B hh = Some (h', map_labels N B hh, log).
Proof.
  intros HFP HFC. unfold calc_maps. rewrite HFP, HFC.
  cbn [mbind option_bind]. destruct (foldl _ _ _) as [tmp log].
  by eexists _, _.
Qed.


Lemma calc_maps_fields h B (hh : bool) h' labs log :
  calc_maps N h B hh = Some (h', labs, log) →
  df_hkl N h' = df_hkl N h ∧ df_bin N h' = df_bin N h ∧
  binned_df N h' = binned_df N h ∧
  ∀ l, l ∉ map_labels N B hh → df N h' !! l = df N h !! l.
Proof.
  unfold calc_maps. destruct (df N h !! "FP") as [FP|]; [|done].
  destruct (df N h !! "FC") as [FC|]; [|done]. cbn [mbind option_bind].
  destruct (foldl _ _ _) as [tmp log']. intros [= <- _ _]. simpl.
  split_and!; try done. intros l Hl. by apply insert_labels_lookup_ne.
Qed.

End main_theorems.


Section main_binned_facts.
Context (N : Numeric).
Implicit Types (h : HklData N).

Lemma mask_and_fft_maps_no_d (unit_cell : R N * R N * R N) maps h :
  mask_and_fft_maps N unit_cell maps = Some h → df_d N h = [].
Proof.
  destruct maps as [|asu0 [|asu1 [|asu2 maps]]]; [done| | |done].
  - by intros [= <-].
  - destruct (mask_and_fft_maps_halves N unit_cell asu0 asu1)
      as (h1 & -> & Hd & _). by intros [= <-].
Qed.

Lemma main_binned_consistent fuel (unit_cell : R N * R N * R N) calculate_d
    maps fc_asu h :
  main_binned N fuel unit_cell calculate_d maps fc_asu = Some h →
  binned_consistent N h.
Proof.
  unfold main_binned.
  destruct (mask_and_fft_maps N unit_cell maps) as [h1|] eqn:Hmask; [|done].
  cbn [mbind option_bind].
  destruct (merge_asu_data N h1 fc_asu "FC") as [h2|] eqn:Hmerge; [|done].
  cbn [mbind option_bind].
  apply setup_relion_binning_consistent.
  assert (df_d N h2 = []) as Hd.
  { unfold merge_asu_data in Hmerge. case_bool_decide; [done|].
    injection Hmerge as <-. simpl.
    by eapply mask_and_fft_maps_no_d. }
  unfold d_spacings. rewrite Hd. simpl. by rewrite length_fmap.
Qed.
End main_binned_facts.

Section binned_data_example.
Local Open Scope float_scope.

Lemma is_Some_default {A} (x : option A) (d : A) :
  is_Some x → x = Some (default d x).
Proof. by intros [y ->]. Qed.

Lemma example_binned_consistent :
  binned_consistent Float64.numeric Example.binned.
Proof.
  apply (main_binned_consistent Float64.numeric 20 Example.unit_cell
           Example.calculate_d [Example.half1; Example.half2]
           Example.fc_asu).
  apply is_Some_default. apply (bool_decide_unpack _). vm_compute. exact I.
Qed.

End binned_data_example.

(** ** [dump_to_mtz] *)

Section dump_facts.
Context (N : Numeric).
Variable np_angle_deg : C N → R N.

Lemma assign_column_rows k vals data data' :
  assign_column N k vals data = Some data' →
  length data' = length data ∧ length vals = length data ∧
  ∀ j row, data !! j = Some row →
    k < length row ∧
    ∃ v, vals !! j = Some v ∧ data' !! j = Some (<[k := Some v]> row).
Proof.
  unfold assign_column. case_bool_decide as Hok; [|done].
  destruct Hok as [Hlen Hall]. intros [= <-]. split_and!.
  - rewrite length_zip_with. lia.
  - done.
  - intros j row Hrow. split.
    { by apply (proj1 (Forall_lookup _ _) Hall j row). }
    destruct (lookup_lt_is_Some_2 vals j) as [v Hv].
    { rewrite Hlen. by apply lookup_lt_Some in Hrow. }
    exists v. split; [done|]. by rewrite lookup_zip_with, Hrow, Hv.
Qed.

Lemma assign_column_returns k vals data :
  length vals = length data → Forall (λ row, k < length row) data →
  is_Some (assign_column N k vals data).
Proof.
  intros Hlen Hall. unfold assign_column.
  rewrite bool_decide_eq_true_2; [by eexists | done].
Qed.

Lemma assign_column_fails k vals data :
  length vals ≠ length data → assign_column N k vals data = None.
Proof.
  intros Hlen. unfold assign_column.
  rewrite bool_decide_eq_false_2; [done | tauto].
Qed.

(** Line 219 assigns the three index columns of the empty array. *)
Lemma assign_hkl_layout h w :
  3 ≤ w →
  ∃ data, assign_hkl N (df_hkl N h) (np_empty N (length (df_hkl N h)) w)
          = Some data ∧
          dump_layout N np_angle_deg h [] w data.
Proof.
  intros Hw. unfold assign_hkl.
  set (n := length (df_hkl N h)).
  assert (∀ j row, np_empty N n w !! j = Some row → row = replicate w None)
    as Hrow0.
  { intros j row Hj. unfold np_empty in Hj.
    by apply lookup_replicate in Hj as [-> _]. }
  destruct (assign_column_returns 0
              ((λ x : Z * Z * Z, of_int N x.1.1) <$> df_hkl N h)
              (np_empty N n w)) as [d1 H1].
  { unfold np_empty. by rewrite length_fmap, length_replicate. }
  { apply Forall_lookup. intros j row Hj. rewrite (Hrow0 j row Hj).
    rewrite length_replicate. lia. }
  rewrite H1. cbn [mbind option_bind].
  destruct (assign_column_rows _ _ _ _ H1) as (Hl1 & _ & Hr1).
  destruct (assign_column_returns 1
              ((λ x : Z * Z * Z, of_int N x.1.2) <$> df_hkl N h) d1)
    as [d2 H2].
  { rewrite length_fmap, Hl1. unfold np_empty. by rewrite length_replicate. }
  { apply Forall_lookup. intros j row Hj.
    destruct (lookup_lt_is_Some_2 (np_empty N n w) j) as [row0 Hrow].
    { rewrite <- Hl1. by apply lookup_lt_Some in Hj. }
    destruct (Hr1 j row0 Hrow) as (_ & v & _ & Hd1).
    rewrite Hj in Hd1. injection Hd1 as ->.
    rewrite length_insert, (Hrow0 j row0 Hrow), length_replicate. lia. }
  rewrite H2. cbn [mbind option_bind].
  destruct (assign_column_rows _ _ _ _ H2) as (Hl2 & _ & Hr2).
  destruct (assign_column_returns 2
              ((λ x : Z * Z * Z, of_int N x.2) <$> df_hkl N h) d2)
    as [d3 H3].
  { rewrite length_fmap, Hl2, Hl1. unfold np_empty.
    by rewrite length_replicate. }
  { apply Forall_lookup. intros j row Hj.
    destruct (lookup_lt_is_Some_2 d1 j) as [row1 Hrow1].
    { rewrite <- Hl2. by apply lookup_lt_Some in Hj. }
    destruct (lookup_lt_is_Some_2 (np_empty N n w) j) as [row0 Hrow].
    { rewrite <- Hl1. by apply lookup_lt_Some in Hrow1. }
    destruct (Hr1 j row0 Hrow) as (_ & v & _ & Hd1).
    rewrite Hrow1 in Hd1. injection Hd1 as ->.
    destruct (Hr2 j _ Hrow1) as (_ & v2 & _ & Hd2).
    rewrite Hj in Hd2. injection Hd2 as ->.
    rewrite !length_insert, (Hrow0 j row0 Hrow), length_replicate. lia. }
  rewrite H3. exists d3. split; [done|].
  destruct (assign_column_rows _ _ _ _ H3) as (Hl3 & _ & Hr3).
  split.
  { rewrite Hl3, Hl2, Hl1. unfold np_empty. by rewrite length_replicate. }
  intros j hkl Hhkl.
  destruct (lookup_lt_is_Some_2 (np_empty N n w) j) as [row0 Hrow].
  { unfold np_empty. rewrite length_replicate.
    by apply lookup_lt_Some in Hhkl. }
  destruct (Hr1 j row0 Hrow) as (_ & v1 & Hv1 & Hd1).
  destruct (Hr2 j _ Hd1) as (_ & v2 & Hv2 & Hd2).
  destruct (Hr3 j _ Hd2) as (_ & v3 & Hv3 & Hd3).
  rewrite list_lookup_fmap, Hhkl in Hv1, Hv2, Hv3.
  injection Hv1 as <-. injection Hv2 as <-. injection Hv3 as <-.
  rewrite (Hrow0 j row0 Hrow) in Hd3.
  eexists. split; [exact Hd3|].
  split_and!.
  - by rewrite !length_insert, length_replicate.
  - rewrite !list_lookup_insert_ne by lia.
    apply list_lookup_insert_eq. rewrite length_replicate. lia.
  - rewrite list_lookup_insert_ne by lia.
    apply list_lookup_insert_eq. rewrite length_insert, length_replicate. lia.
  - apply list_lookup_insert_eq. rewrite !length_insert, length_replicate. lia.
  - intros i lab Hi. by rewrite lookup_nil in Hi.
  - intros c Hc Hcw. cbn [length] in Hc.
    rewrite !list_lookup_insert_ne by lia. by apply lookup_replicate_2.
Qed.
(** A label that [dump_to_mtz] can write: a column with one entry for
    every record. *)
Lemma full_column_dec (h : HklData N) (lab : string) :
  {∃ col, df N h !! lab = Some col ∧ length col = length (df_hkl N h)}
  + {∀ col, df N h !! lab = Some col → length col ≠ length (df_hkl N h)}.
Proof.
  destruct (df N h !! lab) as [col|]; [|by right].
  destruct (decide (length col = length (df_hkl N h))) as [Hl|Hl].
  - left. by exists col.
  - right. by intros ? [= <-].
Qed.

Lemma assign_map_step h labs lab w data col :
  dump_layout N np_angle_deg h labs w data →
  3 + (length labs + 1) * 2 ≤ w →
  df N h !! lab = Some col → length col = length (df_hkl N h) →
  ∃ data', assign_map N np_angle_deg h (Some data) (length labs, lab)
           = Some data' ∧
           dump_layout N np_angle_deg h (labs ++ [lab]) w data'.
Proof.
  intros [Hlen Hrows] Hw Hcol Hlc. unfold assign_map.
  cbn [mbind option_bind fst snd]. rewrite Hcol. cbn [mbind option_bind].
  assert (∀ j row, data !! j = Some row → length row = w) as Hwidth.
  { intros j row Hj.
    destruct (lookup_lt_is_Some_2 (df_hkl N h) j) as [hkl Hhkl].
    { rewrite <- Hlen. by apply lookup_lt_Some in Hj. }
    destruct (Hrows j hkl Hhkl) as (row' & Hrow' & Hw' & _). congruence. }
  destruct (assign_column_returns (3 + length labs * 2) (np_abs N <$> col)
              data) as [d1 H1].
  { rewrite length_fmap. congruence. }
  { apply Forall_lookup. intros j row Hj. rewrite (Hwidth j row Hj). lia. }
  rewrite H1. cbn [mbind option_bind].
  destruct (assign_column_rows _ _ _ _ H1) as (Hl1 & _ & Hr1).
  destruct (assign_column_returns (3 + length labs * 2 + 1)
              (np_angle_deg <$> col) d1) as [d2 H2].
  { rewrite length_fmap. congruence. }
  { apply Forall_lookup. intros j row Hj.
    destruct (lookup_lt_is_Some_2 data j) as [row0 Hrow0].
    { rewrite <- Hl1. by apply lookup_lt_Some in Hj. }
    destruct (Hr1 j row0 Hrow0) as (_ & v & _ & Hd1).
    rewrite Hj in Hd1. injection Hd1 as ->.
    rewrite length_insert, (Hwidth j row0 Hrow0). lia. }
  rewrite H2. exists d2. split; [done|].
  destruct (assign_column_rows _ _ _ _ H2) as (Hl2 & _ & Hr2).
  split; [congruence|]. intros j hkl Hhkl.
  destruct (Hrows j hkl Hhkl)
    as (row & Hrow & Hwr & Hh & Hk & Hl & Hlabs & Hrest).
  destruct (Hr1 j row Hrow) as (_ & v1 & Hv1 & Hd1).
  destruct (Hr2 j _ Hd1) as (_ & v2 & Hv2 & Hd2).
  rewrite list_lookup_fmap in Hv1, Hv2.
  destruct (col !! j) as [v|] eqn:Hv; [|done].
  injection Hv1 as <-. injection Hv2 as <-.
  eexists. split; [exact Hd2|]. split_and!.
  - by rewrite !length_insert.
  - by rewrite !list_lookup_insert_ne by lia.
  - by rewrite !list_lookup_insert_ne by lia.
  - by rewrite !list_lookup_insert_ne by lia.
  - intros i lab' Hi.
    destruct (decide (i < length labs)) as [Hlt|Hge].
    + rewrite lookup_app_l in Hi by done.
      destruct (Hlabs i lab' Hi) as (v' & Hat & Ha & Hp).
      exists v'. split; [done|].
      by rewrite !list_lookup_insert_ne by lia.
    + pose proof (lookup_lt_Some _ _ _ Hi) as Hb.
      rewrite length_app in Hb. cbn [length] in Hb.
      assert (i = length labs) as -> by lia.
      rewrite lookup_app_r, Nat.sub_diag in Hi by done.
      injection Hi as <-. exists v. split.
      { unfold df_at, slot. by rewrite Hcol. }
      split.
      * rewrite list_lookup_insert_ne by lia.
        apply list_lookup_insert_eq. lia.
      * apply list_lookup_insert_eq. rewrite length_insert. lia.
  - intros c Hc Hcw. rewrite length_app in Hc. cbn [length] in Hc.
    rewrite !list_lookup_insert_ne by lia. apply Hrest; lia.
Qed.

Lemma assign_map_fails h data i lab :
  length data = length (df_hkl N h) →
  (∀ col, df N h !! lab = Some col → length col ≠ length (df_hkl N h)) →
  assign_map N np_angle_deg h (Some data) (i, lab) = None.
Proof.
  intros Hlen Hbad. unfold assign_map. cbn [mbind option_bind fst snd].
  destruct (df N h !! lab) as [col|] eqn:Hcol; [|done].
  cbn [mbind option_bind]. rewrite assign_column_fails; [done|].
  rewrite length_fmap, Hlen. by apply Hbad.
Qed.

Lemma assign_map_None h l :
  foldl (assign_map N np_angle_deg h) None l = None.
Proof. by induction l. Qed.

(** The loop of lines 220-222 started after the labels [pre]. *)
Lemma assign_map_fold h w pre labs data :
  dump_layout N np_angle_deg h pre w data →
  3 + (length pre + length labs) * 2 ≤ w →
  match foldl (assign_map N np_angle_deg h) (Some data)
          (imap (λ i, pair (length pre + i)) labs) with
  | Some data' =>
      (∀ lab, lab ∈ labs →
         ∃ col, df N h !! lab = Some col ∧
                length col = length (df_hkl N h)) ∧
      dump_layout N np_angle_deg h (pre ++ labs) w data'
  | None =>
      ∃ lab, lab ∈ labs ∧
        ∀ col, df N h !! lab = Some col → length col ≠ length (df_hkl N h)
  end.
Proof.
  revert pre data. induction labs as [|lab labs IH]; intros pre data Hlay Hw.
  { cbn. rewrite app_nil_r. split; [|done]. intros lab Hlab.
    by apply elem_of_nil in Hlab. }
  cbn [imap foldl length] in *. rewrite Nat.add_0_r.
  destruct (full_column_dec h lab) as [(col & Hcol & Hlc)|Hbad].
  - destruct (assign_map_step h pre lab w data col Hlay ltac:(lia) Hcol Hlc)
      as (d1 & Hd1 & Hlay1).
    rewrite Hd1.
    specialize (IH (pre ++ [lab]) d1 Hlay1).
    rewrite length_app in IH. cbn [length] in IH.
    specialize (IH ltac:(lia)).
    rewrite (imap_ext _ (λ i, pair (length pre + 1 + i))
               labs) by (intros; simpl; f_equal; lia).
    destruct (foldl _ _ _) as [data'|].
    + destruct IH as [Hall Hlay']. split.
      * intros l Hl. apply elem_of_cons in Hl as [->|Hl]; [by exists col|].
        by apply Hall.
      * by rewrite <- app_assoc in Hlay'.
    + destruct IH as (l & Hl & Hb). exists l. split; [|done].
      apply elem_of_cons. by right.
  - rewrite assign_map_fails, assign_map_None; [|by destruct Hlay|done].
    exists lab. split; [apply elem_of_cons; by left | done].
Qed.

Lemma length_dump_columns labs :
  length (dump_columns labs) = 3 + length labs * 2.
Proof.
  unfold dump_columns. rewrite length_app. cbn [fmap list_fmap length].
  f_equal. induction labs as [|lab labs IH]; [done|].
  cbn [mbind list_bind]. rewrite length_app, IH. cbn [length]. lia.
Qed.

Lemma lookup_dump_columns labs i lab :
  labs !! i = Some lab →
  dump_columns labs !! (3 + i * 2) = Some (lab, "F") ∧
  dump_columns labs !! (3 + i * 2 + 1) = Some (phase_label lab, "P").
Proof.
  unfold dump_columns. generalize phase_label as f. intros f.
  revert i. induction labs as [|a labs IH]; intros [|i] Hi; try done.
  - by injection Hi as ->.
  - destruct (IH i Hi) as [H1 H2]. simpl in *. by split.
Qed.

(** In a filled array every entry is assigned. *)
Lemma dump_layout_assigned h labs data j row :
  dump_layout N np_angle_deg h labs (3 + length labs * 2) data →
  data !! j = Some row → Forall is_Some row.
Proof.
  intros [Hlen Hrows] Hj.
  destruct (lookup_lt_is_Some_2 (df_hkl N h) j) as [hkl Hhkl].
  { rewrite <- Hlen. by apply lookup_lt_Some in Hj. }
  destruct (Hrows j hkl Hhkl)
    as (row' & Hrow' & Hw & Hh & Hk & Hl & Hlabs & _).
  assert (row' = row) as -> by congruence.
  apply Forall_lookup. intros c x Hc.
  pose proof (lookup_lt_Some _ _ _ Hc) as Hcw. rewrite Hw in Hcw.
  destruct (decide (c < 3)) as [Hc3|Hc3].
  { destruct c as [|[|[|c]]]; [| | |lia]; naive_solver. }
  destruct (lookup_lt_is_Some_2 labs ((c - 3) / 2)) as [lab Hlab].
  { apply Nat.Div0.div_lt_upper_bound. lia. }
  destruct (Hlabs _ lab Hlab) as (v & _ & Ha & Hp).
  pose proof (Nat.div_mod_eq (c - 3) 2) as Hdm.
  pose proof (Nat.mod_upper_bound (c - 3) 2 ltac:(lia)) as Hm.
  destruct (decide ((c - 3) mod 2 = 0)) as [H0|H1].
  - replace (3 + (c - 3) / 2 * 2) with c in Ha by lia. naive_solver.
  - replace (3 + (c - 3) / 2 * 2 + 1) with c in Hp by lia. naive_solver.
Qed.

(** [dump_to_mtz] fails exactly on a label that is no full column, and
    fills the array otherwise. *)
Lemma dump_to_mtz_cases (h : HklData N) (map_labs : list string) :
  match dump_to_mtz N np_angle_deg h map_labs with
  | None =>
      ∃ lab, lab ∈ map_labs ++ ["FP"; "FC"] ∧
        ∀ col, df N h !! lab = Some col → length col ≠ length (df_hkl N h)
  | Some mtz =>
      (∀ lab, lab ∈ map_labs ++ ["FP"; "FC"] →
         ∃ col, df N h !! lab = Some col ∧
                length col = length (df_hkl N h)) ∧
      mtz_cell N mtz = cell N h ∧ mtz_datasets N mtz = ["HKL_base"] ∧
      mtz_columns N mtz = dump_columns (map_labs ++ ["FP"; "FC"]) ∧
      dump_layout N np_angle_deg h (map_labs ++ ["FP"; "FC"])
        (3 + length (map_labs ++ ["FP"; "FC"]) * 2) (mtz_data N mtz)
  end.
Proof.
  unfold dump_to_mtz. cbv zeta.
  set (labs := map_labs ++ ["FP"; "FC"]).
  set (w := length labs * 2 + 3).
  destruct (assign_hkl_layout h w ltac:(lia))
    as (d0 & Hd0 & Hlay0).
  rewrite Hd0. cbn [mbind option_bind].
  pose proof (assign_map_fold h w [] labs d0 Hlay0 ltac:(simpl; lia)) as Hf.
  rewrite (imap_ext _ pair labs) in Hf by done.
  destruct (foldl _ _ _) as [data|]; [|exact Hf].
  cbn [mbind option_bind]. destruct Hf as [Hall Hlay]. cbn [app] in Hlay.
  assert (w = 3 + length labs * 2) as Hw by (unfold w; lia).
  unfold set_data. rewrite bool_decide_eq_true_2.
  2:{ apply Forall_lookup. intros j row Hj. rewrite length_dump_columns.
      destruct Hlay as [Hlen Hrows].
      destruct (lookup_lt_is_Some_2 (df_hkl N h) j) as [hkl Hhkl].
      { rewrite <- Hlen. by apply lookup_lt_Some in Hj. }
      destruct (Hrows j hkl Hhkl) as (row' & Hrow' & Hw' & _). congruence. }
  cbn [mbind option_bind mtz_cell mtz_datasets mtz_columns mtz_data].
  split_and!; try done. by rewrite <- Hw.
Qed.

End dump_facts.

(** ** [main] up to the MTZ file *)

Section main_dump_facts.
Context (N : Numeric).
Variable np_angle_deg : C N → R N.
Implicit Types (h : HklData N) (asu : list (Z * Z * Z * C N)).

(** The columns that [calc_maps] adds have one entry for every record. *)
Lemma calc_maps_lengths h B (hh : bool) h' labs log :
  calc_maps N h B hh = Some (h', labs, log) →
  labs = map_labels N B hh ∧
  ∀ l, l ∈ labs →
    ∃ col, df N h' !! l = Some col ∧ length col = length (df_hkl N h).
Proof.
  unfold calc_maps. destruct (df N h !! "FP") as [FP|]; [|done].
  destruct (df N h !! "FC") as [FC|]; [|done]. cbn [mbind option_bind].
  set (tmp0 := list_to_map _ : gmap string (list (C N))).
  set (st0 := (tmp0, [LogText N "Calculating maps.."])).
  assert (∀ l, l ∈ map_labels N B hh →
            ∃ col,
              (foldl (calc_maps_bin N B hh FP FC (df_d N h) (df_bin N h))
                 st0 (binned_df N h)).1 !! l = Some col ∧
              length col = length (df_hkl N h)) as Hlen.
  { intros l Hl.
    destruct (calc_maps_fold_length N B hh FP FC (df_d N h) (df_bin N h)
                (binned_df N h) st0 l
                (replicate (length (df_hkl N h)) (czero N)))
      as (col & Hcol & Hlc).
    - apply (elem_of_list_to_map_1 _ l).
      + rewrite <- list_fmap_compose, list_fmap_id.
        apply map_labels_NoDup.
      + apply list_elem_of_fmap. by exists l.
    - exists col. by rewrite Hlc, length_replicate. }
  destruct (foldl _ st0 (binned_df N h)) as [tmp log'].
  intros [= <- <- <-]. cbn [fst] in Hlen. split; [done|]. simpl.
  intros l Hl. destruct (Hlen l Hl) as (col & Hcol & Hlc).
  exists col. by rewrite insert_labels_lookup, Hcol.
Qed.

(** After [calc_maps] on a table with full columns [FP] and [FC], every
    label that [dump_to_mtz] reads is a full column. *)
Lemma calc_maps_dumpable h B (hh : bool) h' labs log ready :
  calc_maps N h B hh = Some (h', labs, log) →
  columns_ready N ready h → "FP" ∈ ready → "FC" ∈ ready →
  labs = map_labels N B hh ∧
  ∀ lab, lab ∈ labs ++ ["FP"; "FC"] →
    ∃ col, df N h' !! lab = Some col ∧ length col = length (df_hkl N h').
Proof.
  intros Hcm [Hready _] HFP HFC.
  destruct (calc_maps_lengths h B hh h' labs log Hcm) as [Hlabs Hlen].
  destruct (calc_maps_fields N h B hh h' labs log Hcm)
    as (Hhkl & _ & _ & Hdf).
  split; [done|]. rewrite Hhkl. intros lab Hlab.
  apply elem_of_app in Hlab as [Hlab|Hlab]; [by apply Hlen|].
  rewrite Hdf.
  - apply Hready. revert Hlab. rewrite !elem_of_cons, elem_of_nil.
    by intros [->|[->|[]]].
  - apply map_labels_not_input. revert Hlab.
    rewrite !elem_of_cons, elem_of_nil. intros [->|[->|[]]]; tauto.
Qed.

Lemma main_halfmaps_ready (unit_cell : R N * R N * R N) calculate_d
    asu0 asu1 fc_asu B :
  ∃ n, ∀ fuel, n < fuel →
    ∃ hs h' log,
      main_halfmaps N fuel unit_cell calculate_d [asu0; asu1] fc_asu B
      = Some (h', map_labels N B true, log) ∧
      calc_maps N hs B true = Some (h', map_labels N B true, log) ∧
      columns_ready N ["FC"; "F_map1"; "F_map2"; "FP"] hs.
Proof.
  destruct (mask_and_fft_maps_halves N unit_cell asu0 asu1)
    as (h1 & Hmask & Hd & _ & HFC & Hlabs).
  destruct (main_binned_ready N unit_cell calculate_d [asu0; asu1] fc_asu
              ["F_map1"; "F_map2"; "FP"] h1 Hmask Hd HFC Hlabs)
    as (n & Hn).
  exists n. intros fuel Hfuel.
  destruct (Hn fuel Hfuel) as (h4 & Hbinned & Hready & _).
  set (labs := ["FC"; "F_map1"; "F_map2"; "FP"]) in *.
  assert (∀ h lab, columns_ready N labs h → lab ∈ labs →
            ∃ col, df N h !! lab = Some col) as Hcol.
  { intros h lab [Hl _] Hin. destruct (Hl lab Hin) as (col & Hc & _).
    by exists col. }
  destruct (Hcol h4 "F_map1" Hready) as (F1 & HF1); [repeat constructor|].
  destruct (Hcol h4 "F_map2" Hready) as (F2 & HF2); [repeat constructor|].
  destruct (calc_noise_var_same N h4 F1 F2 HF1 HF2)
    as (h5 & log5 & Hnoise & Hdf5 & Hhkl5 & Hd5 & _).
  pose proof (columns_ready_same N labs h4 h5 Hdf5 Hhkl5 Hd5 Hready)
    as Hready5.
  destruct (Hcol h5 "FP" Hready5) as (FP & HFP); [repeat constructor|].
  destruct (Hcol h5 "FC" Hready5) as (FC & HFC5); [repeat constructor|].
  destruct (calc_D_and_S_same N h5 true FP FC HFP HFC5)
    as (hs & report & Hstat & Hdf6 & Hhkl6 & Hd6 & _).
  pose proof (columns_ready_same N labs h5 hs Hdf6 Hhkl6 Hd6 Hready5)
    as Hready6.
  assert (df N hs !! "FP" = Some FP) as HFP6 by by rewrite Hdf6.
  assert (df N hs !! "FC" = Some FC) as HFC6 by by rewrite Hdf6.
  destruct (calc_maps_returns N hs B true FP FC HFP6 HFC6)
    as (h' & log & Hcm).
  exists hs, h', log. split_and!; [|done|done].
  unfold main_halfmaps. rewrite Hbinned. cbn [mbind option_bind].
  rewrite Hnoise. cbn [mbind option_bind fst]. rewrite Hstat.
  cbn [mbind option_bind fst]. done.
Qed.

Lemma main_map_ready (unit_cell : R N * R N * R N) calculate_d
    map_asu fc_asu :
  ∃ n, ∀ fuel, n < fuel →
    ∃ hs h' log,
      main_map N fuel unit_cell calculate_d map_asu fc_asu
      = Some (h', ["DELFWT"], log) ∧
      calc_maps N hs None false = Some (h', ["DELFWT"], log) ∧
      columns_ready N ["FC"; "FP"] hs.
Proof.
  destruct (mask_and_fft_maps_single N unit_cell map_asu)
    as (h1 & Hmask & Hd & _ & HFC & Hlabs).
  destruct (main_binned_ready N unit_cell calculate_d [map_asu] fc_asu
              ["FP"] h1 Hmask Hd HFC Hlabs)
    as (n & Hn).
  exists n. intros fuel Hfuel.
  destruct (Hn fuel Hfuel) as (h4 & Hbinned & Hready & _).
  set (labs := ["FC"; "FP"]) in *.
  destruct Hready as [Hcols Hdlen].
  destruct (Hcols "FP") as (FP & HFP & _); [repeat constructor|].
  destruct (Hcols "FC") as (FC & HFC4 & _); [repeat constructor|].
  destruct (calc_D_and_S_same N h4 false FP FC HFP HFC4)
    as (hs & report & Hstat & Hdf & Hhkl & Hds & _).
  pose proof (columns_ready_same N labs h4 hs Hdf Hhkl Hds (conj Hcols Hdlen))
    as Hready6.
  assert (df N hs !! "FP" = Some FP) as HFP6 by by rewrite Hdf.
  assert (df N hs !! "FC" = Some FC) as HFC6 by by rewrite Hdf.
  destruct (calc_maps_returns N hs None false FP FC HFP6 HFC6)
    as (h' & log & Hcm).
  exists hs, h', log. split_and!; [|done|done].
  unfold main_map. rewrite Hbinned. cbn [mbind option_bind].
  rewrite Hstat. cbn [mbind option_bind fst]. done.
Qed.

(** What [dump_to_mtz] writes for the coefficients of [calc_maps]. *)
Lemma dump_after_calc_maps hs B (hh : bool) h' log ready :
  calc_maps N hs B hh = Some (h', map_labels N B hh, log) →
  columns_ready N ready hs → "FP" ∈ ready → "FC" ∈ ready →
  ∃ mtz,
    dump_to_mtz N np_angle_deg h' (map_labels N B hh) = Some mtz ∧
    mtz_columns N mtz = dump_columns (map_labels N B hh ++ ["FP"; "FC"]) ∧
    NoDup (mtz_columns N mtz).*1 ∧
    length (mtz_data N mtz) = length (df_hkl N h') ∧
    ∀ row, row ∈ mtz_data N mtz →
      length row = length (mtz_columns N mtz) ∧ Forall is_Some row.
Proof.
  intros Hcm Hready HFP HFC.
  destruct (calc_maps_dumpable hs B hh h' _ log ready Hcm Hready HFP HFC)
    as [_ Hall].
  pose proof (dump_to_mtz_cases N np_angle_deg h' (map_labels N B hh)) as Hc.
  destruct (dump_to_mtz N np_angle_deg h' (map_labels N B hh)) as [mtz|].
  - destruct Hc as (_ & _ & _ & Hcols & Hlay). exists mtz.
    split_and!; try done.
    + rewrite Hcols. destruct hh, B; apply (bool_decide_unpack _);
        by vm_compute.
    + by destruct Hlay.
    + intros row Hrow. apply list_elem_of_lookup in Hrow as [j Hj]. split.
      * rewrite Hcols, length_dump_columns. destruct Hlay as [Hlen Hrows].
        destruct (lookup_lt_is_Some_2 (df_hkl N h') j) as [hkl Hhkl].
        { rewrite <- Hlen. by apply lookup_lt_Some in Hj. }
        destruct (Hrows j hkl Hhkl) as (row' & Hrow' & Hw' & _). congruence.
      * by apply (dump_layout_assigned N np_angle_deg h' _ _ j row Hlay).
  - destruct Hc as (lab & Hlab & Hbad).
    destruct (Hall lab Hlab) as (col & Hcol & Hlen). by destruct (Hbad col).
Qed.

End main_dump_facts.

(** ** [blur_mtz]: the loop that collects the sigma columns *)

Section add_sigmas_facts.
Implicit Types (labels L pre acc : list string).

Lemma sigma_next_app labels L1 L2 :
  sigma_next labels (L1 ++ L2) = sigma_next labels L1 ++ sigma_next labels L2.
Proof. unfold sigma_next. by rewrite fmap_app, filter_app. Qed.

Lemma sigma_next_one labels l :
  sigma_next labels [l]
  = if bool_decide ("SIG" +:+ l ∈ labels) then ["SIG" +:+ l] else [].
Proof.
  unfold sigma_next. cbn [fmap list_fmap]. rewrite filter_cons, filter_nil.
  case_bool_decide; by case_decide.
Qed.

Lemma sigma_next_length labels L : length (sigma_next labels L) ≤ length L.
Proof.
  unfold sigma_next. etrans; [apply length_filter|]. by rewrite length_fmap.
Qed.

Lemma elem_of_sigma_next labels L x :
  x ∈ sigma_next labels L ↔ x ∈ labels ∧ ∃ l, l ∈ L ∧ x = "SIG" +:+ l.
Proof.
  unfold sigma_next. rewrite list_elem_of_filter, list_elem_of_fmap.
  split.
  - intros [Hx (l & -> & Hl)]. split; [done|]. by exists l.
  - intros [Hx (l & Hl & ->)]. split; [done|]. by exists l.
Qed.

(** One pass over the level [L]: the iterator moves to the end of [L], and
    what [L] appends is behind what was appended before. *)
Lemma add_sigmas_level labels fuel pre L acc :
  add_sigmas (length L + fuel) labels (length pre) (pre ++ L ++ acc)
  = add_sigmas fuel labels (length pre + length L)
      (pre ++ L ++ acc ++ sigma_next labels L).
Proof.
  revert pre acc. induction L as [|x L IH]; intros pre acc.
  { cbn [length app]. by rewrite Nat.add_0_r, app_nil_r. }
  cbn [length Nat.add add_sigmas app].
  rewrite (list_lookup_middle pre (L ++ acc) x (length pre) eq_refl).
  cbv zeta.
  replace (if bool_decide ("SIG" +:+ x ∈ labels)
           then (pre ++ x :: L ++ acc) ++ ["SIG" +:+ x]
           else pre ++ x :: L ++ acc)
    with ((pre ++ [x]) ++ L ++ (acc ++ sigma_next labels [x])).
  2:{ rewrite sigma_next_one. case_bool_decide.
      - rewrite <- !app_assoc. cbn [app]. by rewrite <- !app_assoc.
      - by rewrite app_nil_r, <- !app_assoc. }
  replace (S (length pre)) with (length (pre ++ [x]))
    by (rewrite length_app; simpl; lia).
  rewrite IH. rewrite length_app. cbn [length].
  replace (length pre + 1 + length L) with (length pre + S (length L)) by lia.
  f_equal. change (x :: L) with ([x] ++ L).
  rewrite sigma_next_app. by rewrite <- !app_assoc.
Qed.

Lemma sigma_iter_length labels n L :
  length (Nat.iter n (sigma_next labels) L) ≤ length L.
Proof.
  induction n as [|n IH]; [done|]. cbn [Nat.iter nat_rect].
  etrans; [apply sigma_next_length | exact IH].
Qed.

(** The loop from the start of a level, when level [n] is empty. *)
Lemma add_sigmas_levels labels n pre L fuel :
  Nat.iter n (sigma_next labels) L = [] →
  n * length L < fuel →
  add_sigmas fuel labels (length pre) (pre ++ L)
  = Some (pre ++ sigma_levels labels n L).
Proof.
  revert pre L fuel. induction n as [|n IH]; intros pre L fuel Hn Hfuel.
  { cbn in Hn. subst L. destruct fuel as [|fuel]; [lia|].
    cbn [add_sigmas sigma_levels]. rewrite app_nil_r.
    by rewrite lookup_ge_None_2. }
  rewrite Nat.iter_succ_r in Hn.
  replace fuel with (length L + (fuel - length L)) by lia.
  pose proof (add_sigmas_level labels (fuel - length L) pre L []) as Hl.
  rewrite app_nil_r in Hl. rewrite Hl. cbn [app].
  rewrite <- length_app, app_assoc. rewrite IH; [|done|].
  - cbn [sigma_levels]. by rewrite <- app_assoc.
  - assert (n * length (sigma_next labels L) ≤ n * length L)
      by apply Nat.mul_le_mono_l, sigma_next_length.
    cbn [Nat.mul] in Hfuel. lia.
Qed.

Lemma sigma_iter_elem labels n L x :
  x ∈ Nat.iter n (sigma_next labels) L →
  3 * n ≤ String.length x ∧ (0 < n → x ∈ labels).
Proof.
  revert x. induction n as [|n IH]; intros x Hx; [split; lia|].
  cbn [Nat.iter nat_rect] in Hx.
  apply elem_of_sigma_next in Hx as (Hlab & l & Hl & ->).
  destruct (IH l Hl) as [Hlen _]. split; [|done].
  change (3 * S n ≤ S (S (S (String.length l)))). lia.
Qed.

(** The levels run out: every label of level [n] has [3 n] characters at
    least and is a label of a column. *)
Lemma sigma_iter_empty labels L :
  Nat.iter (S (max_list (String.length <$> labels))) (sigma_next labels) L
  = [].
Proof.
  set (n := S (max_list (String.length <$> labels))).
  destruct (Nat.iter n (sigma_next labels) L) as [|x rest] eqn:Hit; [done|].
  assert (x ∈ Nat.iter n (sigma_next labels) L) as Hx.
  { rewrite Hit. apply elem_of_cons. by left. }
  apply sigma_iter_elem in Hx as [Hlen Hlab].
  specialize (Hlab ltac:(unfold n; lia)).
  assert (String.length x ≤ max_list (String.length <$> labels)) as Hmax.
  { apply max_list_elem_of_le, list_elem_of_fmap. by exists x. }
  unfold n in Hlen. lia.
Qed.

Lemma sigma_levels_added labels n L x :
  x ∈ sigma_levels labels n (sigma_next labels L) →
  x ∈ labels ∧
  ∃ l, l ∈ L ++ sigma_levels labels n (sigma_next labels L) ∧
       x = "SIG" +:+ l.
Proof.
  revert L. induction n as [|n IH]; intros L Hx.
  { by apply elem_of_nil in Hx. }
  cbn [sigma_levels] in Hx |- *. apply elem_of_app in Hx as [Hx|Hx].
  - apply elem_of_sigma_next in Hx as (Hlab & l & Hl & ->).
    split; [done|]. exists l. split; [|done]. apply elem_of_app. by left.
  - destruct (IH _ Hx) as (Hlab & l & Hl & ->). split; [done|].
    exists l. split; [|done]. apply elem_of_app. by right.
Qed.

Lemma sigma_levels_closed labels n L l :
  Nat.iter n (sigma_next labels) L = [] →
  l ∈ sigma_levels labels n L → "SIG" +:+ l ∈ labels →
  "SIG" +:+ l ∈ sigma_levels labels n L.
Proof.
  revert L. induction n as [|n IH]; intros L Hn Hl Hsl.
  { by apply elem_of_nil in Hl. }
  rewrite Nat.iter_succ_r in Hn. cbn [sigma_levels] in Hl |- *.
  apply elem_of_app. right. apply elem_of_app in Hl as [Hl|Hl].
  - assert ("SIG" +:+ l ∈ sigma_next labels L) as Hin.
    { apply elem_of_sigma_next. split; [done|]. by exists l. }
    destruct n as [|n].
    + cbn in Hn. rewrite Hn in Hin. by apply elem_of_nil in Hin.
    + cbn [sigma_levels]. apply elem_of_app. by left.
  - by apply IH.
Qed.

(** X9. The loop of [blur_mtz] that extends a list of labels by the labels
    of their sigma columns, while it runs over that list, terminates: it
    needs fewer than [(m + 1) * n + 1] steps for [n] labels at the start
    and column labels of at most [m] characters. The list it leaves is the
    list at the start followed by the appended labels, level by level.
    Every appended label is the label of a column and is ["SIG"+l] for a
    label [l] of the list, and for every label [l] of the list such that
    ["SIG"+l] is the label of a column, ["SIG"+l] is in the list. *)
Theorem add_sigmas_closure (labels labs : list string) (fuel : nat) :
  S (max_list (String.length <$> labels)) * length labs < fuel →
  ∃ added,
    add_sigmas fuel labels 0 labs = Some (labs ++ added) ∧
    labs ++ added = sigma_closure labels labs ∧
    (∀ x, x ∈ added →
       x ∈ labels ∧ ∃ l, l ∈ labs ++ added ∧ x = "SIG" +:+ l) ∧
    (∀ l, l ∈ labs ++ added → "SIG" +:+ l ∈ labels →
       "SIG" +:+ l ∈ labs ++ added).
Proof.
  intros Hfuel. set (n := max_list (String.length <$> labels)) in *.
  exists (sigma_levels labels n (sigma_next labels labs)).
  pose proof (sigma_iter_empty labels labs) as Hempty. fold n in Hempty.
  split_and!.
  - exact (add_sigmas_levels labels (S n) [] labs fuel Hempty Hfuel).
  - done.
  - apply sigma_levels_added.
  - intros l. by apply (sigma_levels_closed labels (S n) labs l).
Qed.

End add_sigmas_facts.

Lemma add_sigmas_closure_witness :
  S (max_list (String.length <$> ["H"; "F"; "SIGF"; "SIGSIGF"])) * 1 < 9 ∧
  ∃ added,
    add_sigmas 9 ["H"; "F"; "SIGF"; "SIGSIGF"] 0 ["F"] = Some (["F"] ++ added).
Proof.
  split; [vm_compute; lia|].
  destruct (add_sigmas_closure ["H"; "F"; "SIGF"; "SIGSIGF"] ["F"] 9)
    as (added & Hrun & _); [vm_compute; lia|].
  by exists added.
Defined.

(** ** [blur_mtz] *)

Section blur_mtz_facts.
Context (N : Numeric) (V SG Cell : Type).
Variable mul_inplace : V → R N → V.
Variable make_1_d2 : Cell → list V → R N.
Implicit Types (mtz : GemmiMtz N V SG Cell) (k : list (R N)).

Lemma sigma_levels_elem labels n L x :
  x ∈ sigma_levels labels n L → x ∈ L ∨ x ∈ labels.
Proof.
  revert L. induction n as [|n IH]; intros L Hx.
  { by apply elem_of_nil in Hx. }
  cbn [sigma_levels] in Hx. apply elem_of_app in Hx as [Hx|Hx]; [by left|].
  destruct (IH _ Hx) as [Hn|Hl]; [|by right].
  apply elem_of_sigma_next in Hn as [Hl _]. by right.
Qed.

Lemma add_sigmas_returns labels L fuel :
  S (max_list (String.length <$> labels)) * length L < fuel →
  add_sigmas fuel labels 0 L = Some (sigma_closure labels L).
Proof.
  intros Hfuel.
  exact (add_sigmas_levels labels _ [] L fuel (sigma_iter_empty labels L)
           Hfuel).
Qed.

Lemma labels_of_types_columns mtz types l :
  l ∈ labels_of_types types mtz → l ∈ column_labels mtz.
Proof.
  unfold labels_of_types, column_labels. rewrite !list_elem_of_fmap.
  intros (c & -> & Hc). apply list_elem_of_filter in Hc as [_ Hc].
  by exists c.
Qed.

Lemma length_labels_of_types mtz types :
  length (labels_of_types types mtz) ≤ length (m_columns mtz).
Proof.
  unfold labels_of_types. rewrite length_fmap. apply length_filter.
Qed.

Lemma column_with_label_Some mtz l :
  l ∈ column_labels mtz → is_Some (column_with_label mtz l).
Proof.
  unfold column_labels, column_with_label. rewrite list_elem_of_fmap.
  intros (c & -> & Hc). apply list_find_elem_of with c; done.
Qed.

(** The position that [column_with_label] finds is the position of the
    first column of its label. *)
Lemma first_column_position mtz c col l i colᵢ :
  m_columns mtz !! c = Some col →
  column_with_label mtz l = Some (i, colᵢ) →
  c = i ↔ col_label col = l ∧
          fst <$> column_with_label mtz (col_label col) = Some c.
Proof.
  intros Hc Hfind. unfold column_with_label in *.
  pose proof Hfind as (Hi & Hli & Hfirst)%list_find_Some. split.
  - intros ->. assert (colᵢ = col) as -> by congruence.
    split; [done|]. by rewrite Hli, Hfind.
  - intros [Hl Hfst]. rewrite Hl, Hfind in Hfst. by injection Hfst.
Qed.

Lemma occurrences_cons l x labs :
  occurrences l (x :: labs)
  = if decide (x = l) then S (occurrences l labs) else occurrences l labs.
Proof. unfold occurrences. rewrite filter_cons. by case_decide. Qed.

(** The loop [for l in labs: c = mtz.column_with_label(l); c.array[:] *= k]
    returns when every label is the label of a column, changes the data
    only, and multiplies an entry of the first column of a label once for
    every occurrence of the label. *)
Lemma scale_columns_entries k labs mtz :
  (∀ l, l ∈ labs → l ∈ column_labels mtz) →
  length k = length (m_data mtz) →
  ∃ data,
    foldl (scale_column mul_inplace k) (Some mtz) labs
    = Some (mkGemmiMtz (m_spacegroup mtz) (m_cell mtz) (m_history mtz)
              (m_title mtz) (m_datasets mtz) (m_columns mtz) data) ∧
    length data = length (m_data mtz) ∧
    ∀ r row, m_data mtz !! r = Some row →
      ∃ x row', k !! r = Some x ∧ data !! r = Some row' ∧
        length row' = length row ∧
        ∀ c col v, m_columns mtz !! c = Some col → row !! c = Some v →
          row' !! c
          = Some (if bool_decide
                       (fst <$> column_with_label mtz (col_label col)
                        = Some c)
                  then Nat.iter (occurrences (col_label col) labs)
                         (λ v, mul_inplace v x) v
                  else v).
Proof.
  revert mtz. induction labs as [|l labs IH]; intros mtz Hlabs Hlen.
  { exists (m_data mtz). cbn [foldl]. split_and!; [by destruct mtz | done |].
    intros r row Hrow.
    destruct (lookup_lt_is_Some_2 k r) as [x Hx].
    { rewrite Hlen. by apply lookup_lt_Some in Hrow. }
    exists x, row. split_and!; try done.
    intros c col v _ Hv. rewrite Hv. by case_bool_decide. }
  cbn [foldl].
  destruct (column_with_label_Some mtz l) as [[i colᵢ] Hfind].
  { apply Hlabs, elem_of_cons. by left. }
  unfold scale_column at 2. cbn [mbind option_bind]. rewrite Hfind.
  cbn [mbind option_bind fst]. rewrite bool_decide_eq_true_2 by done.
  set (data1 := zip_with _ (m_data mtz) k).
  set (mtz1 := mkGemmiMtz _ _ _ _ _ _ data1).
  assert (length data1 = length (m_data mtz)) as Hlen1.
  { unfold data1. rewrite length_zip_with. lia. }
  destruct (IH mtz1) as (data & Hfold & Hlend & Hrows).
  { intros l' Hl'. apply Hlabs, elem_of_cons. by right. }
  { cbn [m_data mtz1]. congruence. }
  exists data. split_and!; [exact Hfold | cbn [m_data mtz1] in Hlend; congruence |].
  intros r row Hrow.
  destruct (lookup_lt_is_Some_2 k r) as [x Hx].
  { rewrite Hlen. by apply lookup_lt_Some in Hrow. }
  assert (data1 !! r = Some (alter (λ v, mul_inplace v x) i row)) as Hrow1.
  { unfold data1. by rewrite lookup_zip_with, Hrow, Hx. }
  destruct (Hrows r _ Hrow1) as (x' & row' & Hx' & Hrow' & Hlr & Hent).
  assert (x' = x) as -> by congruence.
  exists x, row'. split_and!; [done | done | by rewrite Hlr, length_alter |].
  intros c col v Hc Hv. cbn [m_columns mtz1] in Hent.
  pose proof (first_column_position mtz c col l i colᵢ Hc Hfind) as Hpos.
  rewrite occurrences_cons.
  destruct (decide (c = i)) as [->|Hne].
  - destruct (proj1 Hpos eq_refl) as [Hl Hfst].
    rewrite (Hent i col (mul_inplace v x) Hc).
    2:{ by rewrite list_lookup_alter_eq, Hv. }
    change (column_with_label mtz1 (col_label col))
      with (column_with_label mtz (col_label col)).
    rewrite !bool_decide_eq_true_2 by done.
    rewrite decide_True by done. by rewrite Nat.iter_succ_r.
  - rewrite (Hent c col v Hc).
    2:{ by rewrite list_lookup_alter_ne. }
    change (column_with_label mtz1 (col_label col))
      with (column_with_label mtz (col_label col)).
    destruct (bool_decide (fst <$> column_with_label mtz (col_label col)
                           = Some c)) eqn:Hfst; [|done].
    apply bool_decide_eq_true in Hfst.
    rewrite decide_False; [done|]. intros Hl. apply Hne, Hpos. by split.
Qed.
Lemma occurrences_absent l labs : l ∉ labs → occurrences l labs = 0.
Proof.
  intros Hl. unfold occurrences.
  destruct (filter (λ x, x = l) labs) as [|x rest] eqn:Hf; [done|].
  assert (x ∈ filter (λ x, x = l) labs) as Hx.
  { rewrite Hf. apply elem_of_cons. by left. }
  apply list_elem_of_filter in Hx as [-> Hx]. done.
Qed.

Lemma sigma_closure_columns mtz types l :
  l ∈ sigma_closure (column_labels mtz) (labels_of_types types mtz) →
  l ∈ column_labels mtz.
Proof.
  intros [Hl|Hl]%sigma_levels_elem; [|done].
  by apply labels_of_types_columns in Hl.
Qed.

(** X10. [blur_mtz] returns for every MTZ object, once the loop bound
    exceeds a number that depends on the labels only. It logs the closures
    of the labels of the columns of type J or K and of type F, D or G under
    the sigma labels. It changes nothing but the data; every row keeps its
    length; the entry of a row in the first column of a label is
    multiplied by [exp(-B*s2/2)] once for every occurrence of the label in
    the first list and then by [exp(-B*s2/4)] once for every occurrence in
    the second, with [s2] the [1/d^2] of the row; every other entry, a
    later column of a repeated label included, is as before. *)
Theorem blur_mtz_entries mtz (B : R N) (fuel : nat) :
  S (max_list (String.length <$> column_labels mtz))
    * length (m_columns mtz) < fuel →
  ∃ data,
    blur_mtz mul_inplace make_1_d2 fuel mtz B
    = Some (mkGemmiMtz (m_spacegroup mtz) (m_cell mtz) (m_history mtz)
              (m_title mtz) (m_datasets mtz) (m_columns mtz) data,
            sigma_closure (column_labels mtz) (labels_of_types "JK" mtz),
            sigma_closure (column_labels mtz) (labels_of_types "FDG" mtz)) ∧
    length data = length (m_data mtz) ∧
    ∀ r row, m_data mtz !! r = Some row →
      ∃ row', data !! r = Some row' ∧ length row' = length row ∧
        ∀ c col v, m_columns mtz !! c = Some col → row !! c = Some v →
          row' !! c
          = Some (blurred_entry mul_inplace make_1_d2 mtz B
                    (sigma_closure (column_labels mtz)
                       (labels_of_types "JK" mtz))
                    (sigma_closure (column_labels mtz)
                       (labels_of_types "FDG" mtz))
                    row c col v) ∧
          (col_label col
           ∉ sigma_closure (column_labels mtz) (labels_of_types "JK" mtz)
             ++ sigma_closure (column_labels mtz)
                  (labels_of_types "FDG" mtz) →
           row' !! c = Some v).
Proof.
  intros Hfuel. unfold blur_mtz. cbv zeta.
  set (labels := column_labels mtz) in *.
  set (M := S (max_list (String.length <$> labels))) in *.
  assert (∀ types, M * length (labels_of_types types mtz) < fuel) as Hf.
  { intros types.
    pose proof (length_labels_of_types mtz types) as Hle.
    assert (M * length (labels_of_types types mtz)
            ≤ M * length (m_columns mtz)) by by apply Nat.mul_le_mono_l.
    lia. }
  rewrite !add_sigmas_returns by apply Hf. cbn [mbind option_bind].
  set (i_labs := sigma_closure labels (labels_of_types "JK" mtz)).
  set (f_labs := sigma_closure labels (labels_of_types "FDG" mtz)).
  set (s2 := make_1_d2 (m_cell mtz) <$> m_data mtz).
  destruct (scale_columns_entries (blur_k N B false s2) i_labs mtz)
    as (data1 & Hfold1 & Hlen1 & Hrows1).
  { intros l. apply sigma_closure_columns. }
  { unfold blur_k, s2. by rewrite !length_fmap. }
  rewrite Hfold1. cbn [mbind option_bind].
  set (mtz1 := mkGemmiMtz _ _ _ _ _ _ data1) in *.
  destruct (scale_columns_entries (blur_k N B true s2) f_labs mtz1)
    as (data & Hfold & Hlen & Hrows).
  { intros l. apply sigma_closure_columns. }
  { unfold blur_k, s2. cbn [m_data mtz1]. by rewrite !length_fmap, Hlen1. }
  rewrite Hfold. cbn [mbind option_bind]. exists data.
  split; [done|]. split; [cbn [m_data mtz1] in Hlen; congruence|].
  intros r row Hrow.
  destruct (Hrows1 r row Hrow) as (x2 & row1 & Hx2 & Hrow1 & Hl1 & Hent1).
  destruct (Hrows r row1 Hrow1) as (x & row' & Hx & Hrow' & Hl & Hent).
  exists row'. split; [done|]. split; [congruence|].
  unfold blur_k, s2 in Hx2, Hx.
  rewrite !list_lookup_fmap, Hrow in Hx2, Hx.
  injection Hx2 as <-. injection Hx as <-.
  intros c col v Hc Hv.
  assert (row' !! c
          = Some (blurred_entry mul_inplace make_1_d2 mtz B i_labs f_labs
                    row c col v)) as Hentry.
  { rewrite (Hent c col _ Hc (Hent1 c col v Hc Hv)).
    cbn [m_columns mtz1].
    change (column_with_label mtz1 (col_label col))
      with (column_with_label mtz (col_label col)).
    unfold blurred_entry, mtz_blur_factor. cbv zeta.
    by destruct (bool_decide _). }
  split; [exact Hentry|]. intros Hnot. rewrite Hentry.
  apply not_elem_of_app in Hnot as [Hi Hf'].
  unfold blurred_entry. cbv zeta.
  rewrite (occurrences_absent _ _ Hi), (occurrences_absent _ _ Hf').
  by destruct (bool_decide _).
Qed.
End blur_mtz_facts.

Lemma blur_mtz_entries_witness :
  S (max_list (String.length <$> column_labels ExampleMtz.mtz))
    * length (m_columns ExampleMtz.mtz) < 40 ∧
  ∃ data,
    blur_mtz (N := Float64.numeric) ExampleMtz.mul_inplace
      ExampleMtz.make_1_d2 40 ExampleMtz.mtz 10%float
    = Some (mkGemmiMtz (m_spacegroup ExampleMtz.mtz) (m_cell ExampleMtz.mtz)
              (m_history ExampleMtz.mtz) (m_title ExampleMtz.mtz)
              (m_datasets ExampleMtz.mtz) (m_columns ExampleMtz.mtz) data,
            [], ["FP"; "SIGFP"]).
Proof.
  assert (S (max_list (String.length <$> column_labels ExampleMtz.mtz))
            * length (m_columns ExampleMtz.mtz) < 40) as Hfuel
    by (vm_compute; lia).
  split; [exact Hfuel|].
  destruct (blur_mtz_entries Float64.numeric float unit float
              ExampleMtz.mul_inplace ExampleMtz.make_1_d2 ExampleMtz.mtz
              10%float 40 Hfuel) as (data & Hrun & _).
  exists data. exact Hrun.
Defined.

(** ** [mtz_selected] *)

Section mtz_selected_facts.
Context (N : Numeric) (V SG Cell : Type).
Implicit Types (mtz : GemmiMtz N V SG Cell) (cols : list MtzColumn).

Lemma copy_dataset_id (ds : MtzDataset N Cell) : copy_dataset ds = ds.
Proof. by destruct ds. Qed.

(** The two dictionaries hold, for every label, the last column of that
    label and its position. *)
Lemma col_dicts_last cols l :
  match (foldl (λ (m : gmap string nat) (ix : nat * MtzColumn),
                  <[col_label ix.2 := ix.1]> m) ∅ (imap pair cols)) !! l with
  | Some i =>
      ∃ col, cols !! i = Some col ∧ col_label col = l ∧
             (∀ j y, i < j → cols !! j = Some y → col_label y ≠ l) ∧
             (foldl (λ (m : gmap string MtzColumn) x,
                       <[col_label x := x]> m) ∅ cols) !! l = Some col
  | None =>
      (l ∉ col_label <$> cols) ∧
      (foldl (λ (m : gmap string MtzColumn) x, <[col_label x := x]> m)
         ∅ cols) !! l = None
  end.
Proof.
  induction cols as [|x cols IH] using rev_ind.
  { cbn. rewrite !lookup_empty. split; [|done]. apply not_elem_of_nil. }
  rewrite imap_app, !foldl_app. cbn [imap foldl fst snd].
  rewrite Nat.add_0_r.
  destruct (decide (col_label x = l)) as [<-|Hne].
  - rewrite !lookup_insert_eq. exists x. split_and!; try done.
    + by rewrite lookup_app_r, Nat.sub_diag.
    + intros j y Hj Hy. apply lookup_lt_Some in Hy.
      rewrite length_app in Hy. cbn [length] in Hy. lia.
  - rewrite !lookup_insert_ne by done.
    destruct (foldl _ ∅ (imap pair cols) !! l) as [i|].
    + destruct IH as (col & Hi & Hl & Hlast & Hd). exists col.
      split_and!; try done.
      * rewrite lookup_app_l; [done|]. by apply lookup_lt_Some in Hi.
      * intros j y Hj Hy.
        destruct (decide (j < length cols)) as [Hlt|Hge].
        -- rewrite lookup_app_l in Hy by done. by apply (Hlast j).
        -- rewrite lookup_app_r in Hy by lia.
           destruct (j - length cols) as [|n]; [|done].
           by injection Hy as <-.
    + destruct IH as [Hnot Hd]. split; [|done].
      rewrite fmap_app. cbn [fmap list_fmap].
      rewrite elem_of_app, elem_of_cons, elem_of_nil.
      by intros [?|[?|[]]].
Qed.

Lemma col_idxes_Some mtz l i :
  col_idxes mtz !! l = Some i →
  ∃ col, last_with_label mtz l i col ∧ col_dict mtz !! l = Some col.
Proof.
  intros Hi. pose proof (col_dicts_last (m_columns mtz) l) as H.
  unfold col_idxes in Hi. rewrite Hi in H.
  destruct H as (col & H1 & H2 & H3 & H4). by exists col.
Qed.

Lemma col_idxes_None mtz l :
  col_idxes mtz !! l = None ↔ l ∉ column_labels mtz.
Proof.
  pose proof (col_dicts_last (m_columns mtz) l) as H.
  unfold col_idxes, column_labels. split.
  - intros Hi. rewrite Hi in H. by destruct H.
  - intros Hnot. destruct (foldl _ ∅ (imap pair (m_columns mtz)) !! l)
      as [i|]; [|done].
    destruct H as (col & Hi & Hl & _). exfalso. apply Hnot.
    apply list_elem_of_fmap. exists col. split; [done|].
    by apply list_elem_of_lookup_2 in Hi.
Qed.

(** [mtz_selected] fails exactly on a label that is no column, and takes
    for each label the last column of that label. *)
Lemma mtz_selected_cases mtz columns :
  mtz_rows_full mtz →
  match mtz_selected mtz columns with
  | None =>
      ∃ l, l ∈ ["H"; "K"; "L"] ++ columns ∧ l ∉ column_labels mtz
  | Some mtz2 =>
      (∀ l, l ∈ ["H"; "K"; "L"] ++ columns → l ∈ column_labels mtz) ∧
      m_spacegroup mtz2 = m_spacegroup mtz ∧ m_cell mtz2 = m_cell mtz ∧
      m_history mtz2 = m_history mtz ∧ m_title mtz2 = m_title mtz ∧
      m_datasets mtz2 = m_datasets mtz ∧
      length (m_columns mtz2) = 3 + length columns ∧
      length (m_data mtz2) = length (m_data mtz) ∧
      (∀ r row', m_data mtz2 !! r = Some row' →
         length row' = 3 + length columns) ∧
      ∀ p l, (["H"; "K"; "L"] ++ columns) !! p = Some l →
        ∃ i col,
          last_with_label mtz l i col ∧ m_columns mtz2 !! p = Some col ∧
          ∀ r row, m_data mtz !! r = Some row →
            ∃ row' v, m_data mtz2 !! r = Some row' ∧
                      row !! i = Some v ∧ row' !! p = Some v
  end.
Proof.
  intros Hfull. unfold mtz_selected. cbv zeta.
  set (labs := ["H"; "K"; "L"] ++ columns).
  case_bool_decide as Hnf.
  { destruct (filter _ labs) as [|l rest] eqn:Hf; [done|].
    assert (l ∈ filter (λ col, col_idxes mtz !! col = None) labs) as Hl.
    { rewrite Hf. apply elem_of_cons. by left. }
    apply list_elem_of_filter in Hl as [Hnone Hl].
    exists l. split; [done|]. by apply col_idxes_None. }
  assert (filter (λ col, col_idxes mtz !! col = None) labs = []) as Hnil.
  { exact Hnf. }
  assert (∀ l, l ∈ labs → ∃ i col, col_idxes mtz !! l = Some i ∧
            last_with_label mtz l i col ∧ col_dict mtz !! l = Some col)
    as Hfound.
  { intros l Hl. destruct (col_idxes mtz !! l) as [i|] eqn:Hi.
    - destruct (col_idxes_Some mtz l i Hi) as (col & Hlast & Hd).
      by exists i, col.
    - assert (l ∈ filter (λ col, col_idxes mtz !! col = None) labs) as Hin
        by by apply list_elem_of_filter.
      rewrite Hnil in Hin. by apply elem_of_nil in Hin. }
  destruct (mapM_is_Some_2
              (λ col, x ← col_dict mtz !! col;
                      Some (mkMtzColumn col (col_type x) (col_dataset_id x)))
              labs) as [cols Hcols].
  { apply Forall_forall. intros l Hl.
    destruct (Hfound l Hl) as (i & col & _ & _ & Hd).
    unfold compose. rewrite Hd. by eexists. }
  rewrite Hcols. cbn [mbind option_bind].
  destruct (mapM_is_Some_2 (λ col, col_idxes mtz !! col) labs)
    as [idxes Hidx].
  { apply Forall_forall. intros l Hl.
    destruct (Hfound l Hl) as (i & col & Hi & _). unfold compose.
    by rewrite Hi. }
  rewrite Hidx. cbn [mbind option_bind].
  pose proof (mapM_Some_1 _ _ _ Hcols) as Hcols2.
  pose proof (mapM_Some_1 _ _ _ Hidx) as Hidx2.
  assert (∀ p i, idxes !! p = Some i → i < length (m_columns mtz)) as Hrange.
  { intros p i Hp.
    destruct (Forall2_lookup_r _ _ _ _ _ Hidx2 Hp) as (l & Hl & Hi).
    destruct (col_idxes_Some mtz l i Hi) as (col & (Hc & _) & _).
    by apply lookup_lt_Some in Hc. }
  destruct (mapM_is_Some_2 (λ row : list V, mapM (λ i, row !! i) idxes)
              (m_data mtz)) as [data Hdata].
  { apply Forall_forall. intros row Hrow. unfold compose.
    apply mapM_is_Some_2, Forall_lookup. intros p i Hp. unfold compose.
    apply lookup_lt_is_Some_2.
    rewrite (proj1 (Forall_forall _ _) Hfull row Hrow). by apply (Hrange p). }
  rewrite Hdata. cbn [mbind option_bind].
  pose proof (mapM_Some_1 _ _ _ Hdata) as Hdata2.
  cbn [m_spacegroup m_cell m_history m_title m_datasets m_columns m_data].
  assert (length labs = 3 + length columns) as Hlabs by done.
  split_and!; try done.
  - intros l Hl. destruct (Hfound l Hl) as (i & col & _ & (Hc & Hlab & _) & _).
    apply list_elem_of_fmap. exists col. split; [done|].
    by apply list_elem_of_lookup_2 in Hc.
  - rewrite <- (list_fmap_id (m_datasets mtz)) at 2.
    apply list_fmap_ext. intros ? ds _. apply copy_dataset_id.
  - by rewrite <- (Forall2_length _ _ _ Hcols2).
  - by rewrite <- (Forall2_length _ _ _ Hdata2).
  - intros r row' Hr.
    destruct (Forall2_lookup_r _ _ _ _ _ Hdata2 Hr) as (row & _ & Hrow').
    apply length_mapM in Hrow'. rewrite <- Hrow'.
    by rewrite <- (Forall2_length _ _ _ Hidx2).
  - intros p l Hp.
    destruct (Hfound l (list_elem_of_lookup_2 _ _ _ Hp))
      as (i & col & Hi & Hlast & Hd).
    exists i, col. split; [done|].
    destruct (Forall2_lookup_l _ _ _ _ _ Hcols2 Hp) as (col' & Hcol' & Hmk).
    rewrite Hd in Hmk. cbn [mbind option_bind] in Hmk.
    injection Hmk as <-.
    destruct (Forall2_lookup_l _ _ _ _ _ Hidx2 Hp) as (i' & Hi' & Hii).
    assert (i' = i) as -> by congruence.
    split.
    { rewrite Hcol'. f_equal. destruct Hlast as (_ & <- & _).
      by destruct col. }
    intros r row Hrow.
    destruct (Forall2_lookup_l _ _ _ _ _ Hdata2 Hrow) as (row' & Hrow' & Hsel).
    apply mapM_Some_1 in Hsel.
    destruct (Forall2_lookup_l _ _ _ _ _ Hsel Hi') as (v & Hv & Hrv).
    by exists row', v.
Qed.
(** X11. On an MTZ object whose rows have one entry for every column,
    [mtz_selected] raises exactly when [H], [K], [L] or one of the
    requested labels is not the label of a column. Otherwise the new
    object has the space group, cell, history, title and data sets of the
    old one, the columns [H], [K], [L] followed by the requested labels in
    the order of the request, and as many rows; where a label is repeated
    in the old object, the column and the data are those of the last
    column of that label. *)
Theorem mtz_selected_columns mtz (columns : list string) :
  mtz_rows_full mtz →
  match mtz_selected mtz columns with
  | None =>
      ∃ l, l ∈ ["H"; "K"; "L"] ++ columns ∧ l ∉ column_labels mtz
  | Some mtz2 =>
      (∀ l, l ∈ ["H"; "K"; "L"] ++ columns → l ∈ column_labels mtz) ∧
      m_spacegroup mtz2 = m_spacegroup mtz ∧ m_cell mtz2 = m_cell mtz ∧
      m_history mtz2 = m_history mtz ∧ m_title mtz2 = m_title mtz ∧
      m_datasets mtz2 = m_datasets mtz ∧
      column_labels mtz2 = ["H"; "K"; "L"] ++ columns ∧
      length (m_data mtz2) = length (m_data mtz) ∧
      mtz_rows_full mtz2 ∧
      ∀ p l, (["H"; "K"; "L"] ++ columns) !! p = Some l →
        ∃ i col,
          last_with_label mtz l i col ∧ m_columns mtz2 !! p = Some col ∧
          ∀ r row, m_data mtz !! r = Some row →
            ∃ row' v, m_data mtz2 !! r = Some row' ∧
                      row !! i = Some v ∧ row' !! p = Some v
  end.
Proof.
  intros Hfull. pose proof (mtz_selected_cases mtz columns Hfull) as Hc.
  destruct (mtz_selected mtz columns) as [mtz2|]; [|exact Hc].
  destruct Hc as (Hall & Hsg & Hcell & Hhist & Htitle & Hds & Hlen & Hld
                  & Hwidth & Hsel).
  split_and!; try done.
  - apply list_eq_same_length with (3 + length columns); [done| |].
    { unfold column_labels. by rewrite length_fmap. }
    intros p x y _ Hx Hy.
    destruct (Hsel p y Hy) as (i & col & (_ & Hl & _) & Hp & _).
    unfold column_labels in Hx. rewrite list_lookup_fmap, Hp in Hx.
    injection Hx as <-. done.
  - apply Forall_lookup. intros r row' Hr. rewrite Hlen.
    by apply (Hwidth r).
Qed.

(** X12. Selecting every column gives the object back: when the labels of
    an MTZ object are distinct and start with [H], [K], [L], and its rows
    have one entry for every column, [mtz_selected] with the other labels
    in their order returns an object with the same space group, cell,
    history, title, data sets, columns and data. *)
Theorem mtz_selected_all mtz (rest : list string) :
  mtz_rows_full mtz → NoDup (column_labels mtz) →
  column_labels mtz = ["H"; "K"; "L"] ++ rest →
  mtz_selected mtz rest = Some mtz.
Proof.
  intros Hfull Hnd Hlabs.
  pose proof (mtz_selected_cases mtz rest Hfull) as Hc.
  destruct (mtz_selected mtz rest) as [mtz2|].
  2:{ destruct Hc as (l & Hl & Hnot). by rewrite Hlabs in Hnot. }
  destruct Hc as (_ & Hsg & Hcell & Hhist & Htitle & Hds & Hlen & Hld
                  & Hwidth & Hsel).
  assert (length (m_columns mtz) = 3 + length rest) as Hn.
  { rewrite <- (length_fmap col_label). fold (column_labels mtz).
    by rewrite Hlabs. }
  assert (∀ p l i col, (["H"; "K"; "L"] ++ rest) !! p = Some l →
            last_with_label mtz l i col → i = p) as Hpos.
  { intros p l i col Hp (Hi & Hl & _). rewrite <- Hlabs in Hp.
    apply (NoDup_lookup _ i p l Hnd); [|done].
    unfold column_labels. by rewrite list_lookup_fmap, Hi, <- Hl. }
  assert (m_columns mtz2 = m_columns mtz) as Hcols.
  { apply list_eq_same_length with (3 + length rest); [done|done|].
    intros p x y Hlt Hx Hy.
    destruct (lookup_lt_is_Some_2 (["H"; "K"; "L"] ++ rest) p) as [l Hp].
    { done. }
    destruct (Hsel p l Hp) as (i & col & Hlast & Hp2 & _).
    rewrite (Hpos p l i col Hp Hlast) in Hlast. destruct Hlast as [Hi _].
    congruence. }
  assert (m_data mtz2 = m_data mtz) as Hdata.
  { apply list_eq_same_length with (length (m_data mtz)); [done|done|].
    intros r row' row Hlt Hrow' Hrow.
    apply list_eq_same_length with (3 + length rest).
    - rewrite <- Hn. by apply (proj1 (Forall_lookup _ _) Hfull r).
    - by apply (Hwidth r).
    - intros p x y Hp Hx Hy.
      destruct (lookup_lt_is_Some_2 (["H"; "K"; "L"] ++ rest) p) as [l Hl].
      { done. }
      destruct (Hsel p l Hl) as (i & col & Hlast & _ & Hrows).
      rewrite (Hpos p l i col Hl Hlast) in Hrows.
      destruct (Hrows r row Hrow) as (row2 & v & Hr2 & Hv & Hv').
      congruence. }
  destruct mtz, mtz2. cbn in *. by subst.
Qed.

End mtz_selected_facts.

Lemma mtz_selected_columns_witness :
  mtz_rows_full ExampleMtz.mtz ∧
  column_labels <$> mtz_selected ExampleMtz.mtz ["PHI"; "FP"]
  = Some ["H"; "K"; "L"; "PHI"; "FP"].
Proof.
  assert (mtz_rows_full ExampleMtz.mtz) as Hfull
    by (unfold mtz_rows_full; repeat constructor).
  split; [exact Hfull|].
  pose proof (mtz_selected_columns Float64.numeric float unit float
                ExampleMtz.mtz ["PHI"; "FP"] Hfull) as Hc.
  destruct (mtz_selected ExampleMtz.mtz ["PHI"; "FP"]) as [mtz2|].
  - destruct Hc as (_ & _ & _ & _ & _ & _ & Hlabs & _).
    cbn [fmap option_fmap option_map]. by rewrite Hlabs.
  - exfalso. destruct Hc as (l & Hin & Hl). apply Hl. clear Hl. revert l Hin.
    apply (proj1 (Forall_forall
                    (λ l, l ∈ column_labels ExampleMtz.mtz) _)).
    apply (bool_decide_unpack _). by vm_compute.
Defined.

Lemma mtz_selected_all_witness :
  mtz_rows_full ExampleMtz.mtz ∧ NoDup (column_labels ExampleMtz.mtz) ∧
  column_labels ExampleMtz.mtz = ["H"; "K"; "L"] ++ ["FP"; "SIGFP"; "PHI"] ∧
  mtz_selected ExampleMtz.mtz ["FP"; "SIGFP"; "PHI"] = Some ExampleMtz.mtz.
Proof.
  assert (mtz_rows_full ExampleMtz.mtz) as Hfull
    by (unfold mtz_rows_full; repeat constructor).
  assert (NoDup (column_labels ExampleMtz.mtz)) as Hnd
    by (apply (bool_decide_unpack _); by vm_compute).
  split_and!; [exact Hfull | exact Hnd | reflexivity |].
  exact (mtz_selected_all Float64.numeric float unit float ExampleMtz.mtz
           ["FP"; "SIGFP"; "PHI"] Hfull Hnd eq_refl).
Defined.

(** ** [setup_relion_binning] raises no exception *)

Section strict_facts.
Context (N : Numeric).
Implicit Types (bc : list shell) (mt : list (Z * Z)) (ids : list Z).

Lemma select_nonempty {A} (sel : list bool) (a : list A) j :
  sel !! j = Some true → j < length a → select sel a ≠ [].
Proof.
  intros Hsel Hj Hnil. pose proof (select_lookup sel a j Hsel) as Hl.
  rewrite Hnil, lookup_nil in Hl.
  destruct (lookup_lt_is_Some_2 a j Hj) as [x Hx]. congruence.
Qed.

(** Line 315: every group has a record, so that the extrema are taken of
    a non-empty array. *)
Lemma initial_bin_ranges_ok bins (ds : list (R N)) bc :
  length ds = length bins → (∀ g, g ∈ bc → g.1 ∈ bins) →
  initial_bin_ranges_strict N bins ds bc
  = inr (initial_bin_ranges N bins ds bc).
Proof.
  intros Hlen. induction bc as [|g bc IH]; intros Hin; [done|].
  cbn [initial_bin_ranges_strict]. unfold initial_bin_ranges in *.
  cbn [fmap list_fmap]. cbv zeta.
  destruct (select (bin_mask g.1 bins) ds) as [|x gd] eqn:Hsel.
  { exfalso. assert (g.1 ∈ bins) as Hg by (apply Hin, elem_of_cons; by left).
    apply list_elem_of_lookup in Hg as [j Hj].
    apply (select_nonempty (bin_mask g.1 bins) ds j); [| |done].
    - rewrite (bin_mask_lookup _ _ _ _ Hj). by rewrite bool_decide_eq_true_2.
    - rewrite Hlen. by apply lookup_lt_Some in Hj. }
  cbn [bin_range_strict try_bind]. rewrite IH; [done|].
  intros g' Hg'. apply Hin, elem_of_cons. by right.
Qed.

Lemma initial_bin_ranges_keys bins (ds : list (R N)) bc :
  dict_keys (initial_bin_ranges N bins ds bc) = bc.*1.
Proof.
  unfold dict_keys, initial_bin_ranges. rewrite <- list_fmap_compose.
  by apply list_fmap_ext.
Qed.

(** Lines 317-323: the two positions read are in range. *)
Lemma forward_loop_ok n i bc mt :
  i + n = length bc →
  forward_loop_strict n i bc mt = inr (forward_loop n i bc mt).
Proof.
  revert i bc mt. induction n as [|n IH]; intros i bc mt Hn; [done|].
  cbn [forward_loop_strict forward_loop].
  rewrite (list_lookup_lookup_total_lt bc i) by lia.
  cbn [or_raise try_bind]. cbv zeta.
  destruct (bool_decide (size (bc !!! i).2 < 10)
            && bool_decide (i < length bc - 1)) eqn:Hg; [|done].
  apply andb_true_iff in Hg as [_ Hi%bool_decide_eq_true].
  rewrite (list_lookup_lookup_total_lt bc (S i)) by lia.
  cbn [or_raise try_bind]. apply IH. rewrite length_insert. lia.
Qed.

(** No group is empty, before the passes and all along them. *)
Lemma initial_bin_counts_nonempty bins :
  Forall (λ g : shell, g.2 ≠ ∅) (initial_bin_counts bins).
Proof.
  apply Forall_forall. intros [b m] Hg.
  apply elem_of_initial_bin_counts in Hg as (_ & Hb & ->).
  apply list_elem_of_lookup in Hb as [j Hj]. cbn [snd].
  intros Hempty. assert (j ∈ group_index b bins) as Hin
    by by apply elem_of_group_index.
  rewrite Hempty in Hin. by apply not_elem_of_empty in Hin.
Qed.

Lemma forward_loop_nonempty n i bc mt :
  Forall (λ g : shell, g.2 ≠ ∅) bc →
  Forall (λ g : shell, g.2 ≠ ∅) (forward_loop n i bc mt).1.
Proof.
  revert i bc mt. induction n as [|n IH]; intros i bc mt Hbc; [done|].
  cbn [forward_loop]. cbv zeta.
  destruct (bool_decide (size (bc !!! i).2 < 10)
            && bool_decide (i < length bc - 1)) eqn:Hg; [|done].
  apply andb_true_iff in Hg as [_ Hi%bool_decide_eq_true].
  apply IH, Forall_insert; [done|]. cbn [snd]. intros Hempty.
  apply empty_union_L in Hempty as [_ Hcur].
  apply (proj1 (Forall_lookup _ _) Hbc i (bc !!! i)); [|done].
  apply list_lookup_lookup_total_lt. lia.
Qed.

Lemma ratio_below_half (a b : nat) :
  b ≠ 0 → (Z.of_nat a # Pos.of_nat b < 1 # 2)%Q ↔ 2 * a < b.
Proof.
  intros Hb. unfold Qlt. cbn [Qnum Qden].
  rewrite <- (Nat2Z.id b) at 2.
  assert (Z.pos (Pos.of_nat b) = Z.of_nat b) as ->.
  { by rewrite <- Znat.positive_nat_Z, Nat2Pos.id. }
  rewrite Nat2Z.id. lia.
Qed.

(** Lines 325-331: the two positions read are in range and the divisor is
    the size of a group, which is not empty. *)
Lemma backward_loop_ok n bc mt :
  n ≤ length bc → Forall (λ g : shell, g.2 ≠ ∅) bc →
  backward_loop_strict n bc mt = inr (backward_loop n bc mt).
Proof.
  revert bc mt. induction n as [|i IH]; intros bc mt Hn Hbc; [done|].
  cbn [backward_loop_strict backward_loop]. cbv zeta.
  case_bool_decide as Hi; [|done]. cbn [andb].
  rewrite (list_lookup_lookup_total_lt bc i) by lia.
  rewrite (list_lookup_lookup_total_lt bc (i - 1)) by lia.
  cbn [or_raise try_bind].
  assert ((bc !!! (i - 1)).2 ≠ ∅) as Hprv.
  { apply (proj1 (Forall_lookup _ _) Hbc (i - 1) (bc !!! (i - 1))).
    apply list_lookup_lookup_total_lt. lia. }
  assert (size (bc !!! (i - 1)).2 ≠ 0) as Hsize.
  { intros Hz. apply size_empty_iff in Hz. by apply leibniz_equiv in Hz. }
  unfold true_div. rewrite decide_False by done. cbn [try_bind].
  destruct (Qlt_le_dec _ _) as [Hlt|Hge].
  - apply ratio_below_half in Hlt; [|done].
    rewrite bool_decide_eq_true_2 by done.
    apply IH; [rewrite length_insert; lia|].
    apply Forall_insert; [done|]. cbn [snd]. intros Hempty.
    by apply empty_union_L in Hempty as [? _].
  - rewrite bool_decide_eq_false_2; [done|]. intros Hlt.
    apply (ratio_below_half _ _ Hsize) in Hlt.
    by apply Qle_not_lt in Hge.
Qed.

(** Lines 333-339: the keys of the iteration stay keys of the table. *)
Lemma sweep_strict_ok keys mt flag :
  (∀ k, k ∈ keys → k ∈ dict_keys mt) →
  sweep_strict keys mt flag = inr (sweep keys mt flag).
Proof.
  revert mt flag. induction keys as [|k keys IH]; intros mt flag Hk; [done|].
  cbn [sweep_strict sweep].
  destruct (dict_get k mt) as [t|] eqn:Ht.
  2:{ apply dict_get_None in Ht. exfalso. apply Ht, Hk, elem_of_cons.
      by left. }
  cbn [or_raise try_bind].
  destruct (dict_get t mt) as [t'|]; apply IH; intros k' Hk'.
  - rewrite dict_keys_set_in; [|by apply (dict_get_Some_key _ _ t)].
    apply Hk, elem_of_cons. by right.
  - apply Hk, elem_of_cons. by right.
Qed.

Lemma resolve_strict_ok fuel mt :
  resolve_strict fuel mt = inr <$> resolve fuel mt.
Proof.
  revert mt. induction fuel as [|fuel IH]; intros mt; [done|].
  cbn [resolve_strict resolve]. rewrite sweep_strict_ok by done.
  destruct (sweep (dict_keys mt) mt true) as [mt' [|]]; [done|]. apply IH.
Qed.

Lemma dict_set_entry {V} (d : list (Z * V)) k v e :
  e ∈ dict_set k v d → e = (k, v) ∨ e ∈ d.
Proof.
  induction d as [|[k' v'] d IH]; cbn [dict_set].
  - rewrite elem_of_cons, elem_of_nil. tauto.
  - destruct (decide (k = k')) as [->|Hne]; rewrite !elem_of_cons.
    + tauto.
    + intros [->|He]; [tauto|]. destruct (IH He); tauto.
Qed.

Lemma entries_in_set ids mt k v :
  entries_in ids mt → k ∈ ids → v ∈ ids → entries_in ids (dict_set k v mt).
Proof.
  intros Hmt Hk Hv e He. apply dict_set_entry in He as [->|He]; [done|].
  by apply Hmt.
Qed.

Lemma shell_id_elem bc i : i < length bc → (bc !!! i).1 ∈ bc.*1.
Proof.
  intros Hi. apply list_elem_of_fmap. exists (bc !!! i). split; [done|].
  apply list_elem_of_lookup. exists i. by apply list_lookup_lookup_total_lt.
Qed.

Lemma forward_loop_entries n i bc mt ids :
  bc.*1 = ids → i + n = length bc → entries_in ids mt →
  (forward_loop n i bc mt).1.*1 = ids ∧
  entries_in ids (forward_loop n i bc mt).2.
Proof.
  revert i bc mt. induction n as [|n IH]; intros i bc mt Hids Hn Hmt; [done|].
  cbn [forward_loop]. cbv zeta.
  destruct (bool_decide (size (bc !!! i).2 < 10)
            && bool_decide (i < length bc - 1)) eqn:Hg; [|done].
  apply andb_true_iff in Hg as [_ Hi%bool_decide_eq_true].
  apply IH.
  - by rewrite shell_ids_insert.
  - rewrite length_insert. lia.
  - apply entries_in_set; [done| |]; rewrite <- Hids; apply shell_id_elem; lia.
Qed.

Lemma backward_loop_entries n bc mt ids :
  bc.*1 = ids → n ≤ length bc → entries_in ids mt →
  (backward_loop n bc mt).1.*1 = ids ∧
  entries_in ids (backward_loop n bc mt).2.
Proof.
  revert bc mt. induction n as [|i IH]; intros bc mt Hids Hn Hmt; [done|].
  cbn [backward_loop]. cbv zeta.
  destruct (bool_decide (0 < i)
            && bool_decide (2 * size (bc !!! i).2
                            < size (bc !!! (i - 1)).2)) eqn:Hg; [|done].
  apply andb_true_iff in Hg as [Hi%bool_decide_eq_true _].
  apply IH.
  - by rewrite shell_ids_insert.
  - rewrite length_insert. lia.
  - apply entries_in_set; [done| |]; rewrite <- Hids; apply shell_id_elem; lia.
Qed.

Lemma sweep_entries keys mt flag ids :
  entries_in ids mt → entries_in ids (sweep keys mt flag).1.
Proof.
  revert mt flag. induction keys as [|k keys IH]; intros mt flag Hmt; [done|].
  cbn [sweep]. destruct (dict_get k mt) as [t|] eqn:Ht; [|by apply IH].
  destruct (dict_get t mt) as [t'|] eqn:Ht'; [|by apply IH].
  apply IH, entries_in_set; [done| |].
  - by destruct (Hmt _ (dict_get_Some_elem _ _ _ Ht)).
  - by destruct (Hmt _ (dict_get_Some_elem _ _ _ Ht')).
Qed.

Lemma resolve_entries fuel mt mt' ids :
  entries_in ids mt → resolve fuel mt = Some mt' → entries_in ids mt'.
Proof.
  revert mt. induction fuel as [|fuel IH]; intros mt Hmt; [done|].
  cbn [resolve]. pose proof (sweep_entries (dict_keys mt) mt true ids Hmt) as Hs.
  destruct (sweep (dict_keys mt) mt true) as [mt1 [|]]; cbn [fst] in Hs.
  - by intros [= <-].
  - by apply IH.
Qed.

(** Lines 341-345: both keys of every entry are keys of [bin_ranges]. *)
Lemma merge_range_ok (ranges : list (Z * (R N * R N))) (e : Z * Z) :
  e.1 ∈ dict_keys ranges → e.2 ∈ dict_keys ranges →
  merge_range_strict N (inr ranges) e = inr (merge_range N ranges e) ∧
  dict_keys (merge_range N ranges e) = dict_keys ranges.
Proof.
  intros H1 H2. unfold merge_range_strict, merge_range.
  destruct (dict_get e.1 ranges) as [r|] eqn:Hr.
  2:{ by apply dict_get_None in Hr. }
  destruct (dict_get e.2 ranges) as [r'|] eqn:Hr'.
  2:{ by apply dict_get_None in Hr'. }
  cbn [or_raise try_bind]. rewrite Hr, Hr'. cbn [or_raise try_bind].
  split; [done|]. by apply dict_keys_set_in.
Qed.

Lemma merge_range_fold_ok (ranges : list (Z * (R N * R N))) mt :
  entries_in (dict_keys ranges) mt →
  foldl (merge_range_strict N) (inr ranges) mt
  = inr (foldl (merge_range N) ranges mt) ∧
  dict_keys (foldl (merge_range N) ranges mt) = dict_keys ranges.
Proof.
  revert ranges. induction mt as [|e mt IH]; intros ranges Hmt; [done|].
  cbn [foldl]. destruct (Hmt e) as [H1 H2]; [apply elem_of_cons; by left|].
  destruct (merge_range_ok ranges e H1 H2) as [-> Hk].
  destruct (IH (merge_range N ranges e)) as [Hf Hkeys].
  { rewrite Hk. intros e' He'. apply Hmt, elem_of_cons. by right. }
  split; [done | congruence].
Qed.

Lemma new_bin_rows_ok (ranges : list (Z * (R N * R N))) (shells : list shell) :
  (∀ g, g ∈ shells → g.1 ∈ dict_keys ranges) →
  new_bin_rows_strict N ranges shells
  = inr (new_bin_row N ranges <$> shells).
Proof.
  induction shells as [|g shells IH]; intros Hin; [done|].
  cbn [new_bin_rows_strict fmap list_fmap].
  destruct (dict_get g.1 ranges) as [r|] eqn:Hr.
  2:{ apply dict_get_None in Hr. exfalso. apply Hr, Hin, elem_of_cons.
      by left. }
  cbn [or_raise try_bind]. rewrite IH.
  - cbn [try_bind]. do 2 f_equal. unfold new_bin_row. by rewrite Hr.
  - intros g' Hg'. apply Hin, elem_of_cons. by right.
Qed.

End strict_facts.

(** ** [main] *)

Section main_facts.
Context (N : Numeric).
Variable np_angle_deg : C N → R N.

End main_facts.

(** ** [HklData.write_mtz] *)

Section write_mtz_facts.
Context (N : Numeric).
Variable np_angle_deg : C N → R N.
Variable astype_float32 : R N → R N.
#[local] Abbreviation column := (column N).
#[local] Abbreviation widths := (total_width N).

Lemma not_000_spec (hkl : Z * Z * Z) :
  not_000 hkl = true ↔ hkl ≠ (0, 0, 0)%Z.
Proof.
  destruct hkl as [[a b] c]. unfold not_000. cbn [fst snd].
  rewrite !orb_true_iff, !negb_true_iff, !bool_decide_eq_false. split.
  - intros [[H|H]|H] [= -> -> ->]; done.
  - intros Hne. destruct (decide (a = 0%Z)) as [->|]; [|tauto].
    destruct (decide (b = 0%Z)) as [->|]; [|tauto].
    right. by intros ->.
Qed.

Lemma select_filter {A} (f : A → bool) (l : list A) :
  select (f <$> l) l = filter (λ x, f x = true) l.
Proof.
  induction l as [|x l IH]; [done|]. cbn [fmap list_fmap select].
  rewrite filter_cons. destruct (f x) eqn:Hf; cbn [select].
  - rewrite decide_True by done. by rewrite IH.
  - rewrite decide_False by done. exact IH.
Qed.

(** With [exclude_000] the records of the frame are those whose index is
    not [(0, 0, 0)], in their order. *)
Lemma written_frame_hkl (h : HklData N) :
  df_hkl N (written_frame N true h)
  = filter (λ hkl, hkl ≠ (0, 0, 0)%Z) (df_hkl N h).
Proof.
  cbn [written_frame query_not_000 df_hkl]. rewrite select_filter.
  apply list_filter_iff. intros hkl. apply not_000_spec.
Qed.

Lemma record_entries_snoc (pre : list column) col j :
  record_entries N np_angle_deg astype_float32 (pre ++ [col]) j
  = es ← record_entries N np_angle_deg astype_float32 pre j;
    e ← column_entries N np_angle_deg astype_float32 col j;
    Some (es ++ e).
Proof.
  induction pre as [|c pre IH]; cbn [app record_entries].
  - destruct (column_entries _ _ _ col j) as [e|]; [|done].
    cbn [mbind option_bind]. by rewrite app_nil_r.
  - destruct (column_entries _ _ _ c j) as [e|]; [|done].
    cbn [mbind option_bind]. rewrite IH.
    destruct (record_entries _ _ _ pre j) as [es|]; [|done].
    cbn [mbind option_bind].
    destruct (column_entries _ _ _ col j) as [e'|]; [|done].
    cbn [mbind option_bind]. by rewrite app_assoc.
Qed.

Lemma length_column_entries col j es :
  column_entries N np_angle_deg astype_float32 col j = Some es →
  length es = column_width N col.
Proof.
  destruct col as [vs|vs|vs]; cbn [column_entries column_width];
    destruct (vs !! j); intros [= <-]; done.
Qed.

Lemma length_record_entries (cols : list column) j es :
  record_entries N np_angle_deg astype_float32 cols j = Some es →
  length es = widths cols.
Proof.
  revert es. induction cols as [|col cols IH]; intros es.
  { by intros [= <-]. }
  unfold total_width in *.
  cbn [record_entries fmap list_fmap sum_list sum_list_with].
  destruct (column_entries _ _ _ col j) as [e|] eqn:He; [|done].
  destruct (record_entries _ _ _ cols j) as [rs|]; [|done].
  intros [= <-]. rewrite length_app, (IH rs eq_refl).
  by rewrite (length_column_entries col j e He).
Qed.

Lemma widths_snoc (pre : list column) col :
  widths (pre ++ [col]) = widths pre + column_width N col.
Proof.
  unfold total_width. rewrite fmap_app, sum_list_with_app. cbn. lia.
Qed.

Lemma insert_assigned {A} (xs : list A) (x : A) (m : nat) :
  <[length xs := Some x]> ((Some <$> xs) ++ replicate (S m) None)
  = (Some <$> xs ++ [x]) ++ replicate m None.
Proof.
  rewrite insert_app_r_alt by (rewrite length_fmap; lia).
  rewrite length_fmap, Nat.sub_diag. cbn [replicate].
  rewrite fmap_app, <- app_assoc. done.
Qed.

(** One assignment [data[:,k] = vals], where column [k] is the first one
    of every row that is not assigned yet. *)
Lemma assign_next (k m : nat) (vals : list (R N))
    (data : list (list (option (R N)))) :
  length vals = length data →
  (∀ j row, data !! j = Some row →
     ∃ xs, length xs = k ∧ row = (Some <$> xs) ++ replicate (S m) None) →
  ∃ data', assign_column N k vals data = Some data' ∧
    length data' = length data ∧
    ∀ j xs, data !! j = Some ((Some <$> xs) ++ replicate (S m) None) →
      length xs = k →
      ∃ v, vals !! j = Some v ∧
           data' !! j = Some ((Some <$> xs ++ [v]) ++ replicate m None).
Proof.
  intros Hlen Hrows.
  destruct (assign_column_returns N k vals data Hlen) as [data' Hd].
  { apply Forall_lookup. intros j row Hj.
    destruct (Hrows j row Hj) as (xs & Hxs & ->).
    rewrite length_app, length_fmap, length_replicate. lia. }
  exists data'. split; [done|].
  destruct (assign_column_rows N _ _ _ _ Hd) as (Hl & _ & Hr).
  split; [done|]. intros j xs Hj Hxs.
  destruct (Hr j _ Hj) as (_ & v & Hv & Hj'). exists v. split; [done|].
  by rewrite Hj', <- Hxs, insert_assigned.
Qed.

Lemma write_column_None (frame : HklData N) labs :
  foldl (write_column N np_angle_deg astype_float32 frame) None labs = None.
Proof. by induction labs. Qed.

Lemma write_column_step (frame : HklData N) (pre : list column) lab col w
    data :
  rows_written N np_angle_deg astype_float32 frame pre w data →
  frame_column N frame lab = Some col →
  3 + widths (pre ++ [col]) ≤ w →
  if decide (column_length N col = length (df_hkl N frame)) then
    ∃ data',
      write_column N np_angle_deg astype_float32 frame
        (Some (data, 3 + widths pre)) lab
      = Some (data', 3 + widths (pre ++ [col])) ∧
      rows_written N np_angle_deg astype_float32 frame (pre ++ [col]) w data'
  else
    write_column N np_angle_deg astype_float32 frame
      (Some (data, 3 + widths pre)) lab = None.
Proof.
  intros [Hlen Hrows] Hcol Hw. rewrite widths_snoc in Hw.
  unfold write_column. cbn [mbind option_bind fst snd]. rewrite Hcol.
  cbn [mbind option_bind].
  assert (∀ j row, data !! j = Some row →
            ∃ hkl es,
              df_hkl N frame !! j = Some hkl ∧
              record_entries N np_angle_deg astype_float32 pre j = Some es ∧
              row = (Some <$> hkl_entries N astype_float32 hkl ++ es)
                    ++ replicate (w - (3 + widths pre)) None) as Hrow.
  { intros j row Hj.
    destruct (lookup_lt_is_Some_2 (df_hkl N frame) j) as [hkl Hhkl].
    { rewrite <- Hlen. by apply lookup_lt_Some in Hj. }
    destruct (Hrows j hkl Hhkl) as (es & Hes & Hj').
    exists hkl, es. split_and!; [done | done | congruence]. }
  assert (∀ j hkl es,
            df_hkl N frame !! j = Some hkl →
            record_entries N np_angle_deg astype_float32 pre j = Some es →
            length (hkl_entries N astype_float32 hkl ++ es) = 3 + widths pre)
    as Hwidth.
  { intros j hkl es _ Hes. rewrite length_app.
    by rewrite (length_record_entries pre j es Hes). }
  case_decide as Hfull.
  2:{ destruct col as [vs|vs|vs]; cbn [column_length] in Hfull;
        rewrite assign_column_fails; try done;
        rewrite length_fmap, Hlen; done. }
  rewrite widths_snoc.
  destruct col as [vs|vs|vs]; cbn [column_length column_width] in *.
  - (* an integer column *)
    replace (w - (3 + widths pre)) with (S (w - (3 + widths pre) - 1))
      in Hrow, Hrows by lia.
    destruct (assign_next (3 + widths pre) (w - (3 + widths pre) - 1)
                ((λ z, astype_float32 (of_int N z)) <$> vs) data)
      as (data' & Hd & Hl' & Hr').
    { rewrite length_fmap. congruence. }
    { intros j row Hj. destruct (Hrow j row Hj) as (hkl & es & Hh & He & ->).
      eexists. split; [|done]. by apply (Hwidth j hkl es). }
    rewrite Hd. cbn [mbind option_bind]. exists data'. split; [done|].
    split; [congruence|]. intros j hkl Hhkl.
    destruct (Hrows j hkl Hhkl) as (es & Hes & Hj).
    destruct (Hr' j _ Hj (Hwidth j hkl es Hhkl Hes)) as (v & Hv & Hj').
    rewrite list_lookup_fmap in Hv.
    destruct (vs !! j) as [z|] eqn:Hz; [|done]. injection Hv as <-.
    exists (es ++ [astype_float32 (of_int N z)]). split.
    + rewrite record_entries_snoc, Hes. cbn [mbind option_bind column_entries].
      by rewrite Hz.
    + rewrite Hj', widths_snoc. cbn [column_width]. rewrite <- !app_assoc.
      by replace (w - (3 + (widths pre + 1)))
        with (w - (3 + widths pre) - 1) by lia.
  - (* a real column *)
    replace (w - (3 + widths pre)) with (S (w - (3 + widths pre) - 1))
      in Hrow, Hrows by lia.
    destruct (assign_next (3 + widths pre) (w - (3 + widths pre) - 1)
                (astype_float32 <$> vs) data)
      as (data' & Hd & Hl' & Hr').
    { rewrite length_fmap. congruence. }
    { intros j row Hj. destruct (Hrow j row Hj) as (hkl & es & Hh & He & ->).
      eexists. split; [|done]. by apply (Hwidth j hkl es). }
    rewrite Hd. cbn [mbind option_bind]. exists data'. split; [done|].
    split; [congruence|]. intros j hkl Hhkl.
    destruct (Hrows j hkl Hhkl) as (es & Hes & Hj).
    destruct (Hr' j _ Hj (Hwidth j hkl es Hhkl Hes)) as (v & Hv & Hj').
    rewrite list_lookup_fmap in Hv.
    destruct (vs !! j) as [z|] eqn:Hz; [|done]. injection Hv as <-.
    exists (es ++ [astype_float32 z]). split.
    + rewrite record_entries_snoc, Hes. cbn [mbind option_bind column_entries].
      by rewrite Hz.
    + rewrite Hj', widths_snoc. cbn [column_width]. rewrite <- !app_assoc.
      by replace (w - (3 + (widths pre + 1)))
        with (w - (3 + widths pre) - 1) by lia.
  - (* a complex column *)
    replace (w - (3 + widths pre)) with (S (S (w - (3 + widths pre) - 2)))
      in Hrow, Hrows by lia.
    destruct (assign_next (3 + widths pre) (S (w - (3 + widths pre) - 2))
                ((λ z, astype_float32 (np_abs N z)) <$> vs) data)
      as (data1 & Hd1 & Hl1 & Hr1).
    { rewrite length_fmap. congruence. }
    { intros j row Hj. destruct (Hrow j row Hj) as (hkl & es & Hh & He & ->).
      eexists. split; [|done]. by apply (Hwidth j hkl es). }
    rewrite Hd1. cbn [mbind option_bind].
    assert (∀ j hkl es, df_hkl N frame !! j = Some hkl →
              record_entries N np_angle_deg astype_float32 pre j = Some es →
              ∃ z, vs !! j = Some z ∧
                data1 !! j
                = Some ((Some <$> (hkl_entries N astype_float32 hkl ++ es)
                                   ++ [astype_float32 (np_abs N z)])
                        ++ replicate (S (w - (3 + widths pre) - 2)) None))
      as Hrows1.
    { intros j hkl es Hhkl Hes.
      destruct (Hrows j hkl Hhkl) as (es' & Hes' & Hj).
      assert (es' = es) as -> by congruence.
      destruct (Hr1 j _ Hj (Hwidth j hkl es Hhkl Hes)) as (v & Hv & Hj').
      rewrite list_lookup_fmap in Hv.
      destruct (vs !! j) as [z|] eqn:Hz; [|done]. injection Hv as <-.
      by exists z. }
    destruct (assign_next (3 + widths pre + 1) (w - (3 + widths pre) - 2)
                ((λ z, astype_float32 (np_angle_deg z)) <$> vs) data1)
      as (data' & Hd & Hl' & Hr').
    { rewrite length_fmap. congruence. }
    { intros j row Hj.
      destruct (lookup_lt_is_Some_2 (df_hkl N frame) j) as [hkl Hhkl].
      { rewrite <- Hlen, <- Hl1. by apply lookup_lt_Some in Hj. }
      destruct (Hrows j hkl Hhkl) as (es & Hes & _).
      destruct (Hrows1 j hkl es Hhkl Hes) as (z & _ & Hj1).
      exists ((hkl_entries N astype_float32 hkl ++ es)
                ++ [astype_float32 (np_abs N z)]).
      split; [|congruence].
      rewrite length_app, (Hwidth j hkl es Hhkl Hes). cbn [length]. lia. }
    rewrite Hd. cbn [mbind option_bind]. exists data'. split.
    { by replace (3 + widths pre + 2) with (3 + (widths pre + 2)) by lia. }
    split; [congruence|]. intros j hkl Hhkl.
    destruct (Hrows j hkl Hhkl) as (es & Hes & _).
    destruct (Hrows1 j hkl es Hhkl Hes) as (z & Hz & Hj1).
    destruct (Hr' j _ Hj1) as (v & Hv & Hj').
    { rewrite length_app, (Hwidth j hkl es Hhkl Hes). cbn [length]. lia. }
    rewrite list_lookup_fmap, Hz in Hv. injection Hv as <-.
    exists (es ++ [astype_float32 (np_abs N z);
                   astype_float32 (np_angle_deg z)]).
    split.
    + rewrite record_entries_snoc, Hes. cbn [mbind option_bind column_entries].
      by rewrite Hz.
    + rewrite Hj', widths_snoc. cbn [column_width]. rewrite <- !app_assoc.
      cbn [app].
      by replace (w - (3 + (widths pre + 2)))
        with (w - (3 + widths pre) - 2) by lia.
Qed.
(** The loop of lines 577-585 started after the columns [pre]. *)
Lemma write_column_fold (frame : HklData N) w (pre : list column) labs cols
    data :
  rows_written N np_angle_deg astype_float32 frame pre w data →
  Forall2 (λ lab col, frame_column N frame lab = Some col) labs cols →
  3 + widths (pre ++ cols) ≤ w →
  match foldl (write_column N np_angle_deg astype_float32 frame)
          (Some (data, 3 + widths pre)) labs with
  | Some st =>
      Forall (λ col, column_length N col = length (df_hkl N frame)) cols ∧
      st.2 = 3 + widths (pre ++ cols) ∧
      rows_written N np_angle_deg astype_float32 frame (pre ++ cols) w st.1
  | None =>
      Exists (λ col, column_length N col ≠ length (df_hkl N frame)) cols
  end.
Proof.
  intros Hrows Hcols. revert pre data Hrows.
  induction Hcols as [|lab col labs cols Hcol Hcols IH];
    intros pre data Hrows Hw.
  { cbn [foldl]. rewrite app_nil_r. by split_and!. }
  cbn [foldl].
  assert (3 + widths (pre ++ [col]) ≤ w) as Hw1.
  { replace (pre ++ col :: cols) with ((pre ++ [col]) ++ cols) in Hw
      by by rewrite <- app_assoc.
    unfold total_width in *. rewrite fmap_app, sum_list_with_app in Hw. lia. }
  pose proof (write_column_step frame pre lab col w data Hrows Hcol Hw1)
    as Hstep.
  case_decide as Hfull.
  - destruct Hstep as (data' & -> & Hrows').
    specialize (IH (pre ++ [col]) data' Hrows').
    rewrite <- app_assoc in IH. specialize (IH Hw).
    destruct (foldl _ _ labs) as [st|].
    + destruct IH as (Hall & Hidx & Hr). split_and!; try done.
      by constructor.
    + by apply Exists_cons_tl.
  - rewrite Hstep, write_column_None. by apply Exists_cons_hd.
Qed.

Lemma length_mtz_columns_of types deco lab col :
  length (mtz_columns_of N types deco lab col) = column_width N col.
Proof. by destruct col. Qed.

Lemma length_written_columns types deco labs (cols : list column) :
  length labs = length cols →
  length (concat (zip_with (mtz_columns_of N types deco) labs cols))
  = widths cols.
Proof.
  revert cols. induction labs as [|lab labs IH]; intros [|col cols] Hlen;
    try done.
  cbn [zip_with concat]. unfold total_width in *.
  cbn [fmap list_fmap sum_list sum_list_with].
  rewrite length_app, length_mtz_columns_of, IH; [done|].
  by injection Hlen.
Qed.

(** The array after line 575, with its entries cast to single
    precision. *)
Lemma write_hkl_rows (frame : HklData N) w :
  3 ≤ w →
  ∃ data,
    assign_hkl N (df_hkl N frame) (np_empty N (length (df_hkl N frame)) w)
    = Some data ∧
    rows_written N np_angle_deg astype_float32 frame [] w
      ((λ row : list (option (R N)),
          (λ v : option (R N), astype_float32 <$> v) <$> row) <$> data).
Proof.
  intros Hw.
  destruct (assign_hkl_layout N np_angle_deg frame w Hw)
    as (data & Hd & Hlen & Hrows).
  exists data. split; [done|]. split; [by rewrite length_fmap|].
  intros j hkl Hhkl.
  destruct (Hrows j hkl Hhkl) as (row & Hrow & Hlr & H0 & H1 & H2 & _ & Hrest).
  exists []. split; [done|]. rewrite list_lookup_fmap, Hrow.
  cbn [fmap option_fmap option_map]. f_equal.
  apply list_eq_same_length with w.
  - rewrite length_app, length_fmap, length_replicate.
    cbn [total_width fmap list_fmap sum_list sum_list_with length app
         hkl_entries]. lia.
  - by rewrite length_fmap.
  - intros c x y Hc Hx Hy. rewrite list_lookup_fmap in Hx.
    destruct (decide (c < 3)) as [Hc3|Hc3].
    + destruct c as [|[|[|c]]]; [| | |lia].
      * rewrite H0 in Hx. cbn in Hx, Hy. congruence.
      * rewrite H1 in Hx. cbn in Hx, Hy. congruence.
      * rewrite H2 in Hx. cbn in Hx, Hy. congruence.
    + rewrite (Hrest c) in Hx by (cbn [length]; lia).
      rewrite lookup_app_r in Hy by (cbn; lia).
      apply lookup_replicate in Hy as [-> _]. cbn in Hx. congruence.
Qed.

(** X15. [write_mtz] raises exactly when one of the labels is not a
    column of the frame with one entry for every record. Otherwise the
    object has the columns [H], [K], [L] of type [H] followed, for every
    label, by an amplitude and a phase column for a complex column and by
    one column of the type given in [types], or else [I] or [R], for an
    integer or a real one; [ndata + 3] is the number of these columns, so
    that [set_data] accepts the array; and the row of every record holds
    its indices and then the entries of its columns, all of them assigned.
    With [exclude_000] the records are those whose index is not
    [(0, 0, 0)], in their order. *)
Theorem write_mtz_layout (h : HklData N) (labs : list string)
    (types : gmap string string) (deco : option (string → string))
    (exclude_000 : bool) :
  df_hkl N (written_frame N true h)
  = filter (λ hkl, hkl ≠ (0, 0, 0)%Z) (df_hkl N h) ∧
  match write_mtz N np_angle_deg astype_float32 h labs types deco
          exclude_000 with
  | None =>
      ∃ lab, lab ∈ labs ∧
        ∀ col, frame_column N (written_frame N exclude_000 h) lab = Some col →
          column_length N col
          ≠ length (df_hkl N (written_frame N exclude_000 h))
  | Some mtz =>
      ∃ cols,
        Forall2
          (λ lab col,
             frame_column N (written_frame N exclude_000 h) lab = Some col ∧
             column_length N col
             = length (df_hkl N (written_frame N exclude_000 h)))
          labs cols ∧
        mtz_cell N mtz = cell N h ∧ mtz_datasets N mtz = ["HKL_base"] ∧
        mtz_columns N mtz
        = [("H", "H"); ("K", "H"); ("L", "H")]
          ++ concat (zip_with (mtz_columns_of N types deco) labs cols) ∧
        length (mtz_columns N mtz) = 3 + total_width N cols ∧
        length (mtz_data N mtz)
        = length (df_hkl N (written_frame N exclude_000 h)) ∧
        ∀ j hkl,
          df_hkl N (written_frame N exclude_000 h) !! j = Some hkl →
          ∃ es,
            record_entries N np_angle_deg astype_float32 cols j = Some es ∧
            mtz_data N mtz !! j
            = Some (Some <$> hkl_entries N astype_float32 hkl ++ es) ∧
            length (hkl_entries N astype_float32 hkl ++ es)
            = length (mtz_columns N mtz)
  end.
Proof.
  split; [apply written_frame_hkl|].
  unfold write_mtz. cbv zeta.
  set (frame := written_frame N exclude_000 h).
  destruct (mapM (frame_column N frame) labs) as [cols|] eqn:Hcols.
  2:{ cbn [mbind option_bind]. apply mapM_None_1 in Hcols.
      apply Exists_exists in Hcols as (lab & Hlab & Hnone).
      exists lab. split; [done|]. intros col Hcol. congruence. }
  cbn [mbind option_bind]. apply mapM_Some_1 in Hcols.
  destruct (write_hkl_rows frame (total_width N cols + 3) ltac:(lia))
    as (data0 & Hd0 & Hrows0).
  rewrite Hd0. cbn [mbind option_bind].
  pose proof (write_column_fold frame (total_width N cols + 3) [] labs cols _
                Hrows0 Hcols ltac:(cbn [app]; lia)) as Hfold.
  change (3 + total_width N []) with 3 in Hfold.
  destruct (foldl _ _ labs) as [[data idx]|].
  2:{ cbn [mbind option_bind]. apply Exists_exists in Hfold as (col & Hin & Hbad).
      apply list_elem_of_lookup in Hin as [i Hi].
      destruct (Forall2_lookup_r _ _ _ _ _ Hcols Hi) as (lab & Hlab & Hcol).
      exists lab. split; [by apply list_elem_of_lookup_2 in Hlab|].
      intros col' Hcol'. congruence. }
  cbn [mbind option_bind fst snd] in Hfold |- *.
  destruct Hfold as (Hall & _ & Hlen & Hrows). cbn [app] in Hrows.
  set (columns := ((λ label : string, (label, "H")) <$> ["H"; "K"; "L"]) ++ _).
  assert (length columns = 3 + total_width N cols) as Hncol.
  { unfold columns. rewrite length_app, length_written_columns; [done|].
    by apply Forall2_length in Hcols. }
  assert (∀ j row, data !! j = Some row →
            ∃ hkl es,
              df_hkl N frame !! j = Some hkl ∧
              record_entries N np_angle_deg astype_float32 cols j = Some es ∧
              row = (Some <$> hkl_entries N astype_float32 hkl ++ es)) as Hrow.
  { intros j row Hj.
    destruct (lookup_lt_is_Some_2 (df_hkl N frame) j) as [hkl Hhkl].
    { rewrite <- Hlen. by apply lookup_lt_Some in Hj. }
    destruct (Hrows j hkl Hhkl) as (es & Hes & Hj').
    exists hkl, es. split_and!; [done | done |].
    rewrite Hj' in Hj.
    replace (total_width N cols + 3 - (3 + total_width N cols)) with 0
      in Hj by lia.
    cbn [replicate] in Hj. rewrite app_nil_r in Hj. congruence. }
  unfold set_data. rewrite bool_decide_eq_true_2.
  2:{ apply Forall_lookup. intros j row Hj.
      destruct (Hrow j row Hj) as (hkl & es & _ & Hes & ->).
      rewrite length_fmap, length_app, Hncol.
      by rewrite (length_record_entries _ _ _ Hes). }
  cbn [mbind option_bind mtz_cell mtz_datasets mtz_columns mtz_data].
  exists cols. split_and!; try done.
  - apply Forall2_same_length_lookup. split; [by apply Forall2_length in Hcols|].
    intros i lab col Hlab Hcol.
    destruct (Forall2_lookup_l _ _ _ _ _ Hcols Hlab) as (col' & Hcol' & Hfc).
    assert (col' = col) as -> by congruence. split; [done|].
    by apply (proj1 (Forall_lookup _ _) Hall i).
  - intros j hkl Hhkl. destruct (Hrows j hkl Hhkl) as (es & Hes & Hj).
    exists es. split_and!; [done | |].
    + rewrite Hj.
      replace (total_width N cols + 3 - (3 + total_width N cols)) with 0
        by lia.
      cbn [replicate]. by rewrite app_nil_r.
    + rewrite length_app, Hncol.
      by rewrite (length_record_entries _ _ _ Hes).
Qed.
End write_mtz_facts.
